(** * rebuild_vx_json: a shallow embedding of [scripts/rebuild_vx_json.py]

    The script walks a notebook tree and regenerates the [vx.json] sidecar
    of the root and of every included folder, merging what it finds on
    disk with what the previous sidecar recorded.

    Conventions of the embedding:
    - a Python [str] is a Rocq [string] whose characters are read as the
      code points U+0000..U+00FF; [lower], [casefold], [isdigit] and
      [strip] are CPython's on that range;
    - a value produced by [json.loads] is a [json]; a Python [dict] is an
      association list in insertion order, Python's [None] is [JNull];
    - a timestamp is POSIX time in whole microseconds, the resolution of
      [datetime]; the binary float carrying it is not modelled;
    - the file system, the random source, the clock and standard output
      form the [world] threaded through the effectful functions; an
      exception is the outcome [Raise], an exhausted loop budget is
      [OutOfFuel]. *)

From Stdlib Require Import ZArith NArith List String Ascii Bool Lia.
From Stdlib Require Import DecimalString DecimalZ Sorting.Sorted Sorting.Permutation.
Import ListNotations.

Set Warnings "-register-all".

Local Open Scope string_scope.
Local Open Scope Z_scope.

(** ** Characters and strings *)

Module PyStr.

Definition code (c : ascii) : N := N_of_ascii c.

Definition in_range (lo hi n : N) : bool := ((lo <=? n) && (n <=? hi))%N.

(** [str.isspace] on one character. *)
Definition isspace_char (c : ascii) : bool :=
  let n := code c in
  (in_range 9 13 n || in_range 28 32 n || (n =? 133) || (n =? 160))%N.

(** [str.isdigit] on one character: the ASCII digits and the superscript
    digits U+00B2, U+00B3, U+00B9. *)
Definition isdigit_char (c : ascii) : bool :=
  let n := code c in
  (in_range 48 57 n || (n =? 178) || (n =? 179) || (n =? 185))%N.

(** The ASCII decimal digits only. *)
Definition is_ascii_digit (c : ascii) : bool := in_range 48 57 (code c).

Definition is_upper_char (c : ascii) : bool :=
  let n := code c in
  (in_range 65 90 n || in_range 192 214 n || in_range 216 222 n)%N.

Definition lower_char (c : ascii) : ascii :=
  if is_upper_char c then ascii_of_N (code c + 32) else c.

(** [str.casefold] on one character; the result may leave the range
    (U+00B5 folds to U+03BC) or grow (U+00DF folds to "ss"), so folded
    text is a list of code points. *)
Definition casefold_char (c : ascii) : list N :=
  let n := code c in
  if is_upper_char c then [(n + 32)%N]
  else if (n =? 181)%N then [956%N]
  else if (n =? 223)%N then [115%N; 115%N]
  else [n].

Fixpoint forallb_str (p : ascii -> bool) (s : string) : bool :=
  match s with
  | EmptyString => true
  | String c s' => p c && forallb_str p s'
  end.

Fixpoint map_str (f : ascii -> ascii) (s : string) : string :=
  match s with
  | EmptyString => EmptyString
  | String c s' => String (f c) (map_str f s')
  end.

Definition is_empty (s : string) : bool :=
  match s with EmptyString => true | _ => false end.

(** [s.isdigit()]: at least one character, all of them digits. *)
Definition isdigit (s : string) : bool :=
  negb (is_empty s) && forallb_str isdigit_char s.

Definition lower (s : string) : string := map_str lower_char s.

Fixpoint casefold (s : string) : list N :=
  match s with
  | EmptyString => []
  | String c s' => casefold_char c ++ casefold s'
  end.

Fixpoint lstrip (s : string) : string :=
  match s with
  | EmptyString => EmptyString
  | String c s' => if isspace_char c then lstrip s' else s
  end.

Fixpoint rstrip (s : string) : string :=
  match s with
  | EmptyString => EmptyString
  | String c s' =>
      match rstrip s' with
      | EmptyString => if isspace_char c then EmptyString else String c EmptyString
      | r => String c r
      end
  end.

(** [s.strip()] *)
Definition strip (s : string) : string := rstrip (lstrip s).

(** [s.startswith(p)] *)
Fixpoint startswith (s p : string) : bool :=
  match p, s with
  | EmptyString, _ => true
  | String a p', String b s' => Ascii.eqb a b && startswith s' p'
  | String _ _, EmptyString => false
  end.

(** [s.endswith(p)] *)
Definition endswith (s p : string) : bool :=
  let n := String.length s in
  let k := String.length p in
  (k <=? n)%nat && String.eqb (substring (n - k) k s) p.

(** [s.rfind(c)] for a single character; [None] stands for -1. *)
Fixpoint rfind (c : ascii) (s : string) : option nat :=
  match s with
  | EmptyString => None
  | String a s' =>
      match rfind c s' with
      | Some i => Some (S i)
      | None => if Ascii.eqb a c then Some O else None
      end
  end.

(** [s.replace(old, new)] for a non-empty [old]: occurrences are replaced
    from left to right without overlap.  [skip] counts the characters of
    a match still to be dropped. *)
Fixpoint replace_from (skip : nat) (old new s : string) : string :=
  match s with
  | EmptyString => EmptyString
  | String c s' =>
      match skip with
      | S k => replace_from k old new s'
      | O =>
          if startswith s old
          then new ++ replace_from (String.length old - 1) old new s'
          else String c (replace_from O old new s')
      end
  end.

Definition replace (s old new : string) : string := replace_from O old new s.

(** Order of Python strings: lexicographic on code points. *)
Fixpoint key_leb (a b : list N) : bool :=
  match a, b with
  | [], _ => true
  | _ :: _, [] => false
  | x :: a', y :: b' => (x <? y)%N || ((x =? y)%N && key_leb a' b')
  end.

(** [str(n)] for an [int]. *)
Definition str_int (z : Z) : string := NilZero.string_of_int (Z.to_int z).

(** [str(b)] for a [bool]. *)
Definition str_bool (b : bool) : string := if b then "True" else "False".

End PyStr.

(** ** JSON values and Python dictionaries *)

Inductive json : Type :=
| JNull
| JBool (b : bool)
| JInt (z : Z)
| JFloat (literal : string)
| JStr (s : string)
| JList (items : list json)
| JDict (fields : list (string * json)).

(** A [dict] with string keys, in insertion order. *)
Definition dict (V : Type) : Type := list (string * V).

Module Dict.

Fixpoint lookup {V} (k : string) (d : dict V) : option V :=
  match d with
  | [] => None
  | (k', v) :: d' => if String.eqb k' k then Some v else lookup k d'
  end.

(** [k in d] *)
Definition mem {V} (k : string) (d : dict V) : bool :=
  match lookup k d with Some _ => true | None => false end.

(** [d[k] = v]: an existing key keeps its position. *)
Fixpoint set {V} (k : string) (v : V) (d : dict V) : dict V :=
  match d with
  | [] => [(k, v)]
  | (k', v') :: d' =>
      if String.eqb k' k then (k, v) :: d' else (k', v') :: set k v d'
  end.

(** [d.get(k)] on decoded JSON: a missing key reads as [None]. *)
Definition get (k : string) (d : dict json) : json :=
  match lookup k d with Some v => v | None => JNull end.

(** [d.get(k, default)] *)
Definition get_default {V} (k : string) (default : V) (d : dict V) : V :=
  match lookup k d with Some v => v | None => default end.

Definition keys {V} (d : dict V) : list string := map fst d.

End Dict.

(** [x or default] on an optional string: [None] and [""] are falsy. *)
Definition or_else (x : option string) (default : string) : string :=
  match x with
  | Some s => if PyStr.is_empty s then default else s
  | None => default
  end.

(** [isinstance(value, str) and value] *)
Definition nonempty_str (value : json) : option string :=
  match value with
  | JStr s => if PyStr.is_empty s then None else Some s
  | _ => None
  end.

(** ** Constants *)

Definition CONFIG_FILE_NAME : string := "vx.json".
Definition NOTE_SUFFIX : string := ".md".
Definition DEFAULT_CONFIG_VERSION : Z := 3.

Definition BUILT_IN_DIR_NAMES : list string :=
  [ "vx_notebook"; "vx_recycle_bin"; "vx_images"; "vx_attachments";
    "_v_images"; "_v_attachments" ].

Definition NODE_VISUAL_KEYS : list string :=
  [ "background_color"; "border_color"; "name_color" ].

Definition ATTACHMENT_ROOT_CANDIDATES : list string :=
  [ "vx_attachments"; "_v_attachments" ].

(** ** Pure helpers of the reconciler *)

(** [parse_id_like]: [bool] is a subclass of [int] in Python, so
    [isinstance(value, int)] also holds of [True] and [False], which
    compare as 1 and 0 and print as their names. *)
Definition parse_id_like (value : json) : option string :=
  match value with
  | JBool b =>
      if 0 <=? Z.b2z b then Some (PyStr.str_bool b) else None
  | JInt z =>
      if 0 <=? z then Some (PyStr.str_int z) else None
  | JStr s =>
      let s := PyStr.strip s in
      if PyStr.isdigit s then Some s else None
  | _ => None
  end.

Definition parse_signature_like (value : json) : option string :=
  match parse_id_like value with
  | None => None
  | Some parsed => if negb (String.eqb parsed "0") then Some parsed else None
  end.

(** One iteration of the loop of [map_entries_by_name]. *)
Definition map_entries_step (result : dict (dict json)) (item : json)
  : dict (dict json) :=
  match item with
  | JDict fields =>
      match Dict.get "name" fields with
      | JStr name =>
          if negb (PyStr.is_empty name) && negb (Dict.mem name result)
          then Dict.set name fields result
          else result
      | _ => result
      end
  | _ => result
  end.

Definition map_entries_by_name (entries : json) : dict (dict json) :=
  match entries with
  | JList items => fold_left map_entries_step items []
  | _ => []
  end.

Definition clean_tags (value : json) : list string :=
  match value with
  | JList items =>
      flat_map (fun tag => match nonempty_str tag with
                           | Some s => [s]
                           | None => []
                           end) items
  | _ => []
  end.

(** The loop over [NODE_VISUAL_KEYS] shared by the three builders. *)
Definition copy_visual_keys (existing entry : dict json) : dict json :=
  fold_left
    (fun entry key =>
       match nonempty_str (Dict.get key existing) with
       | Some value => Dict.set key (JStr value) entry
       | None => entry
       end)
    NODE_VISUAL_KEYS entry.

Definition build_folder_entry (name : string) (existing : dict json) : dict json :=
  copy_visual_keys existing [("name", JStr name)].

(** ** Exclusion rules *)

Definition is_hidden_name (name : string) : bool := PyStr.startswith name ".".

Definition should_exclude_dir (name : string) : bool :=
  let low := PyStr.lower name in
  if is_hidden_name name then true
  else if PyStr.endswith low "_assets" then true
  else if existsb (String.eqb low) BUILT_IN_DIR_NAMES then true
  else false.

(** ** The world: file system, random source, clock, output *)

Definition path : Type := list string.

(** A file-system object.  [mtime = None] means that [stat()] on the
    object raises [OSError]; [text = None] that the file cannot be read
    as UTF-8 text.  A symbolic link carries what it resolves to, if
    anything; [Special] stands for sockets, fifos and devices. *)
Inductive node : Type :=
| File (mtime : option Z) (text : option string)
| Dir (mtime : option Z) (entries : list (string * node))
| Symlink (target : option node)
| Special.

Inductive event : Type :=
| Printed (line : string)
| Wrote (file : path) (text : string).

(** [rng] and [clock] hold the raw draws and the clock readings still to
    come, [log] the output and write events so far, oldest first. *)
Record world : Type := mkWorld {
  fs : node;
  rng : nat -> Z;
  clock : nat -> Z;
  log : list event
}.

Inductive exn : Type := OSError | ValueError | SystemExit (message : string).

Inductive outcome (A : Type) : Type :=
| Ret (a : A) (w : world)
| Raise (e : exn) (w : world)
| OutOfFuel.
Arguments Ret {A} a w.
Arguments Raise {A} e w.
Arguments OutOfFuel {A}.

Definition M (A : Type) : Type := world -> outcome A.

Definition ret {A} (a : A) : M A := fun w => Ret a w.

Definition bind {A B} (m : M A) (k : A -> M B) : M B :=
  fun w => match m w with
           | Ret a w' => k a w'
           | Raise e w' => Raise e w'
           | OutOfFuel => OutOfFuel
           end.

Definition raise {A} (e : exn) : M A := fun w => Raise e w.

(** [try: m  except <caught>: handler] *)
Definition try_except {A} (m : M A) (caught : exn -> bool) (handler : M A) : M A :=
  fun w => match m w with
           | Raise e w' => if caught e then handler w' else Raise e w'
           | r => r
           end.

Declare Scope monad_scope.
Delimit Scope monad_scope with monad.
Notation "x <- m ;; k" := (bind m (fun x => k))
  (at level 61, m at next level, right associativity) : monad_scope.
Notation "' pat <- m ;; k" := (bind m (fun x => match x with pat => k end))
  (at level 61, pat pattern, m at next level, right associativity) : monad_scope.
Notation "m ;;; k" := (bind m (fun _ => k))
  (at level 61, right associativity) : monad_scope.
Local Open Scope monad_scope.

(** [for x in xs: f(x)] collecting the results, left to right. *)
Fixpoint mapM {A B} (f : A -> M B) (xs : list A) : M (list B) :=
  match xs with
  | [] => ret []
  | x :: xs' => y <- f x ;; ys <- mapM f xs' ;; ret (y :: ys)
  end.

Module FS.

(** The object at the end of a chain of symbolic links. *)
Fixpoint deref (n : node) : option node :=
  match n with
  | Symlink t => match t with Some n' => deref n' | None => None end
  | _ => Some n
  end.

(** The object named by [p] below [n], as [lstat] sees it: links are
    followed on the way, not at the last component. *)
Fixpoint lookup (n : node) (p : path) : option node :=
  match p with
  | [] => Some n
  | c :: p' =>
      match deref n with
      | Some (Dir _ entries) =>
          match Dict.lookup c entries with
          | Some child => lookup child p'
          | None => None
          end
      | _ => None
      end
  end.

(** The object named by [p] as [stat] sees it. *)
Definition resolve (n : node) (p : path) : option node :=
  match lookup n p with
  | Some x => deref x
  | None => None
  end.

Definition is_symlink (n : node) (p : path) : bool :=
  match lookup n p with
  | Some (Symlink _) => true
  | _ => false
  end.

Definition is_dir (n : node) (p : path) : bool :=
  match resolve n p with
  | Some (Dir _ _) => true
  | _ => false
  end.

Definition is_file (n : node) (p : path) : bool :=
  match resolve n p with
  | Some (File _ _) => true
  | _ => false
  end.

(** The entries of the directory at [p], in directory order. *)
Definition entries_of (n : node) (p : path) : option (list (string * node)) :=
  match resolve n p with
  | Some (Dir _ entries) => Some entries
  | _ => None
  end.

(** What [stat(p).st_mtime] reads, if the call succeeds. *)
Definition mtime_of (n : node) (p : path) : option Z :=
  match resolve n p with
  | Some (File m _) => m
  | Some (Dir m _) => m
  | _ => None
  end.

Definition touch (m : option Z) (now : Z) : option Z :=
  match m with Some _ => Some now | None => None end.

(** Writing text over an existing object.  A link carries what it
    resolves to, so a write through a link goes to the object held by
    the link: this is [write_text] for a link whose target no other path
    of the tree names.  Where another path names it too (a note, the
    sidecar of another directory), [write_text] changes the one object
    behind both paths, which this tree cannot express; what is stated
    below about the tree a write leaves behind is stated for trees
    without links, see [link_free]. *)
Fixpoint write_leaf (now : Z) (text : string) (n : node) : option node :=
  match n with
  | File _ _ => Some (File (Some now) (Some text))
  | Dir _ _ => None
  | Symlink t =>
      match t with
      | Some n' =>
          match write_leaf now text n' with
          | Some n'' => Some (Symlink (Some n''))
          | None => None
          end
      | None => Some (Symlink (Some (File (Some now) (Some text))))
      end
  | Special => None
  end.

(** The tree after [open(p, "w").write(text)] at time [now]; [None] when
    the call raises.  Creating an entry stamps the directory, replacing
    the text of an existing file does not. *)
Fixpoint write_at (now : Z) (text : string) (n : node) (p : path) : option node :=
  match p with
  | [] => write_leaf now text n
  | c :: p' =>
      match n with
      | Dir m entries =>
          match Dict.lookup c entries with
          | Some child =>
              match write_at now text child p' with
              | Some child' => Some (Dir m (Dict.set c child' entries))
              | None => None
              end
          | None =>
              match p' with
              | [] => Some (Dir (touch m now)
                              (entries ++ [(c, File (Some now) (Some text))])%list)
              | _ :: _ => None
              end
          end
      | _ => None
      end
  end.

End FS.

(** *** Primitive effects *)

Definition get_world : M world := fun w => Ret w w.

(** [path.is_symlink()] *)
Definition is_symlink (p : path) : M bool :=
  fun w => Ret (FS.is_symlink (fs w) p) w.

(** [path.is_dir()] *)
Definition is_dir (p : path) : M bool :=
  fun w => Ret (FS.is_dir (fs w) p) w.

(** [path.is_file()] *)
Definition is_file (p : path) : M bool :=
  fun w => Ret (FS.is_file (fs w) p) w.

(** [path.stat().st_mtime] *)
Definition st_mtime (p : path) : M Z :=
  fun w => match FS.mtime_of (fs w) p with
           | Some t => Ret t w
           | None => Raise OSError w
           end.

(** [path.iterdir()], in directory order. *)
Definition iterdir (p : path) : M (list path) :=
  fun w => match FS.entries_of (fs w) p with
           | Some entries => Ret (map (fun e => (p ++ [fst e])%list) entries) w
           | None => Raise OSError w
           end.

(** [path.read_text(encoding="utf-8")] *)
Definition read_text (p : path) : M string :=
  fun w => match FS.resolve (fs w) p with
           | Some (File _ (Some text)) => Ret text w
           | Some (File _ None) => Raise ValueError w
           | _ => Raise OSError w
           end.

(** [datetime.now(tz=timezone.utc).timestamp()] *)
Definition now : M Z :=
  fun w => Ret (clock w O)
             (mkWorld (fs w) (rng w) (fun n => clock w (S n)) (log w)).

(** [rng.getrandbits(k)] *)
Definition getrandbits (k : Z) : M Z :=
  fun w => Ret (rng w O mod 2 ^ k)
             (mkWorld (fs w) (fun n => rng w (S n)) (clock w) (log w)).

Definition emit (e : event) : M unit :=
  fun w => Ret tt (mkWorld (fs w) (rng w) (clock w) (log w ++ [e])%list).

(** [print(line)] *)
Definition print (line : string) : M unit := emit (Printed line).

(** [path.write_text(text, encoding="utf-8")]; the operating system
    stamps the file with the clock. *)
Definition write_text (p : path) (text : string) : M unit :=
  fun w => match FS.write_at (clock w O) text (fs w) p with
           | Some fs' =>
               Ret tt (mkWorld fs' (rng w) (fun n => clock w (S n))
                         (log w ++ [Wrote p text])%list)
           | None => Raise OSError w
           end.

(** ** Timestamps *)

Module PyTime.

(** A [datetime] in UTC. *)
Record datetime : Type := mkDatetime {
  year : Z; month : Z; day : Z;
  hour : Z; minute : Z; second : Z;
  microsecond : Z
}.

(** Proleptic Gregorian date of a day count since 1970-01-01. *)
Definition civil_from_days (days : Z) : Z * Z * Z :=
  let z := days + 719468 in
  let era := z / 146097 in
  let doe := z - era * 146097 in
  let yoe := (doe - doe / 1460 + doe / 36524 - doe / 146096) / 365 in
  let doy := doe - (365 * yoe + yoe / 4 - yoe / 100) in
  let mp := (5 * doy + 2) / 153 in
  let d := doy - (153 * mp + 2) / 5 + 1 in
  let m := if mp <? 10 then mp + 3 else mp - 9 in
  let y := yoe + era * 400 in
  (if m <=? 2 then y + 1 else y, m, d).

(** [datetime.fromtimestamp(ts, tz=timezone.utc)]; years outside
    1..9999 are refused. *)
Definition fromtimestamp_utc (ts : Z) : M datetime :=
  let t := ts / 1000000 in
  let us := ts mod 1000000 in
  let sod := t mod 86400 in
  let '(y, m, d) := civil_from_days (t / 86400) in
  if (1 <=? y) && (y <=? 9999)
  then ret (mkDatetime y m d (sod / 3600) (sod mod 3600 / 60) (sod mod 60) us)
  else raise ValueError.

(** [dt.replace(microsecond=0)] *)
Definition replace_microsecond (dt : datetime) (us : Z) : datetime :=
  mkDatetime (year dt) (month dt) (day dt) (hour dt) (minute dt) (second dt) us.

Fixpoint zeros (n : nat) : string :=
  match n with O => EmptyString | S n' => String "0" (zeros n') end.

(** ["%0<width>d" % n] for a non-negative [n]. *)
Definition zfill (width : nat) (n : Z) : string :=
  let s := PyStr.str_int n in
  zeros (width - String.length s) ++ s.

(** [dt.isoformat()] of a UTC [datetime]: the fraction is printed only
    when it is not zero, the offset always. *)
Definition isoformat (dt : datetime) : string :=
  zfill 4 (year dt) ++ "-" ++ zfill 2 (month dt) ++ "-" ++ zfill 2 (day dt)
  ++ "T" ++ zfill 2 (hour dt) ++ ":" ++ zfill 2 (minute dt) ++ ":"
  ++ zfill 2 (second dt)
  ++ (if microsecond dt =? 0 then "" else "." ++ zfill 6 (microsecond dt))
  ++ "+00:00".

End PyTime.

Definition iso_utc_from_timestamp (ts : Z) : M string :=
  dt <- PyTime.fromtimestamp_utc ts ;;
  let dt := PyTime.replace_microsecond dt 0 in
  ret (PyStr.replace (PyTime.isoformat dt) "+00:00" "Z").

Definition is_OSError (e : exn) : bool :=
  match e with OSError => true | _ => false end.

Definition safe_mtime (p : path) : M Z :=
  try_except (st_mtime p) is_OSError now.

Definition get_existing_time (existing : dict json) (key : string) (fallback_ts : Z)
  : M string :=
  match nonempty_str (Dict.get key existing) with
  | Some value => ret value
  | None => iso_utc_from_timestamp fallback_ts
  end.

(** ** Signatures *)

(** The loop of [generate_signature], at most [fuel] draws. *)
Fixpoint generate_signature (fuel : nat) : M string :=
  match fuel with
  | O => fun _ => OutOfFuel
  | S fuel' =>
      sig <- getrandbits 63 ;;
      if 0 <? sig then ret (PyStr.str_int sig) else generate_signature fuel'
  end.

(** ** Paths *)

Module Path.

(** [p / name] *)
Definition join (p : path) (name : string) : path := (p ++ [name])%list.

(** [p.name] *)
Definition name (p : path) : string := last p "".

(** [p.parent] *)
Definition parent (p : path) : path := removelast p.

(** The index splitting the last component into stem and suffix, as
    [pathlib] computes it ([i = name.rfind('.')], kept when
    [0 < i < len(name) - 1]): the last dot, unless it is the first or
    the last character. *)
Definition suffix_index (name : string) : option nat :=
  match PyStr.rfind "." name with
  | Some i => if ((0 <? i) && (i <? String.length name - 1))%nat then Some i else None
  | None => None
  end.

(** [p.suffix] *)
Definition suffix (p : path) : string :=
  let name := name p in
  match suffix_index name with
  | Some i => substring i (String.length name - i) name
  | None => ""
  end.

(** [p.stem] *)
Definition stem (p : path) : string :=
  let name := name p in
  match suffix_index name with
  | Some i => substring 0 i name
  | None => name
  end.

End Path.

(** ** Scanner *)

(** [xs.sort(key=key)]: the stable sort of Python lists, here by
    insertion; keys are compared as Python compares strings. *)
Fixpoint insert_by_key {A} (key : A -> list N) (x : A) (sorted : list A) : list A :=
  match sorted with
  | [] => [x]
  | y :: rest =>
      if PyStr.key_leb (key x) (key y) then x :: y :: rest
      else y :: insert_by_key key x rest
  end.

Fixpoint sort_by_key {A} (key : A -> list N) (xs : list A) : list A :=
  match xs with
  | [] => []
  | x :: rest => insert_by_key key x (sort_by_key key rest)
  end.

(** [for x in xs: acc = f(acc, x)] *)
Fixpoint foldM {A B} (f : B -> A -> M B) (xs : list A) (acc : B) : M B :=
  match xs with
  | [] => ret acc
  | x :: xs' => acc' <- f acc x ;; foldM f xs' acc'
  end.

(** [[x for x in xs if p(x)]] *)
Fixpoint filterM {A} (p : A -> M bool) (xs : list A) : M (list A) :=
  match xs with
  | [] => ret []
  | x :: xs' =>
      keep <- p x ;;
      rest <- filterM p xs' ;;
      ret (if keep then x :: rest else rest)
  end.

(** The body of the loop of [iter_children]. *)
Definition classify_child (acc : list path * list path) (child : path)
  : M (list path * list path) :=
  let '(folders, notes) := acc in
  let name := Path.name child in
  if String.eqb name CONFIG_FILE_NAME then ret acc
  else
    link <- is_symlink child ;;
    if link then ret acc
    else
      d <- is_dir child ;;
      if d then
        if should_exclude_dir name then ret acc
        else ret ((folders ++ [child])%list, notes)
      else
        f <- is_file child ;;
        if f && String.eqb (PyStr.lower (Path.suffix child)) NOTE_SUFFIX
        then ret (folders, (notes ++ [child])%list)
        else ret acc.

Definition name_key (p : path) : list N := PyStr.casefold (Path.name p).

Definition iter_children (dir_path : path) : M (list path * list path) :=
  children <- iterdir dir_path ;;
  ' (folders, notes) <- foldM classify_child children ([], []) ;;
  ret (sort_by_key name_key folders, sort_by_key name_key notes).

(** ** Attachment inference *)

(** The loop over [ATTACHMENT_ROOT_CANDIDATES]. *)
Fixpoint infer_from_roots (assets_root : path) (root_names : list string) : M string :=
  match root_names with
  | [] => ret ""
  | root_name :: rest =>
      let root := Path.join assets_root root_name in
      d <- is_dir root ;;
      if negb d then infer_from_roots assets_root rest
      else
        children <- iterdir root ;;
        dirs <- filterM is_dir children ;;
        let subdirs := sort_by_key PyStr.casefold (map Path.name dirs) in
        match subdirs with
        | [only] => ret only
        | _ => infer_from_roots assets_root rest
        end
  end.

Definition infer_attachment_folder_from_assets (note_path : path) : M string :=
  let assets_root :=
    Path.join (Path.parent note_path) (Path.stem note_path ++ "_assets") in
  d <- is_dir assets_root ;;
  if negb d then ret ""
  else infer_from_roots assets_root ATTACHMENT_ROOT_CANDIDATES.

(** ** Reconciler *)

(** [parse_signature_like(value) or generate_signature(rng)] *)
Definition signature_or_fresh (fuel : nat) (value : json) : M string :=
  match parse_signature_like value with
  | Some s => if PyStr.is_empty s then generate_signature fuel else ret s
  | None => generate_signature fuel
  end.

Definition build_file_entry (fuel : nat) (note_path : path) (existing : dict json)
  : M (dict json) :=
  mtime <- safe_mtime note_path ;;
  let id := or_else (parse_id_like (Dict.get "id" existing)) "0" in
  signature <- signature_or_fresh fuel (Dict.get "signature" existing) ;;
  created_time <- get_existing_time existing "created_time" mtime ;;
  modified_time <- iso_utc_from_timestamp mtime ;;
  let entry :=
    [ ("name", JStr (Path.name note_path));
      ("id", JStr id);
      ("signature", JStr signature);
      ("created_time", JStr created_time);
      ("modified_time", JStr modified_time);
      ("tags", JList (map JStr (clean_tags (Dict.get "tags" existing)))) ] in
  let attachment_folder :=
    match Dict.get "attachment_folder" existing with
    | JStr s => s
    | _ => ""
    end in
  attachment_folder <-
    (if PyStr.is_empty attachment_folder
     then infer_attachment_folder_from_assets note_path
     else ret attachment_folder) ;;
  let entry := Dict.set "attachment_folder" (JStr attachment_folder) entry in
  ret (copy_visual_keys existing entry).

(** [version = existing.get("version")], kept when
    [isinstance(version, int)]. *)
Definition carried_version (existing : dict json) : json :=
  match Dict.get "version" existing with
  | JInt z => JInt z
  | JBool b => JBool b
  | _ => JInt DEFAULT_CONFIG_VERSION
  end.

Definition build_node_config (fuel : nat) (dir_path : path)
    (folder_paths note_paths : list path) (existing : dict json)
  : M (dict json) :=
  mtime <- safe_mtime dir_path ;;
  let existing_files := map_entries_by_name (Dict.get "files" existing) in
  let existing_folders := map_entries_by_name (Dict.get "folders" existing) in
  let folder_entries :=
    map (fun folder =>
           build_folder_entry (Path.name folder)
             (Dict.get_default (Path.name folder) [] existing_folders))
        folder_paths in
  file_entries <-
    mapM (fun note =>
            build_file_entry fuel note
              (Dict.get_default (Path.name note) [] existing_files))
         note_paths ;;
  let version := carried_version existing in
  let id := or_else (parse_id_like (Dict.get "id" existing)) "0" in
  signature <- signature_or_fresh fuel (Dict.get "signature" existing) ;;
  created_time <- get_existing_time existing "created_time" mtime ;;
  modified_time <- iso_utc_from_timestamp mtime ;;
  let config :=
    [ ("version", version);
      ("id", JStr id);
      ("signature", JStr signature);
      ("created_time", JStr created_time);
      ("modified_time", JStr modified_time);
      ("files", JList (map JDict file_entries));
      ("folders", JList (map JDict folder_entries)) ] in
  ret (copy_visual_keys existing config).

(** ** Loader, writer and the recursive walk

    [json.loads] and [json.dumps] belong to the standard library and are
    taken as given; [root_text] is the text of the resolved notebook
    root, without a trailing separator. *)

Section Walk.

Variable json_loads : string -> option json.
Variable json_dumps : json -> string.
Variable root_text : string.

Definition catch_all (e : exn) : bool := true.

Definition loads (text : string) : M json :=
  match json_loads text with
  | Some data => ret data
  | None => raise ValueError
  end.

Definition load_existing_config (p : path) : M (dict json) :=
  f <- is_file p ;;
  if negb f then ret []
  else
    data <- try_except
              (text <- read_text p ;; data <- loads text ;; ret (Some data))
              catch_all
              (ret None) ;;
    match data with
    | Some (JDict fields) => ret fields
    | _ => ret []
    end.

Definition write_json (p : path) (data : dict json) : M unit :=
  let text := json_dumps (JDict data) in
  write_text p (text ++ String (ascii_of_nat 10) "").

(** [str(p)] *)
Definition path_str (p : path) : string :=
  root_text ++ String.concat "" (map (fun c => "/" ++ c) p).

Definition str_nat (n : nat) : string := PyStr.str_int (Z.of_nat n).

Definition report_line (dir_path : path) (folders notes : list path) : string :=
  path_str (Path.join dir_path CONFIG_FILE_NAME)
  ++ "  folders=" ++ str_nat (List.length folders)
  ++ " md=" ++ str_nat (List.length notes).

(** [depth] bounds the nesting of the recursion, [fuel] the draws of one
    call of [generate_signature]. *)
Fixpoint rebuild_recursively (fuel depth : nat) (dir_path : path)
    (dry_run verbose : bool) : M (nat * nat * nat) :=
  match depth with
  | O => fun _ => OutOfFuel
  | S depth' =>
      existing <- load_existing_config (Path.join dir_path CONFIG_FILE_NAME) ;;
      ' (folders, notes) <- iter_children dir_path ;;
      config <- build_node_config fuel dir_path folders notes existing ;;
      (if verbose || dry_run
       then print (report_line dir_path folders notes)
       else ret tt) ;;;
      (if negb dry_run
       then write_json (Path.join dir_path CONFIG_FILE_NAME) config
       else ret tt) ;;;
      foldM
        (fun totals folder =>
           let '(total_configs, total_folders, total_notes) := totals in
           ' (sub_configs, sub_folders, sub_notes) <-
             rebuild_recursively fuel depth' folder dry_run verbose ;;
           ret (total_configs + sub_configs,
                total_folders + sub_folders,
                total_notes + sub_notes)%nat)
        folders
        (1%nat, List.length folders, List.length notes)
  end.

(** [main], with the parsed arguments as parameters; the notebook root
    is the root of the world's file system and the result is the exit
    status. *)
Definition main (fuel depth : nat) (dry_run verbose : bool) : M Z :=
  let root : path := [] in
  d <- is_dir root ;;
  if negb d
  then raise (SystemExit ("notebook root is not a directory: " ++ path_str root))
  else
    ' (configs, folders, notes) <-
      rebuild_recursively fuel depth root dry_run verbose ;;
    let mode := if dry_run then "Dry-run" else "Rebuilt" in
    print (mode ++ " vx.json count: " ++ str_nat configs) ;;;
    print ("Scanned folder count: " ++ str_nat folders) ;;;
    print ("Scanned markdown count: " ++ str_nat notes) ;;;
    ret 0.

End Walk.

(** * Vocabulary of the statements

    Nothing below is part of the script: these are the notions the
    properties are stated with.  [json_loads], [json_dumps] and
    [root_text] are taken as given, as in [Walk]. *)

Local Open Scope list_scope.

Section Vocabulary.

Variable json_loads : string -> option json.
Variable json_dumps : json -> string.
Variable root_text : string.

Local Abbreviation report := (report_line root_text).

(** Characters below U+0080. *)
Definition is_ascii_char (c : ascii) : bool := (PyStr.code c <? 128)%N.
Definition is_ascii (s : string) : bool := PyStr.forallb_str is_ascii_char s.

(** A non-empty string of the digits 0 to 9. *)
Definition decimal_digits (s : string) : Prop :=
  PyStr.is_empty s = false /\ PyStr.forallb_str PyStr.is_ascii_digit s = true.

Definition file_entry_base (note_path : path) (existing : dict json)
    (signature created_time modified_time : string) : dict json :=
  [ ("name", JStr (Path.name note_path));
    ("id", JStr (or_else (parse_id_like (Dict.get "id" existing)) "0"));
    ("signature", JStr signature);
    ("created_time", JStr created_time);
    ("modified_time", JStr modified_time);
    ("tags", JList (map JStr (clean_tags (Dict.get "tags" existing)))) ].

(** The attachment folder recorded by the previous sidecar, [""] when it
    is missing, empty or not a string. *)
Definition recorded_attachment (existing : dict json) : string :=
  match Dict.get "attachment_folder" existing with
  | JStr s => s
  | _ => ""
  end.

Definition node_config_base (existing : dict json)
    (signature created_time modified_time : string)
    (file_entries folder_entries : list (dict json)) : dict json :=
  [ ("version", carried_version existing);
    ("id", JStr (or_else (parse_id_like (Dict.get "id" existing)) "0"));
    ("signature", JStr signature);
    ("created_time", JStr created_time);
    ("modified_time", JStr modified_time);
    ("files", JList (map JDict file_entries));
    ("folders", JList (map JDict folder_entries)) ].

(** The entry of [name] in the list under [key] of the previous sidecar,
    as the builders look it up. *)
Definition existing_entry (key : string) (existing : dict json) (name : string)
  : dict json :=
  Dict.get_default name [] (map_entries_by_name (Dict.get key existing)).

(** The validity of a raw id in the words of the specification: a
    non-negative integer or a string of only decimal digits. *)
Definition spec_valid_id (value : json) : Prop :=
  match value with
  | JInt z => 0 <= z
  | JStr s => decimal_digits s
  | _ => False
  end.

(** Raw values the amended statement speaks about: anything but a
    boolean, strings being ASCII. *)
Definition plain_raw_value (value : json) : Prop :=
  match value with
  | JBool _ => False
  | JStr s => is_ascii s = true
  | _ => True
  end.

(** [w'] is [w] after some draws and some clock readings. *)
Definition advanced (w w' : world) : Prop :=
  fs w' = fs w /\ log w' = log w /\
  (exists j, forall n, rng w' n = rng w (j + n)%nat) /\
  (exists j, forall n, clock w' n = clock w (j + n)%nat).

(** An action is quiet when every way it ends, normally or by an
    exception, leaves a world [advanced] from the one it started in. *)
Definition quiet {A} (m : M A) : Prop :=
  forall w,
    match m w with
    | Ret _ w' => advanced w w'
    | Raise _ w' => advanced w w'
    | OutOfFuel => True
    end.

(** A freshly generated signature of the world [w]: the decimal rendering
    of a strictly positive 63-bit value drawn from its random source. *)
Definition fresh_signature (w : world) (s : string) : Prop :=
  exists k v,
    v = rng w k mod 2 ^ 63 /\ 0 < v < 2 ^ 63 /\ s = PyStr.str_int v.

(** What the loop of [iter_children] keeps as a folder, as a note. *)
Definition keeps_folder (n : node) (child : path) : bool :=
  negb (String.eqb (Path.name child) CONFIG_FILE_NAME)
  && negb (FS.is_symlink n child)
  && FS.is_dir n child
  && negb (should_exclude_dir (Path.name child)).

Definition keeps_note (n : node) (child : path) : bool :=
  negb (String.eqb (Path.name child) CONFIG_FILE_NAME)
  && negb (FS.is_symlink n child)
  && negb (FS.is_dir n child)
  && FS.is_file n child
  && String.eqb (PyStr.lower (Path.suffix child)) NOTE_SUFFIX.

(** The paths [iterdir] yields for [dir]. *)
Definition children_of (n : node) (dir : path) : option (list path) :=
  match FS.entries_of n dir with
  | Some entries => Some (map (fun e => (dir ++ [fst e])%list) entries)
  | None => None
  end.

(** The order of the sort: keys compare as Python strings do. *)
Definition key_le {A} (key : A -> list N) (x y : A) : Prop :=
  PyStr.key_leb (key x) (key y) = true.

Definition entry_name (item : json) : string :=
  match item with
  | JDict fields =>
      match Dict.get "name" fields with
      | JStr name => name
      | _ => ""
      end
  | _ => ""
  end.

(** The names under [key] ("files" or "folders") of a config, in order. *)
Definition names_under (key : string) (config : dict json) : list string :=
  match Dict.get key config with
  | JList items => map entry_name items
  | _ => []
  end.

Definition not_plus (c : ascii) : bool := negb (Ascii.eqb "+" c).

(** Date and time of a [datetime], to the second, in ISO 8601. *)
Definition date_time_text (dt : PyTime.datetime) : string :=
  (PyTime.zfill 4 (PyTime.year dt) ++ "-" ++ PyTime.zfill 2 (PyTime.month dt)
   ++ "-" ++ PyTime.zfill 2 (PyTime.day dt) ++ "T"
   ++ PyTime.zfill 2 (PyTime.hour dt) ++ ":" ++ PyTime.zfill 2 (PyTime.minute dt)
   ++ ":" ++ PyTime.zfill 2 (PyTime.second dt))%string.

(** The UTC [datetime] of the whole second [t] of POSIX time. *)
Definition utc_of_second (t : Z) : PyTime.datetime :=
  let sod := t mod 86400 in
  let '(y, m, d) := PyTime.civil_from_days (t / 86400) in
  PyTime.mkDatetime y m d (sod / 3600) (sod mod 3600 / 60) (sod mod 60) 0.

(** The years [datetime] can hold. *)
Definition representable (t : Z) : Prop :=
  1 <= PyTime.year (utc_of_second t) <= 9999.

(** The time [safe_mtime] settles on: the modification time when [stat]
    yields one, the next clock reading otherwise. *)
Definition observed_mtime (w : world) (p : path) : Z :=
  match FS.mtime_of (fs w) p with
  | Some t => t
  | None => clock w O
  end.

(** The text written for a timestamp: date and time of its second in
    UTC, then ["Z"]. *)
Definition stamp_of (ts : Z) : string :=
  (date_time_text (utc_of_second (ts / 1000000)) ++ "Z")%string.

(** The [created_time] the policy prescribes. *)
Definition kept_or (existing : dict json) (stamp : string) : string :=
  match nonempty_str (Dict.get "created_time" existing) with
  | Some value => value
  | None => stamp
  end.

(** The names of the sub-directories of the directory at [p], in
    directory order; [None] when [p] is not a directory. *)
Definition subdirs_of (n : node) (p : path) : option (list string) :=
  match children_of n p with
  | Some children => Some (map Path.name (filter (FS.is_dir n) children))
  | None => None
  end.

(** The sibling assets directory of a note. *)
Definition assets_root_of (note : path) : path :=
  Path.join (Path.parent note) (Path.stem note ++ "_assets")%string.

(** What the loop over the candidate roots settles on. *)
Fixpoint inferred_from (n : node) (assets : path) (roots : list string) : string :=
  match roots with
  | [] => ""
  | root :: rest =>
      match subdirs_of n (Path.join assets root) with
      | Some [only] => only
      | _ => inferred_from n assets rest
      end
  end.

Definition inferred_folder (n : node) (note : path) : string :=
  if FS.is_dir n (assets_root_of note)
  then inferred_from n (assets_root_of note) ATTACHMENT_ROOT_CANDIDATES
  else "".

(** The entry that [item] offers for [name]: its fields, when it is a
    dictionary whose ["name"] is that non-empty string. *)
Definition named (name : string) (item : json) : option (dict json) :=
  match item with
  | JDict fields =>
      match Dict.get "name" fields with
      | JStr n =>
          if negb (PyStr.is_empty n) && String.eqb n name then Some fields else None
      | _ => None
      end
  | _ => None
  end.

(** The first entry for [name] in a list of items. *)
Fixpoint first_named (name : string) (items : list json) : option (dict json) :=
  match items with
  | [] => None
  | item :: rest =>
      match named name item with
      | Some fields => Some fields
      | None => first_named name rest
      end
  end.

(** What the loader makes of the object at [p]. *)
Definition loaded (n : node) (p : path) : dict json :=
  match FS.resolve n p with
  | Some (File _ (Some text)) =>
      match json_loads text with
      | Some (JDict fields) => fields
      | _ => []
      end
  | _ => []
  end.

(** The events logged between two worlds all satisfy [P]. *)
Definition logs (P : event -> Prop) (w w' : world) : Prop :=
  exists events, log w' = log w ++ events /\ Forall P events.

(** The text [write_json] writes for a config. *)
Definition sidecar_text (config : dict json) : string :=
  (json_dumps (JDict config) ++ String (ascii_of_nat 10) "")%string.

(** A directory name the rules exclude, in the words of the
    specification. *)
Definition excluded_name (name : string) : Prop :=
  PyStr.startswith name "." = true \/
  PyStr.endswith (PyStr.lower name) "_assets" = true \/
  In (PyStr.lower name) BUILT_IN_DIR_NAMES.

(** A name the walk may descend into. *)
Definition included_name (name : string) : Prop :=
  ~ excluded_name name /\ name <> CONFIG_FILE_NAME.

(** What the walk below [dir] may log: a sidecar written, or a report
    printed, for [dir] or a directory reached from it through included
    names only; a written sidecar lists included folders only. *)
Definition visit_event (dir : path) (e : event) : Prop :=
  match e with
  | Wrote file text =>
      exists sub config,
        file = dir ++ sub ++ [CONFIG_FILE_NAME] /\
        Forall included_name sub /\
        text = sidecar_text config /\
        Forall included_name (names_under "folders" config)
  | Printed line =>
      exists sub folders notes,
        line = report (dir ++ sub) folders notes /\
        Forall included_name sub
  end.

(** A visited directory with the folders and notes scanned in it. *)
Definition visit : Type := path * list path * list path.

(** The directories a walk of nesting at most [depth] visits in the
    tree [n] from [dir], parents first. *)
Fixpoint visits (depth : nat) (n : node) (dir : path) : list visit :=
  match depth with
  | O => []
  | S depth' =>
      match children_of n dir with
      | None => []
      | Some children =>
          let folders := sort_by_key name_key (filter (keeps_folder n) children) in
          let notes := sort_by_key name_key (filter (keeps_note n) children) in
          (dir, folders, notes) :: flat_map (visits depth' n) folders
      end
  end.

Definition add_totals (a b : nat * nat * nat) : nat * nat * nat :=
  let '(a1, a2, a3) := a in
  let '(b1, b2, b3) := b in
  (a1 + b1, a2 + b2, a3 + b3)%nat.

(** Visited directories, folders and notes counted over a list of
    visits. *)
Fixpoint totals (vs : list visit) : nat * nat * nat :=
  match vs with
  | [] => (O, O, O)
  | (_, folders, notes) :: rest =>
      add_totals (1%nat, List.length folders, List.length notes) (totals rest)
  end.

Definition report_of (v : visit) : event :=
  let '(dir, folders, notes) := v in Printed (report dir folders notes).

(** The reconciler ran for a visit, in a world with the file system [n]. *)
Definition reconciled (fuel : nat) (n : node) (v : visit) : Prop :=
  let '(dir, folders, notes) := v in
  exists w1 config w2,
    fs w1 = n /\
    build_node_config fuel dir folders notes
      (loaded n (Path.join dir CONFIG_FILE_NAME)) w1 = Ret config w2.

(** What a dry run does to the world: the file system stays, the log
    gains the reports of the visits, and the reconciler ran for each. *)
Definition dry_walked (fuel : nat) (vs : list visit) (w w' : world) : Prop :=
  fs w' = fs w /\
  log w' = log w ++ map report_of vs /\
  Forall (reconciled fuel (fs w)) vs.

(** A notebook that is one empty directory with a sidecar, whose text
    decodes to an object with the id [true]. *)
Definition boolean_id_text : string := "previous sidecar".

Definition boolean_id_sidecar : dict json := [("id", JBool true)].

Definition boolean_id_world : world :=
  mkWorld (Dir (Some 0) [("vx.json", File (Some 0) (Some boolean_id_text))])
          (fun _ => 7) (fun _ => 0) [].

(** The config the first run writes there, and the one the second run
    writes over it. *)
Definition boolean_id_first_config : dict json :=
  [ ("version", JInt 3); ("id", JStr "True"); ("signature", JStr "7");
    ("created_time", JStr "1970-01-01T00:00:00Z");
    ("modified_time", JStr "1970-01-01T00:00:00Z");
    ("files", JList []); ("folders", JList []) ].

Definition boolean_id_second_config : dict json :=
  [ ("version", JInt 3); ("id", JStr "0"); ("signature", JStr "7");
    ("created_time", JStr "1970-01-01T00:00:00Z");
    ("modified_time", JStr "1970-01-01T00:00:00Z");
    ("files", JList []); ("folders", JList []) ].

(** Anything decoded from JSON but [true] and [false]. *)
Definition not_boolean (value : json) : Prop :=
  match value with
  | JBool _ => False
  | _ => True
  end.

(** The attachment folder of a rebuilt entry: the recorded one, or the
    inferred one when none is recorded. *)
Definition chosen_attachment (existing : dict json) (inferred : string) : string :=
  if PyStr.is_empty (recorded_attachment existing)
  then inferred
  else recorded_attachment existing.

(** A file entry as [build_file_entry] assembles it. *)
Definition file_entry_of (note_path : path) (existing : dict json)
    (signature created_time modified_time folder : string) : dict json :=
  copy_visual_keys existing
    (Dict.set "attachment_folder" (JStr folder)
       (file_entry_base note_path existing signature created_time modified_time)).

(** The folder entries [build_node_config] makes for the scanned
    folders. *)
Definition folder_entries_of (existing : dict json) (folders : list path)
  : list (dict json) :=
  map (fun folder =>
         build_folder_entry (Path.name folder)
           (existing_entry "folders" existing (Path.name folder)))
      folders.

(** A node config as [build_node_config] assembles it. *)
Definition node_config_of (existing : dict json)
    (signature created_time modified_time : string)
    (file_entries : list (dict json)) (folders : list path) : dict json :=
  copy_visual_keys existing
    (node_config_base existing signature created_time modified_time file_entries
       (folder_entries_of existing folders)).

(** [e2] repeats [e1]: they are the entry of one note built over the
    same previous entry, with the same signature, creation time and
    attachment folder, each with the modification time read in a world
    with the file system [n1], respectively [n2]. *)
Definition repeats_entry (n1 n2 : node) (e1 e2 : dict json) : Prop :=
  exists note previous sg cr af wa wb,
    fs wa = n1 /\ fs wb = n2 /\
    e1 = file_entry_of note previous sg cr (stamp_of (observed_mtime wa note)) af /\
    e2 = file_entry_of note previous sg cr (stamp_of (observed_mtime wb note)) af.

End Vocabulary.

(** ** A sample notebook *)

Module Sample.

Definition note (mtime : Z) : node := File (Some mtime) (Some "text").

(** The root holds one sub-folder and two notes, next to children the
    scanner must skip; [foo.md] has one attachment folder. *)
Definition tree : node :=
  Dir (Some 1700000000000000)
    [ ("foo.md", note 1700000001000000);
      ("sub",
       Dir (Some 1700000002000000)
         [ ("B.md", note 1700000003000000);
           ("a.md", note 1700000004000000);
           ("C.md", note 1700000005999999) ]);
      ("Bar.MD", File None (Some "text"));
      ("foo_assets",
       Dir (Some 1)
         [ ("vx_attachments", Dir (Some 1) [("img1", Dir (Some 1) [])]) ]);
      (".git", Dir (Some 1) []);
      ("Notes_Assets", Dir (Some 1) []);
      ("vx_recycle_bin", Dir (Some 1) []);
      ("linked", Symlink (Some (Dir (Some 1) [])));
      ("readme.txt", note 1);
      ("vx.json", File (Some 1) (Some "previous sidecar")) ].

Definition previous : dict json :=
  [ ("version", JBool true);
    ("id", JStr " 12 ");
    ("signature", JStr "0");
    ("created_time", JStr "2020-01-01T00:00:00Z");
    ("files",
     JList [ JDict [("name", JStr "foo.md"); ("id", JInt 42);
                    ("tags", JList [JStr "x"; JStr ""; JInt 3])];
             JDict [("name", JStr "foo.md"); ("id", JInt 43)] ]) ].

Definition json_loads (text : string) : option json :=
  if String.eqb text "previous sidecar" then Some (JDict previous) else None.

Definition json_dumps (data : json) : string := "data".

(** The first draw is zero, the following ones are not. *)
Definition start : world :=
  mkWorld tree (fun n => Z.of_nat n) (fun n => 1700000009000000) [].

End Sample.

(** A decoder for the scenario of the boolean id: it knows the previous
    sidecar and the text [Sample.json_dumps] makes of any config. *)
Definition boolean_id_loads (text : string) : option json :=
  if String.eqb text boolean_id_text then Some (JDict boolean_id_sidecar)
  else if String.eqb text (sidecar_text Sample.json_dumps [])
       then Some (JDict boolean_id_first_config)
       else None.

(** * Further vocabulary

    The notions of the properties proved beyond the numbered claims.  As
    above, nothing here is part of the script. *)

(** ** Draws *)

(** The [k]-th value [getrandbits(63)] is going to return. *)
Definition draw (w : world) (k : nat) : Z := rng w k mod 2 ^ 63.

(** The world once [k] draws have been made. *)
Definition after_draws (k : nat) (w : world) : world :=
  mkWorld (fs w) (fun n => rng w (k + n)%nat) (clock w) (log w).

(** ** Entries *)

(** The colours a builder copies from the previous entry: those of
    [NODE_VISUAL_KEYS] that are non-empty strings there, in that
    order. *)
Definition visual_fields (existing : dict json) : dict json :=
  flat_map
    (fun key =>
       match nonempty_str (Dict.get key existing) with
       | Some value => [(key, JStr value)]
       | None => []
       end)
    NODE_VISUAL_KEYS.

(** An item the index of previous entries can use: an object whose
    ["name"] is a non-empty string. *)
Definition valid_item (item : json) : bool :=
  match item with
  | JDict fields =>
      match Dict.get "name" fields with
      | JStr name => negb (PyStr.is_empty name)
      | _ => false
      end
  | _ => false
  end.

(** ** The form of a timestamp *)

(** [s] has the form of [pattern]: a ["d"] of the pattern stands for one
    decimal digit, any other character for itself. *)
Fixpoint has_form (pattern s : string) : bool :=
  match pattern, s with
  | EmptyString, EmptyString => true
  | String p pattern', String c s' =>
      (if Ascii.eqb p "d" then PyStr.is_ascii_digit c else Ascii.eqb p c)
      && has_form pattern' s'
  | _, _ => false
  end.

Definition STAMP_FORM : string := "dddd-dd-ddTdd:dd:ddZ".

(** ** The tree but for its sidecars *)

Definition not_config (name : string) : bool :=
  negb (String.eqb name CONFIG_FILE_NAME).

(** What the scanner can tell of an object once links are followed: a
    regular file, a directory with the names of its entries other than
    [vx.json], something special, or a link that leads nowhere. *)
Inductive kind : Type :=
| KFile
| KDir (names : list string)
| KSpecial
| KDangling.

Definition kind_of (n : node) : kind :=
  match FS.deref n with
  | Some (File _ _) => KFile
  | Some (Dir _ entries) => KDir (filter not_config (map fst entries))
  | Some Special => KSpecial
  | _ => KDangling
  end.

Definition is_link (n : node) : bool :=
  match n with Symlink _ => true | _ => false end.

(** What [lstat] and [stat] tell of the object at a path, times and
    contents apart. *)
Definition outline (x : option node) : option (bool * kind) :=
  option_map (fun n => (is_link n, kind_of n)) x.

(** Two trees that differ at most in their sidecars, in times and in
    the contents of files. *)
Definition same_outline (n n' : node) : Prop :=
  forall q, Path.name q <> CONFIG_FILE_NAME ->
    outline (FS.lookup n' q) = outline (FS.lookup n q).

(** The folders and notes [iter_children] returns for [dir], if it
    returns. *)
Definition scan (n : node) (dir : path) : option (list path * list path) :=
  match children_of n dir with
  | Some children =>
      Some (sort_by_key name_key (filter (keeps_folder n) children),
            sort_by_key name_key (filter (keeps_note n) children))
  | None => None
  end.

(** ** The events of a run *)

(** The files written, in order. *)
Definition written_files (events : list event) : list path :=
  flat_map (fun e => match e with Wrote file _ => [file] | Printed _ => [] end) events.

(** The lines printed, in order. *)
Definition printed_lines (events : list event) : list string :=
  flat_map (fun e => match e with Printed line => [line] | Wrote _ _ => [] end) events.

(** The sidecar of a visited directory. *)
Definition sidecar_of (v : visit) : path :=
  let '(dir, _, _) := v in Path.join dir CONFIG_FILE_NAME.

Section FurtherVocabulary.

Variable root_text : string.

(** The line reported for a visit. *)
Definition report_text (v : visit) : string :=
  let '(dir, folders, notes) := v in report_line root_text dir folders notes.

(** What a run that writes does to the world over the visits [vs]: the
    tree keeps its outline and its regular files, every visited
    directory has a sidecar, and the log gains one write per visit and,
    when [verbose] is set, one report per visit. *)
Definition real_walked (verbose : bool) (vs : list visit) (w w' : world) : Prop :=
  same_outline (fs w) (fs w') /\
  (forall q, FS.is_file (fs w) q = true -> FS.is_file (fs w') q = true) /\
  Forall (fun v => FS.is_file (fs w') (sidecar_of v) = true) vs /\
  exists events,
    log w' = log w ++ events /\
    written_files events = map sidecar_of vs /\
    printed_lines events = if verbose then map report_text vs else [].

End FurtherVocabulary.

(** The three lines [main] prints last. *)
Definition summary_lines (dry_run : bool) (r : nat * nat * nat) : list event :=
  let '(configs, folders, notes) := r in
  [ Printed ((if dry_run then "Dry-run" else "Rebuilt") ++ " vx.json count: "
             ++ str_nat configs)%string;
    Printed ("Scanned folder count: " ++ str_nat folders)%string;
    Printed ("Scanned markdown count: " ++ str_nat notes)%string ].

(** ** Sound notebooks *)

(** From every point on, the random source yields a strictly positive
    draw within [fuel] draws. *)
Definition rng_ok (fuel : nat) (w : world) : Prop :=
  forall j, exists k, (k < fuel)%nat /\ 0 < rng w (j + k) mod 2 ^ 63.

(** Every reading of the clock lies in the years [datetime] can hold. *)
Definition clock_ok (w : world) : Prop :=
  forall k, representable (clock w k / 1000000).

(** So does every modification time recorded in the tree. *)
Definition mtimes_ok (n : node) : Prop :=
  forall q t, FS.mtime_of n q = Some t -> representable (t / 1000000).

(** What the builders need of the world. *)
Definition sound (fuel : nat) (w : world) : Prop :=
  rng_ok fuel w /\ clock_ok w /\ mtimes_ok (fs w).

(** No directory lies [depth] or more levels below [dir]. *)
Definition nested_within (depth : nat) (n : node) (dir : path) : Prop :=
  forall sub, FS.is_dir n (dir ++ sub) = true -> (List.length sub < depth)%nat.

(** [dir] and the directories above it are directories and not links. *)
Definition plain_dirs (n : node) (dir : path) : Prop :=
  forall q rest, dir = q ++ rest -> FS.is_symlink n q = false /\ FS.is_dir n q = true.

(** An object that [write_text] can create or replace: anything but a
    directory or a special file. *)
Definition writable (x : option node) : Prop :=
  match x with
  | Some (Dir _ _) | Some Special => False
  | _ => True
  end.

(** No [vx.json] of the tree stands in the way of a write. *)
Definition sidecars_writable (n : node) : Prop :=
  forall q, writable (FS.resolve n (Path.join q CONFIG_FILE_NAME)).

(** The draws and the clock readings of [w'] are those of [w] from some
    point on. *)
Definition later (w w' : world) : Prop :=
  (exists j, forall n, rng w' n = rng w (j + n)%nat) /\
  (exists j, forall n, clock w' n = clock w (j + n)%nat).

(** [w'] is [w] after part of a walk: time has passed, sidecars may have
    been written and stamped with the clock. *)
Definition walked_on (w w' : world) : Prop :=
  later w w' /\
  same_outline (fs w) (fs w') /\
  (forall q, FS.is_dir (fs w') q = true -> FS.is_dir (fs w) q = true) /\
  (forall q t, FS.mtime_of (fs w') q = Some t ->
     FS.mtime_of (fs w) q = Some t \/ exists k, t = clock w k) /\
  (sidecars_writable (fs w) -> sidecars_writable (fs w')).

(** A notebook on which the walk from [dir] returns: the world is sound,
    [dir] is a directory with no [vx.json] among its components and
    nothing nested [depth] levels below it, and, unless the run is dry,
    [dir] is reached through plain directories and every sidecar can be
    written. *)
Definition ready (fuel depth : nat) (dry_run : bool) (w : world) (dir : path) : Prop :=
  sound fuel w /\
  nested_within depth (fs w) dir /\
  ~ In CONFIG_FILE_NAME dir /\
  FS.is_dir (fs w) dir = true /\
  (dry_run = false -> plain_dirs (fs w) dir /\ sidecars_writable (fs w)).

(** ** A note from the far future *)

(** A notebook with one note stamped far beyond the year 9999. *)
Definition far_future_world : world :=
  mkWorld (Dir (Some 0) [("a.md", File (Some 1000000000000000000) (Some "text"))])
          (fun _ => 7) (fun _ => 0) [].

(** ** Ties in the sort *)

(** Two paths whose names have the same case-folded form. *)
Definition same_fold (p q : path) : bool :=
  PyStr.key_leb (name_key p) (name_key q) && PyStr.key_leb (name_key q) (name_key p).

(** ** Two runs in a row *)

(** [q] is the sidecar of [dir] or of something below it. *)
Definition under (dir q : path) : Prop :=
  exists sub, q = dir ++ sub ++ [CONFIG_FILE_NAME].

(** The names listed at [q], if it is a directory. *)
Definition names_at (n : node) (q : path) : option (list string) :=
  option_map (map fst) (FS.entries_of n q).

(** Two trees the walk and the attachment inference cannot tell apart:
    they differ at most in their sidecars, in times and in the contents
    of files. *)
Definition akin (n n' : node) : Prop :=
  same_outline n n' /\
  (forall q, FS.is_dir n' q = FS.is_dir n q) /\
  (forall q, subdirs_of n' q = subdirs_of n q).

(** A visit whose folders are pairwise distinct. *)
Definition distinct (v : visit) : Prop :=
  let '(_, folders, _) := v in NoDup folders.

(** The sidecars that are not below [dir] are in [w'] what they are in
    [w]. *)
Definition sidecars_kept (dir : path) (w w' : world) : Prop :=
  forall q, Path.name q = CONFIG_FILE_NAME -> ~ under dir q ->
    FS.resolve (fs w') q = FS.resolve (fs w) q.

(** No directory of [n] lists a name twice, or the empty name. *)
Definition listed_once (n : node) : Prop :=
  forall q entries, FS.entries_of n q = Some entries ->
    NoDup (map fst entries) /\ ~ In "" (map fst entries).

(** Two objects with the same fields but for [modified_time]. *)
Definition same_but_mtime (a b : dict json) : Prop :=
  forall k, k <> "modified_time" -> Dict.get k b = Dict.get k a.

(** Two node configs with the same fields but for [modified_time], whose
    file entries are, one by one, the same but for [modified_time]. *)
Definition same_config_but_mtimes (c1 c2 : dict json) : Prop :=
  (forall k, k <> "modified_time" -> k <> "files" -> Dict.get k c2 = Dict.get k c1) /\
  exists entries1 entries2,
    Dict.get "files" c1 = JList (map JDict entries1) /\
    Dict.get "files" c2 = JList (map JDict entries2) /\
    Forall2 same_but_mtime entries1 entries2.

(** [q] does not lie on the way to the sidecar of any of the visits. *)
Definition off_the_sidecars (vs : list visit) (q : path) : Prop :=
  forall v rest, In v vs -> sidecar_of v <> q ++ rest.

Section RunsVocabulary.

Variable json_loads : string -> option json.
Variable json_dumps : json -> string.

(** In the run from [w] to [w'], the config [c] was built for the visit
    [v] from the sidecar [w] holds for it, and [w'] holds its dump. *)
Definition rebuilt (fuel : nat) (w w' : world) (v : visit) (c : dict json) : Prop :=
  let '(d, folders, notes) := v in
  exists wb wb',
    akin (fs w) (fs wb) /\
    build_node_config fuel d folders notes
      (loaded json_loads (fs w) (Path.join d CONFIG_FILE_NAME)) wb = Ret c wb' /\
    exists m,
      FS.resolve (fs w') (Path.join d CONFIG_FILE_NAME)
      = Some (File m (Some (sidecar_text json_dumps c))).

(** The sidecar the walk finds at the visit [v] of [n], and the entries
    it has for the notes of [v], have no boolean id and no boolean
    signature. *)
Definition no_boolean_marks (n : node) (v : visit) : Prop :=
  let '(d, _, notes) := v in
  let existing := loaded json_loads n (Path.join d CONFIG_FILE_NAME) in
  not_boolean (Dict.get "id" existing) /\
  not_boolean (Dict.get "signature" existing) /\
  forall note, In note notes ->
    let previous := existing_entry "files" existing (Path.name note) in
    not_boolean (Dict.get "id" previous) /\
    not_boolean (Dict.get "signature" previous).

(** The sidecar of the visit [v] holds in [n] the text of [config]. *)
Definition holds_config (n : node) (v : visit) (config : dict json) : Prop :=
  exists m,
    FS.resolve n (sidecar_of v) = Some (File m (Some (sidecar_text json_dumps config))).

(** The decoder reads [config] back from its text. *)
Definition reads_back (config : dict json) : Prop :=
  json_loads (sidecar_text json_dumps config) = Some (JDict config).

End RunsVocabulary.

(** ** A notebook with twin names *)

(** A notebook of three notes and no sidecar; the names of two of the
    notes differ in case only. *)
Definition twin_names_world : world :=
  mkWorld (Dir (Some 0) [("b.md", File (Some 0) (Some "text"));
                         ("B.md", File (Some 0) (Some "text"));
                         ("a.md", File (Some 0) (Some "text"))])
          (fun _ => 7) (fun _ => 0) [].

(** ** Notebooks without links *)

(** No path of the tree is a symbolic link.  On such a tree every object
    has one path, and a write changes what [write_text] changes; it is
    the hypothesis of the statements on what a run that writes leaves
    behind. *)
Definition link_free (n : node) : Prop :=
  forall q, FS.is_symlink n q = false.

(** The same, decided on the tree. *)
Fixpoint has_no_link (n : node) : bool :=
  match n with
  | File _ _ | Special => true
  | Dir _ entries => forallb (fun e => has_no_link (snd e)) entries
  | Symlink _ => false
  end.

(** A notebook without links: a note and a sub-folder of two notes, no
    sidecar yet. *)
Definition plain_notebook : world :=
  mkWorld (Dir (Some 0) [("foo.md", File (Some 0) (Some "text"));
                         ("sub", Dir (Some 0) [("B.md", File (Some 0) (Some "text"));
                                               ("a.md", File (Some 0) (Some "text"))])])
          (fun _ => 7) (fun _ => 0) [].

(** ** Two attachment roots *)

(** The assets of [foo.md] hold both recognised roots: the first with
    two sub-directories, the second with one. *)
Definition two_roots_world : world :=
  mkWorld (Dir (Some 0)
             [("foo.md", File (Some 0) (Some "text"));
              ("foo_assets",
               Dir (Some 0)
                 [("vx_attachments", Dir (Some 0) [("a", Dir (Some 0) []);
                                                   ("b", Dir (Some 0) [])]);
                  ("_v_attachments", Dir (Some 0) [("c", Dir (Some 0) [])])])])
          (fun _ => 7) (fun _ => 0) [].

(** In the words of the specification: several candidate
    sub-directories under a recognised root yield the empty string. *)
Definition spec_empty_on_several (n : node) (note : path) (folder : string) : Prop :=
  forall root names,
    In root ATTACHMENT_ROOT_CANDIDATES ->
    subdirs_of n (Path.join (assets_root_of note) root) = Some names ->
    (1 < List.length names)%nat ->
    folder = "".

(** * Properties *)

Local Open Scope string_scope.
Local Open Scope Z_scope.


(** ** The monad *)

Lemma bind_Ret {A B} (m : M A) (k : A -> M B) w b w' :
  bind m k w = Ret b w' <-> exists a w1, m w = Ret a w1 /\ k a w1 = Ret b w'.
Proof.
  unfold bind. split.
  - destruct (m w) as [a w1| |]; intros H; try discriminate. eauto.
  - intros (a & w1 & -> & H). exact H.
Qed.

Lemma ret_Ret {A} (a b : A) w w' : ret a w = Ret b w' <-> a = b /\ w = w'.
Proof.
  unfold ret. split.
  - intros H. injection H. auto.
  - intros [-> ->]. reflexivity.
Qed.

(** Splits a hypothesis [m w = Ret x w'] along the binds of [m]. *)
Ltac inv_ret H :=
  repeat match type of H with
  | bind _ _ _ = Ret _ _ =>
      let a := fresh "a" in
      let w1 := fresh "w" in
      let H1 := fresh "Hrun" in
      apply bind_Ret in H; destruct H as (a & w1 & H1 & H)
  | ret _ _ = Ret _ _ =>
      apply ret_Ret in H; destruct H as [? ?]; subst
  end.

(** ** Dictionaries *)

Lemma lookup_set_same {V} k (v : V) d : Dict.lookup k (Dict.set k v d) = Some v.
Proof.
  induction d as [|[k' v'] d IH]; simpl.
  - now rewrite String.eqb_refl.
  - destruct (String.eqb k' k) eqn:E; simpl.
    + now rewrite String.eqb_refl.
    + now rewrite E.
Qed.

Lemma lookup_set_other {V} k k' (v : V) d :
  k <> k' -> Dict.lookup k (Dict.set k' v d) = Dict.lookup k d.
Proof.
  intros Hne. induction d as [|[k0 v0] d IH]; simpl.
  - destruct (String.eqb k' k) eqn:E; [|reflexivity].
    apply String.eqb_eq in E. congruence.
  - destruct (String.eqb k0 k') eqn:E; simpl.
    + apply String.eqb_eq in E. subst k0.
      destruct (String.eqb k' k) eqn:E'; [|reflexivity].
      apply String.eqb_eq in E'. congruence.
    + now rewrite IH.
Qed.

Lemma get_set_other k k' v d : k <> k' -> Dict.get k (Dict.set k' v d) = Dict.get k d.
Proof. intros H. unfold Dict.get. now rewrite lookup_set_other. Qed.

Lemma get_set_same k v d : Dict.get k (Dict.set k v d) = v.
Proof. unfold Dict.get. now rewrite lookup_set_same. Qed.

(** The visual keys are the only ones the copying loop touches. *)
Lemma get_copy_visual_other k existing entry :
  ~ In k NODE_VISUAL_KEYS ->
  Dict.get k (copy_visual_keys existing entry) = Dict.get k entry.
Proof.
  unfold copy_visual_keys. revert entry.
  induction NODE_VISUAL_KEYS as [|key keys IH]; intros entry Hk; [reflexivity|].
  simpl. rewrite IH by (intros ?; apply Hk; now right).
  destruct (nonempty_str (Dict.get key existing)); [|reflexivity].
  apply get_set_other. intros ->. apply Hk. now left.
Qed.

Ltac not_visual :=
  let H := fresh in
  intros H; simpl in H; repeat (destruct H as [H|H]; [discriminate|]); exact H.

(** ** Strings *)

Lemma forallb_str_lstrip p s :
  PyStr.forallb_str p s = true -> PyStr.forallb_str p (PyStr.lstrip s) = true.
Proof.
  induction s as [|c s IH]; simpl; [easy|].
  intros H. apply andb_true_iff in H as [Hc Hs].
  destruct (PyStr.isspace_char c); [auto|]. simpl. now rewrite Hc, Hs.
Qed.

Lemma forallb_str_rstrip p s :
  PyStr.forallb_str p s = true -> PyStr.forallb_str p (PyStr.rstrip s) = true.
Proof.
  induction s as [|c s IH]; simpl; [easy|].
  intros H. apply andb_true_iff in H as [Hc Hs]. specialize (IH Hs).
  destruct (PyStr.rstrip s) as [|c' r].
  - destruct (PyStr.isspace_char c); simpl; [reflexivity|]. now rewrite Hc.
  - change (PyStr.forallb_str p (String c (String c' r)) = true).
    simpl in *. now rewrite Hc, IH.
Qed.

Lemma forallb_str_strip p s :
  PyStr.forallb_str p s = true -> PyStr.forallb_str p (PyStr.strip s) = true.
Proof. intros H. apply forallb_str_rstrip, forallb_str_lstrip, H. Qed.

Lemma forallb_str_impl (p q : ascii -> bool) s :
  (forall c, p c = true -> q c = true) ->
  PyStr.forallb_str p s = true -> PyStr.forallb_str q s = true.
Proof.
  intros Hpq. induction s as [|c s IH]; simpl; [easy|].
  intros H. apply andb_true_iff in H as [Hc Hs].
  now rewrite (Hpq _ Hc), IH.
Qed.

Lemma forallb_str_and (p q : ascii -> bool) s :
  PyStr.forallb_str p s = true -> PyStr.forallb_str q s = true ->
  PyStr.forallb_str (fun c => p c && q c) s = true.
Proof.
  induction s as [|c s IH]; simpl; [easy|].
  intros H1 H2. apply andb_true_iff in H1 as [-> H1].
  apply andb_true_iff in H2 as [-> H2]. simpl. auto.
Qed.

Lemma forallb_str_app p s t :
  PyStr.forallb_str p (s ++ t) = PyStr.forallb_str p s && PyStr.forallb_str p t.
Proof.
  induction s as [|c s IH]; simpl; [reflexivity|]. now rewrite IH, andb_assoc.
Qed.

Lemma ascii_isdigit_char c :
  is_ascii_char c = true -> PyStr.isdigit_char c = PyStr.is_ascii_digit c.
Proof.
  unfold is_ascii_char, PyStr.isdigit_char, PyStr.is_ascii_digit, PyStr.in_range.
  intros H. apply N.ltb_lt in H.
  destruct (PyStr.code c =? 178)%N eqn:E1; [apply N.eqb_eq in E1; lia|].
  destruct (PyStr.code c =? 179)%N eqn:E2; [apply N.eqb_eq in E2; lia|].
  destruct (PyStr.code c =? 185)%N eqn:E3; [apply N.eqb_eq in E3; lia|].
  now rewrite !orb_false_r.
Qed.

Lemma ascii_digit_isdigit_char c :
  PyStr.is_ascii_digit c = true -> PyStr.isdigit_char c = true.
Proof. unfold PyStr.isdigit_char, PyStr.is_ascii_digit. now intros ->. Qed.

Lemma ascii_isdigit s :
  is_ascii s = true ->
  PyStr.isdigit s = true <-> decimal_digits s.
Proof.
  unfold PyStr.isdigit, decimal_digits, is_ascii. intros Ha.
  rewrite andb_true_iff, negb_true_iff.
  split; intros [He Hd]; split; auto.
  - pose proof (forallb_str_and _ _ _ Ha Hd) as H.
    revert H. apply forallb_str_impl. intros c Hc.
    apply andb_true_iff in Hc as [H1 H2]. now rewrite <- ascii_isdigit_char.
  - revert Hd. apply forallb_str_impl, ascii_digit_isdigit_char.
Qed.

(** *** Decimal rendering *)

Lemma string_of_uint_digits d :
  PyStr.forallb_str PyStr.is_ascii_digit (NilEmpty.string_of_uint d) = true.
Proof. induction d; simpl; auto. Qed.

Lemma string_of_uint_nonempty d :
  d <> Decimal.Nil -> PyStr.is_empty (NilEmpty.string_of_uint d) = false.
Proof. destruct d; simpl; congruence. Qed.

Lemma to_int_not_nil z : Z.to_int z <> Decimal.Pos Decimal.Nil /\ Z.to_int z <> Decimal.Neg Decimal.Nil.
Proof.
  destruct z; simpl; split; try discriminate;
    intros [= H]; now apply DecimalPos.Unsigned.to_uint_nonnil in H.
Qed.

Lemma str_int_inj a b : PyStr.str_int a = PyStr.str_int b -> a = b.
Proof.
  unfold PyStr.str_int. intros H.
  apply (f_equal NilZero.int_of_string) in H.
  destruct (to_int_not_nil a), (to_int_not_nil b).
  rewrite !NilZero.isi in H by assumption.
  injection H. apply DecimalZ.to_int_inj.
Qed.

Lemma str_int_digits z : 0 <= z -> decimal_digits (PyStr.str_int z).
Proof.
  intros Hz. unfold PyStr.str_int, decimal_digits.
  destruct z as [|p|p]; [split; reflexivity| |lia].
  simpl. pose proof (DecimalPos.Unsigned.to_uint_nonnil p) as Hn.
  assert (Hs : NilZero.string_of_uint (Pos.to_uint p)
               = NilEmpty.string_of_uint (Pos.to_uint p))
    by (destruct (Pos.to_uint p); [congruence|reflexivity..]).
  rewrite Hs. split.
  - now apply string_of_uint_nonempty.
  - apply string_of_uint_digits.
Qed.

Lemma str_int_pos_not_zero v : 0 < v -> PyStr.str_int v <> "0".
Proof. intros Hv H. apply (str_int_inj v 0) in H. lia. Qed.

(** ** Inversion of the builders *)

Lemma build_file_entry_inv fuel note existing w entry w' :
  build_file_entry fuel note existing w = Ret entry w' ->
  exists mtime w1 signature w2 created w3 modified w4 folder,
    safe_mtime note w = Ret mtime w1 /\
    signature_or_fresh fuel (Dict.get "signature" existing) w1 = Ret signature w2 /\
    get_existing_time existing "created_time" mtime w2 = Ret created w3 /\
    iso_utc_from_timestamp mtime w3 = Ret modified w4 /\
    (if PyStr.is_empty (recorded_attachment existing)
     then infer_attachment_folder_from_assets note
     else ret (recorded_attachment existing)) w4 = Ret folder w' /\
    entry = copy_visual_keys existing
              (Dict.set "attachment_folder" (JStr folder)
                 (file_entry_base note existing signature created modified)).
Proof.
  unfold build_file_entry. intros H. inv_ret H.
  repeat eexists; eauto.
Qed.

Lemma build_node_config_inv fuel dir folders notes existing w config w' :
  build_node_config fuel dir folders notes existing w = Ret config w' ->
  exists mtime w1 file_entries w2 signature w3 created w4 modified,
    safe_mtime dir w = Ret mtime w1 /\
    mapM (fun note =>
            build_file_entry fuel note
              (existing_entry "files" existing (Path.name note)))
         notes w1 = Ret file_entries w2 /\
    signature_or_fresh fuel (Dict.get "signature" existing) w2 = Ret signature w3 /\
    get_existing_time existing "created_time" mtime w3 = Ret created w4 /\
    iso_utc_from_timestamp mtime w4 = Ret modified w' /\
    config = copy_visual_keys existing
               (node_config_base existing signature created modified file_entries
                  (map (fun folder =>
                          build_folder_entry (Path.name folder)
                            (existing_entry "folders" existing (Path.name folder)))
                       folders)).
Proof.
  unfold build_node_config. intros H. inv_ret H.
  repeat eexists; eauto.
Qed.

Lemma parse_id_like_nonempty value s : parse_id_like value = Some s -> s <> "".
Proof.
  destruct value as [ |b|z| |t| | ]; simpl; try discriminate.
  - destruct b; simpl; intros [= <-]; discriminate.
  - destruct (0 <=? z) eqn:E; [|discriminate]. intros [= <-].
    apply Z.leb_le in E. destruct (str_int_digits z E) as [Hne _].
    intros Heq. now rewrite Heq in Hne.
  - destruct (PyStr.isdigit (PyStr.strip t)) eqn:E; [|discriminate].
    intros [= <-]. unfold PyStr.isdigit in E.
    intros Heq. now rewrite Heq in E.
Qed.

(** [parse_id_like(value) or "0"] is the parsed value, or ["0"]. *)
Lemma or_else_parse_id value :
  or_else (parse_id_like value) "0" =
  match parse_id_like value with Some s => s | None => "0" end.
Proof.
  unfold or_else. destruct (parse_id_like value) as [s|] eqn:E; [|reflexivity].
  apply parse_id_like_nonempty in E. destruct s; [congruence|reflexivity].
Qed.

Lemma file_entry_get k note existing signature created modified folder :
  ~ In k NODE_VISUAL_KEYS -> k <> "attachment_folder" ->
  Dict.get k (copy_visual_keys existing
                (Dict.set "attachment_folder" (JStr folder)
                   (file_entry_base note existing signature created modified)))
  = Dict.get k (file_entry_base note existing signature created modified).
Proof.
  intros Hk Ha. rewrite get_copy_visual_other by assumption.
  now apply get_set_other.
Qed.

Lemma file_entry_id fuel note existing w entry w' :
  build_file_entry fuel note existing w = Ret entry w' ->
  Dict.get "id" entry =
  JStr (match parse_id_like (Dict.get "id" existing) with
        | Some s => s
        | None => "0"
        end).
Proof.
  intros H. apply build_file_entry_inv in H.
  destruct H as (mtime & w1 & sg & w2 & cr & w3 & md & w4 & fo & _ & _ & _ & _ & _ & ->).
  rewrite file_entry_get by (not_visual || discriminate).
  rewrite <- or_else_parse_id. reflexivity.
Qed.

Lemma node_config_id fuel dir folders notes existing w config w' :
  build_node_config fuel dir folders notes existing w = Ret config w' ->
  Dict.get "id" config =
  JStr (match parse_id_like (Dict.get "id" existing) with
        | Some s => s
        | None => "0"
        end).
Proof.
  intros H. apply build_node_config_inv in H.
  destruct H as (mtime & w1 & fe & w2 & sg & w3 & cr & w4 & md & _ & _ & _ & _ & _ & ->).
  rewrite get_copy_visual_other by not_visual.
  rewrite <- or_else_parse_id. reflexivity.
Qed.

(** ** C3: parsing and defaulting of ids *)

(** C3, as stated, fails: the string " 12 " is not a string of only
    decimal digits, yet [parse_id_like] accepts it, because it strips
    surrounding whitespace before testing the digits. *)
Lemma parse_id_like_accepts_padded_digits :
  (exists s, parse_id_like (JStr " 12 ") = Some s) /\ ~ spec_valid_id (JStr " 12 ").
Proof.
  split.
  - exists "12". reflexivity.
  - intros [_ H]. discriminate H.
Qed.

(** C3, amended: a raw value that is not a boolean (strings being ASCII)
    is accepted as an id exactly when it is a non-negative integer, or a
    string whose whitespace-stripped form is a non-empty string of
    decimal digits; the accepted value is normalised to the decimal
    rendering of the integer, respectively to the stripped string, which
    is in both cases a non-empty string of decimal digits.  Ids are never
    generated: the id of a file entry and of a folder's own config is the
    normalised existing value, and "0" when that value is absent or not
    accepted. *)
Theorem parse_id_like_normalises (value : json) :
  plain_raw_value value ->
  (forall s,
     parse_id_like value = Some s <->
     (exists z, value = JInt z /\ 0 <= z /\ s = PyStr.str_int z) \/
     (exists t, value = JStr t /\ s = PyStr.strip t /\ decimal_digits s)) /\
  (forall s, parse_id_like value = Some s -> decimal_digits s) /\
  (forall fuel existing,
     Dict.get "id" existing = value ->
     let id := JStr (match parse_id_like value with Some s => s | None => "0" end) in
     (forall note w entry w',
        build_file_entry fuel note existing w = Ret entry w' ->
        Dict.get "id" entry = id) /\
     (forall dir folders notes w config w',
        build_node_config fuel dir folders notes existing w = Ret config w' ->
        Dict.get "id" config = id)).
Proof.
  intros Hplain.
  assert (Hchar : forall s,
     parse_id_like value = Some s <->
     (exists z, value = JInt z /\ 0 <= z /\ s = PyStr.str_int z) \/
     (exists t, value = JStr t /\ s = PyStr.strip t /\ decimal_digits s)).
  { intros s. destruct value as [ |b|z|l|t|l|d]; simpl in *;
      try (split; [discriminate | intros [(z0 & [=] & _)|(t0 & [=] & _)]]).
    - contradiction.
    - split.
      + destruct (0 <=? z) eqn:E; [|discriminate]. intros [= <-].
        left. exists z. apply Z.leb_le in E. auto.
      + intros [(z0 & [= <-] & Hz & ->)|(t0 & [=] & _)].
        apply Z.leb_le in Hz. now rewrite Hz.
    - pose proof (ascii_isdigit (PyStr.strip t) (forallb_str_strip _ _ Hplain)) as Hd.
      split.
      + destruct (PyStr.isdigit (PyStr.strip t)) eqn:E; [|discriminate].
        intros [= <-]. right. exists t. repeat split; now apply Hd.
      + intros [(z0 & [=] & _)|(t0 & [= <-] & -> & Hdec)].
        apply Hd in Hdec. now rewrite Hdec. }
  split; [exact Hchar|]. split.
  - intros s Hs. apply Hchar in Hs.
    destruct Hs as [(z & _ & Hz & ->)|(t & _ & _ & Hd)]; [|exact Hd].
    now apply str_int_digits.
  - intros fuel existing <-. split.
    + intros note w entry w'. apply file_entry_id.
    + intros dir folders notes w config w'. apply node_config_id.
Qed.

(** ** Actions that leave the file system and the log alone *)

Lemma advanced_refl w : advanced w w.
Proof. repeat split; exists O; reflexivity. Qed.

Lemma advanced_trans w1 w2 w3 : advanced w1 w2 -> advanced w2 w3 -> advanced w1 w3.
Proof.
  intros (F1 & L1 & [j1 R1] & [c1 C1]) (F2 & L2 & [j2 R2] & [c2 C2]).
  repeat split; try congruence.
  - exists (j1 + j2)%nat. intros n. rewrite R2, R1. f_equal. lia.
  - exists (c1 + c2)%nat. intros n. rewrite C2, C1. f_equal. lia.
Qed.

Lemma quiet_Ret {A} (m : M A) w a w' : quiet m -> m w = Ret a w' -> advanced w w'.
Proof. intros Hq H. specialize (Hq w). now rewrite H in Hq. Qed.

Lemma quiet_ret {A} (a : A) : quiet (ret a).
Proof. intros w. apply advanced_refl. Qed.

Lemma quiet_raise {A} e : quiet (@raise A e).
Proof. intros w. apply advanced_refl. Qed.

Lemma quiet_bind {A B} (m : M A) (k : A -> M B) :
  quiet m -> (forall a, quiet (k a)) -> quiet (bind m k).
Proof.
  intros Hm Hk w. unfold bind. specialize (Hm w).
  destruct (m w) as [a w1|e w1|]; auto.
  specialize (Hk a w1). destruct (k a w1); auto; eapply advanced_trans; eauto.
Qed.

Lemma quiet_try_except {A} (m : M A) caught handler :
  quiet m -> quiet handler -> quiet (try_except m caught handler).
Proof.
  intros Hm Hh w. unfold try_except. specialize (Hm w).
  destruct (m w) as [a w1|e w1|]; auto.
  destruct (caught e); auto.
  specialize (Hh w1). destruct (handler w1); auto; eapply advanced_trans; eauto.
Qed.

Lemma quiet_if {A} (b : bool) (m1 m2 : M A) :
  quiet m1 -> quiet m2 -> quiet (if b then m1 else m2).
Proof. now destruct b. Qed.

Lemma quiet_is_symlink p : quiet (is_symlink p).
Proof. intros w. apply advanced_refl. Qed.

Lemma quiet_is_dir p : quiet (is_dir p).
Proof. intros w. apply advanced_refl. Qed.

Lemma quiet_is_file p : quiet (is_file p).
Proof. intros w. apply advanced_refl. Qed.

Lemma quiet_st_mtime p : quiet (st_mtime p).
Proof. intros w. unfold st_mtime. destruct FS.mtime_of; apply advanced_refl. Qed.

Lemma quiet_iterdir p : quiet (iterdir p).
Proof. intros w. unfold iterdir. destruct FS.entries_of; apply advanced_refl. Qed.

Lemma quiet_read_text p : quiet (read_text p).
Proof.
  intros w. unfold read_text.
  destruct FS.resolve as [[m [t|]| | |]|]; apply advanced_refl.
Qed.

Lemma quiet_now : quiet now.
Proof.
  intros w. unfold now. repeat split; simpl.
  - exists O. reflexivity.
  - exists 1%nat. reflexivity.
Qed.

Lemma quiet_getrandbits k : quiet (getrandbits k).
Proof.
  intros w. unfold getrandbits. repeat split; simpl.
  - exists 1%nat. reflexivity.
  - exists O. reflexivity.
Qed.

Lemma quiet_mapM {A B} (f : A -> M B) xs : (forall x, quiet (f x)) -> quiet (mapM f xs).
Proof.
  intros Hf. induction xs as [|x xs IH]; simpl.
  - apply quiet_ret.
  - apply quiet_bind; [apply Hf|]. intros y.
    apply quiet_bind; [apply IH|]. intros ys. apply quiet_ret.
Qed.

Lemma quiet_foldM {A B} (f : B -> A -> M B) xs acc :
  (forall b x, quiet (f b x)) -> quiet (foldM f xs acc).
Proof.
  intros Hf. revert acc. induction xs as [|x xs IH]; intros acc; simpl.
  - apply quiet_ret.
  - apply quiet_bind; [apply Hf|]. intros acc'. apply IH.
Qed.

Lemma quiet_filterM {A} (p : A -> M bool) xs :
  (forall x, quiet (p x)) -> quiet (filterM p xs).
Proof.
  intros Hp. induction xs as [|x xs IH]; simpl.
  - apply quiet_ret.
  - apply quiet_bind; [apply Hp|]. intros keep.
    apply quiet_bind; [apply IH|]. intros rest. apply quiet_ret.
Qed.

Create HintDb quiet.
#[global] Hint Resolve quiet_ret quiet_raise quiet_is_symlink quiet_is_dir
  quiet_is_file quiet_st_mtime quiet_iterdir quiet_read_text quiet_now
  quiet_getrandbits : quiet.

(** Decomposes a [quiet] goal along binds, conditionals and loops. *)
Ltac quiet_tac :=
  repeat first
    [ progress auto with quiet
    | apply quiet_bind; [|intros ?]
    | apply quiet_try_except
    | apply quiet_mapM; intros ?
    | apply quiet_foldM; intros ? ?
    | apply quiet_filterM; intros ?
    | match goal with
      | |- quiet (if ?b then _ else _) => destruct b
      | |- quiet (match ?x with _ => _ end) => destruct x
      | |- quiet (let '(_, _) := ?x in _) => destruct x
      end ].

Lemma quiet_fromtimestamp ts : quiet (PyTime.fromtimestamp_utc ts).
Proof. unfold PyTime.fromtimestamp_utc. quiet_tac. Qed.

Lemma quiet_iso ts : quiet (iso_utc_from_timestamp ts).
Proof.
  unfold iso_utc_from_timestamp. apply quiet_bind; [apply quiet_fromtimestamp|].
  intros dt. apply quiet_ret.
Qed.

Lemma quiet_safe_mtime p : quiet (safe_mtime p).
Proof. unfold safe_mtime. quiet_tac. Qed.

Lemma quiet_get_existing_time existing key ts : quiet (get_existing_time existing key ts).
Proof. unfold get_existing_time. destruct nonempty_str; [apply quiet_ret|apply quiet_iso]. Qed.

Lemma quiet_generate_signature fuel : quiet (generate_signature fuel).
Proof.
  induction fuel as [|fuel IH]; simpl.
  - intros w. exact I.
  - apply quiet_bind; [apply quiet_getrandbits|]. intros sig.
    destruct (0 <? sig); [apply quiet_ret|apply IH].
Qed.

Lemma quiet_signature_or_fresh fuel value : quiet (signature_or_fresh fuel value).
Proof.
  unfold signature_or_fresh.
  destruct parse_signature_like as [s|]; [destruct (PyStr.is_empty s)|];
    auto using quiet_generate_signature, quiet_ret.
Qed.

Lemma quiet_infer_from_roots assets roots : quiet (infer_from_roots assets roots).
Proof.
  induction roots as [|r roots IH]; simpl; [apply quiet_ret|].
  apply quiet_bind; [apply quiet_is_dir|]. intros d.
  destruct (negb d); [apply IH|].
  apply quiet_bind; [apply quiet_iterdir|]. intros children.
  apply quiet_bind; [apply quiet_filterM; intros; apply quiet_is_dir|]. intros dirs.
  destruct (sort_by_key _ _) as [|x [|y l]]; auto using quiet_ret.
Qed.

Lemma quiet_infer note : quiet (infer_attachment_folder_from_assets note).
Proof.
  unfold infer_attachment_folder_from_assets.
  apply quiet_bind; [apply quiet_is_dir|]. intros d.
  destruct (negb d); [apply quiet_ret|apply quiet_infer_from_roots].
Qed.

#[global] Hint Resolve quiet_iso quiet_safe_mtime quiet_get_existing_time
  quiet_generate_signature quiet_signature_or_fresh quiet_infer : quiet.

Lemma quiet_build_file_entry fuel note existing :
  quiet (build_file_entry fuel note existing).
Proof. unfold build_file_entry. quiet_tac. Qed.

#[global] Hint Resolve quiet_build_file_entry : quiet.

Lemma quiet_build_node_config fuel dir folders notes existing :
  quiet (build_node_config fuel dir folders notes existing).
Proof. unfold build_node_config. quiet_tac. Qed.

Lemma quiet_classify_child acc child : quiet (classify_child acc child).
Proof. unfold classify_child. destruct acc. quiet_tac. Qed.

Lemma quiet_iter_children dir : quiet (iter_children dir).
Proof.
  unfold iter_children. apply quiet_bind; [apply quiet_iterdir|]. intros children.
  apply quiet_bind; [apply quiet_foldM; intros; apply quiet_classify_child|].
  intros [folders notes]. apply quiet_ret.
Qed.

#[global] Hint Resolve quiet_build_node_config quiet_iter_children : quiet.

(** ** C2: signatures *)

Lemma fresh_signature_advanced w w' s :
  advanced w w' -> fresh_signature w' s -> fresh_signature w s.
Proof.
  intros (_ & _ & [j Hj] & _) (k & v & Hv & Hb & Hs).
  exists (j + k)%nat, v. rewrite <- Hj. auto.
Qed.

Lemma generate_signature_fresh fuel w s w' :
  generate_signature fuel w = Ret s w' -> fresh_signature w s.
Proof.
  revert w. induction fuel as [|fuel IH]; intros w; simpl; [discriminate|].
  unfold bind, getrandbits.
  destruct (0 <? rng w 0 mod 2 ^ 63) eqn:E.
  - intros H. apply ret_Ret in H as [<- _].
    exists O, (rng w 0 mod 2 ^ 63). apply Z.ltb_lt in E.
    pose proof (Z.mod_pos_bound (rng w 0) (2 ^ 63) ltac:(lia)). repeat split; lia.
  - intros H. apply IH in H. destruct H as (k & v & Hv & Hb & Hs).
    exists (S k), v. auto.
Qed.

(** The loop ends as soon as a draw is not zero. *)
Lemma generate_signature_returns fuel w :
  (exists k, (k < fuel)%nat /\ 0 < rng w k mod 2 ^ 63) ->
  exists s w', generate_signature fuel w = Ret s w'.
Proof.
  revert w. induction fuel as [|fuel IH]; intros w [k [Hk Hpos]]; [lia|].
  simpl. unfold bind, getrandbits.
  destruct (0 <? rng w 0 mod 2 ^ 63) eqn:E; [unfold ret; eauto|].
  apply IH. destruct k as [|k].
  - apply Z.ltb_ge in E. lia.
  - exists k. simpl. split; [lia|exact Hpos].
Qed.

Lemma parse_signature_like_not_zero value : parse_signature_like value <> Some "0".
Proof.
  unfold parse_signature_like. destruct (parse_id_like value) as [s|]; [|discriminate].
  destruct (String.eqb s "0") eqn:E; simpl; [discriminate|].
  intros [= ->]. discriminate.
Qed.

Lemma signature_or_fresh_rejected fuel value w s w' :
  parse_signature_like value = None ->
  signature_or_fresh fuel value w = Ret s w' -> fresh_signature w s.
Proof.
  unfold signature_or_fresh. intros ->. apply generate_signature_fresh.
Qed.

Lemma file_entry_signature fuel note existing w entry w' :
  build_file_entry fuel note existing w = Ret entry w' ->
  exists w1 w2 s,
    advanced w w1 /\
    signature_or_fresh fuel (Dict.get "signature" existing) w1 = Ret s w2 /\
    Dict.get "signature" entry = JStr s.
Proof.
  intros H. apply build_file_entry_inv in H.
  destruct H as (mtime & w1 & sg & w2 & cr & w3 & md & w4 & fo & H1 & H2 & _ & _ & _ & ->).
  exists w1, w2, sg. split; [|split; [exact H2|]].
  - eapply quiet_Ret; [apply quiet_safe_mtime|exact H1].
  - rewrite file_entry_get by (not_visual || discriminate). reflexivity.
Qed.

Lemma node_config_signature fuel dir folders notes existing w config w' :
  build_node_config fuel dir folders notes existing w = Ret config w' ->
  exists w1 w2 s,
    advanced w w1 /\
    signature_or_fresh fuel (Dict.get "signature" existing) w1 = Ret s w2 /\
    Dict.get "signature" config = JStr s.
Proof.
  intros H. apply build_node_config_inv in H.
  destruct H as (mtime & w1 & fe & w2 & sg & w3 & cr & w4 & md & H1 & H2 & H3 & _ & _ & ->).
  exists w2, w3, sg. split; [|split; [exact H3|]].
  - eapply advanced_trans.
    + eapply quiet_Ret; [apply quiet_safe_mtime|exact H1].
    + eapply quiet_Ret; [|exact H2]. apply quiet_mapM. intros x.
      apply quiet_build_file_entry.
  - rewrite get_copy_visual_other by not_visual. reflexivity.
Qed.

(** C2.  Every signature [generate_signature] returns is the decimal
    rendering of a strictly positive integer below 2^63 drawn from the
    random source, and the loop returns as soon as one of the draws
    allowed by its budget is not zero.  ["0"] is never accepted as an
    existing signature: [parse_signature_like] rejects it (and never
    yields it), and a file entry or node config built over an existing
    signature ["0"] carries a freshly generated one instead. *)
Theorem signature_invariant (fuel : nat) (w : world) :
  (forall s w', generate_signature fuel w = Ret s w' ->
     exists v, 0 < v < 2 ^ 63 /\ s = PyStr.str_int v /\
               decimal_digits s /\ s <> "0") /\
  ((exists k, (k < fuel)%nat /\ 0 < rng w k mod 2 ^ 63) ->
     exists s w', generate_signature fuel w = Ret s w') /\
  parse_signature_like (JStr "0") = None /\
  (forall value, parse_signature_like value <> Some "0") /\
  (forall existing,
     Dict.get "signature" existing = JStr "0" ->
     (forall note entry w',
        build_file_entry fuel note existing w = Ret entry w' ->
        exists s, Dict.get "signature" entry = JStr s /\
                  fresh_signature w s /\ s <> "0") /\
     (forall dir folders notes config w',
        build_node_config fuel dir folders notes existing w = Ret config w' ->
        exists s, Dict.get "signature" config = JStr s /\
                  fresh_signature w s /\ s <> "0")).
Proof.
  assert (Hfresh : forall w0 s, fresh_signature w0 s -> s <> "0").
  { intros w0 s (k & v & _ & Hb & ->). apply str_int_pos_not_zero. lia. }
  split; [|split; [|split; [|split]]].
  - intros s w' H. apply generate_signature_fresh in H.
    pose proof (Hfresh _ _ H) as Hnz.
    destruct H as (k & v & Hv & Hb & ->). exists v. repeat split; try lia.
    + apply str_int_digits; lia.
    + apply str_int_digits; lia.
    + exact Hnz.
  - apply generate_signature_returns.
  - reflexivity.
  - apply parse_signature_like_not_zero.
  - intros existing Hsig. split.
    + intros note entry w' H. apply file_entry_signature in H.
      destruct H as (w1 & w2 & s & Hadv & Hgen & Hget). rewrite Hsig in Hgen.
      apply signature_or_fresh_rejected in Hgen; [|reflexivity].
      apply (fresh_signature_advanced _ _ _ Hadv) in Hgen. eauto.
    + intros dir folders notes config w' H. apply node_config_signature in H.
      destruct H as (w1 & w2 & s & Hadv & Hgen & Hget). rewrite Hsig in Hgen.
      apply signature_or_fresh_rejected in Hgen; [|reflexivity].
      apply (fresh_signature_advanced _ _ _ Hadv) in Hgen. eauto.
Qed.

(** ** C10: a boolean [version] is carried through *)

(** C10.  [isinstance(version, int)] holds of a boolean, so a previous
    sidecar whose [version] is [true] or [false] has that boolean written
    as the [version] of the rebuilt config, not an integer and not the
    default. *)
Theorem boolean_version_carried_through
    fuel dir folders notes existing (b : bool) w config w' :
  Dict.get "version" existing = JBool b ->
  build_node_config fuel dir folders notes existing w = Ret config w' ->
  Dict.get "version" config = JBool b /\
  (forall z, Dict.get "version" config <> JInt z) /\
  Dict.get "version" config <> JInt DEFAULT_CONFIG_VERSION.
Proof.
  intros Hv H. apply build_node_config_inv in H.
  destruct H as (mtime & w1 & fe & w2 & sg & w3 & cr & w4 & md & _ & _ & _ & _ & _ & ->).
  rewrite get_copy_visual_other by not_visual.
  assert (Hget : Dict.get "version"
            (node_config_base existing sg cr md fe
               (map (fun folder =>
                       build_folder_entry (Path.name folder)
                         (existing_entry "folders" existing (Path.name folder)))
                    folders)) = JBool b).
  { change (carried_version existing = JBool b).
    unfold carried_version. now rewrite Hv. }
  rewrite Hget. repeat split; intros; discriminate.
Qed.

(** ** The scanner *)

Local Open Scope list_scope.

Lemma lookup_snoc n p c :
  FS.lookup n (p ++ [c]) =
  match FS.entries_of n p with
  | Some entries => Dict.lookup c entries
  | None => None
  end.
Proof.
  unfold FS.entries_of, FS.resolve. revert n.
  induction p as [|a p IH]; intros n; simpl.
  - destruct (FS.deref n) as [[ | m es | | ]|]; try reflexivity.
    destruct (Dict.lookup c es); reflexivity.
  - destruct (FS.deref n) as [[ | m es | | ]|]; try reflexivity.
    destruct (Dict.lookup a es) as [child|]; [apply IH|reflexivity].
Qed.

Lemma name_snoc (p : path) c : Path.name (p ++ [c]) = c.
Proof. unfold Path.name. apply last_last. Qed.

Lemma parent_snoc (p : path) c : Path.parent (p ++ [c]) = p.
Proof. unfold Path.parent. apply removelast_last. Qed.

Lemma classify_child_Ret folders notes child w :
  classify_child (folders, notes) child w =
  Ret ((folders ++ if keeps_folder (fs w) child then [child] else [])%list,
       (notes ++ if keeps_note (fs w) child then [child] else [])%list) w.
Proof.
  unfold classify_child, keeps_folder, keeps_note, bind, is_symlink, is_dir, is_file, ret.
  destruct (String.eqb (Path.name child) CONFIG_FILE_NAME); simpl;
    [now rewrite !app_nil_r|].
  destruct (FS.is_symlink (fs w) child); simpl; [now rewrite !app_nil_r|].
  destruct (FS.is_dir (fs w) child); simpl.
  - destruct (should_exclude_dir (Path.name child)); simpl; now rewrite !app_nil_r.
  - destruct (FS.is_file (fs w) child); simpl; [|now rewrite !app_nil_r].
    destruct (String.eqb _ NOTE_SUFFIX); simpl; now rewrite !app_nil_r.
Qed.

Lemma foldM_classify children folders notes w :
  foldM classify_child children (folders, notes) w =
  Ret ((folders ++ filter (keeps_folder (fs w)) children)%list,
       (notes ++ filter (keeps_note (fs w)) children)%list) w.
Proof.
  revert folders notes.
  induction children as [|c cs IH]; intros folders notes; cbn [foldM filter].
  - unfold ret. now rewrite !app_nil_r.
  - unfold bind. rewrite classify_child_Ret, IH.
    destruct (keeps_folder (fs w) c), (keeps_note (fs w) c);
      now rewrite <- ?app_assoc, ?app_nil_r.
Qed.

(** [iter_children] observes the world and returns the kept children,
    each list sorted by the case-folded name. *)
Lemma iter_children_Ret dir w folders notes w' :
  iter_children dir w = Ret (folders, notes) w' <->
  w' = w /\
  exists children,
    children_of (fs w) dir = Some children /\
    folders = sort_by_key name_key (filter (keeps_folder (fs w)) children) /\
    notes = sort_by_key name_key (filter (keeps_note (fs w)) children).
Proof.
  unfold iter_children, bind, iterdir, children_of.
  destruct (FS.entries_of (fs w) dir) as [entries|].
  - rewrite foldM_classify. unfold ret. simpl. split.
    + intros [= <- <- <-]. eauto.
    + intros (-> & children & [= <-] & -> & ->). reflexivity.
  - split; [discriminate|]. intros (_ & children & [=] & _).
Qed.

(** *** Sorting *)

Lemma key_leb_refl a : PyStr.key_leb a a = true.
Proof.
  induction a as [|x a IH]; simpl; [reflexivity|].
  now rewrite N.eqb_refl, IH, orb_true_r.
Qed.

Lemma key_leb_total a b : PyStr.key_leb a b = false -> PyStr.key_leb b a = true.
Proof.
  revert b. induction a as [|x a IH]; intros [|y b]; simpl; try easy.
  intros H. apply orb_false_iff in H as [Hlt H].
  apply N.ltb_ge in Hlt.
  destruct (y <? x)%N eqn:E; [reflexivity|]. apply N.ltb_ge in E.
  assert (x = y) by lia. subst y. rewrite N.eqb_refl in *. simpl in *. auto.
Qed.

Lemma key_leb_trans a b c :
  PyStr.key_leb a b = true -> PyStr.key_leb b c = true -> PyStr.key_leb a c = true.
Proof.
  revert b c. induction a as [|x a IH]; intros [|y b] [|z c]; simpl; try easy.
  intros H1 H2.
  apply orb_true_iff in H1 as [H1|H1]; apply orb_true_iff in H2 as [H2|H2].
  - apply N.ltb_lt in H1, H2. apply orb_true_iff. left. apply N.ltb_lt. lia.
  - apply andb_true_iff in H2 as [E H2]. apply N.eqb_eq in E. subst z.
    now rewrite H1.
  - apply andb_true_iff in H1 as [E H1]. apply N.eqb_eq in E. subst y.
    now rewrite H2.
  - apply andb_true_iff in H1 as [E1 H1]. apply andb_true_iff in H2 as [E2 H2].
    apply N.eqb_eq in E1, E2. subst y z.
    rewrite N.eqb_refl, (IH _ _ H1 H2). simpl. apply orb_true_r.
Qed.

Lemma insert_by_key_perm {A} (key : A -> list N) x l :
  Permutation (x :: l) (insert_by_key key x l).
Proof.
  induction l as [|y l IH]; simpl; [reflexivity|].
  destruct (PyStr.key_leb (key x) (key y)); [reflexivity|].
  rewrite perm_swap. now apply perm_skip.
Qed.

Lemma sort_by_key_perm {A} (key : A -> list N) l :
  Permutation l (sort_by_key key l).
Proof.
  induction l as [|x l IH]; simpl; [reflexivity|].
  rewrite <- insert_by_key_perm. now apply perm_skip.
Qed.

Lemma insert_by_key_sorted {A} (key : A -> list N) x l :
  StronglySorted (key_le key) l -> StronglySorted (key_le key) (insert_by_key key x l).
Proof.
  induction 1 as [|y l Hs IH Hall]; simpl.
  - constructor; constructor.
  - destruct (PyStr.key_leb (key x) (key y)) eqn:E.
    + constructor; [now constructor|]. constructor; [exact E|].
      eapply Forall_impl; [|exact Hall]. intros z Hz.
      unfold key_le in *. eapply key_leb_trans; eauto.
    + constructor; [exact IH|].
      apply (Permutation_Forall (insert_by_key_perm key x l)).
      constructor; [|exact Hall]. now apply key_leb_total.
Qed.

Lemma sort_by_key_sorted {A} (key : A -> list N) l :
  StronglySorted (key_le key) (sort_by_key key l).
Proof.
  induction l as [|x l IH]; simpl; [constructor|]. now apply insert_by_key_sorted.
Qed.

Lemma sort_by_key_In {A} (key : A -> list N) l x :
  In x (sort_by_key key l) <-> In x l.
Proof.
  split; apply Permutation_in;
    [symmetry|]; apply sort_by_key_perm.
Qed.

Lemma sort_by_key_length {A} (key : A -> list N) (l : list A) :
  List.length (sort_by_key key l) = List.length l.
Proof. symmetry. apply Permutation_length, sort_by_key_perm. Qed.

(** *** The lists of a node config *)

Lemma mapM_Forall2 {A B} (I : world -> Prop) (R : A -> B -> Prop) (f : A -> M B) xs :
  (forall x w1 y w2, In x xs -> I w1 -> f x w1 = Ret y w2 -> R x y /\ I w2) ->
  forall w ys w', I w -> mapM f xs w = Ret ys w' -> Forall2 R xs ys /\ I w'.
Proof.
  induction xs as [|x xs IH]; intros Hf w ys w' Hw H; simpl in H.
  - apply ret_Ret in H as [<- <-]. split; [constructor|exact Hw].
  - inv_ret H.
    destruct (Hf x _ _ _ (or_introl eq_refl) Hw Hrun) as [Hr Hw1].
    destruct (IH (fun x0 w1 y w2 Hin => Hf x0 w1 y w2 (or_intror Hin)) _ _ _ Hw1 Hrun0)
      as [Hall Hw2].
    split; [now constructor|exact Hw2].
Qed.

Lemma file_entry_name fuel note existing w entry w' :
  build_file_entry fuel note existing w = Ret entry w' ->
  Dict.get "name" entry = JStr (Path.name note).
Proof.
  intros H. apply build_file_entry_inv in H.
  destruct H as (mtime & w1 & sg & w2 & cr & w3 & md & w4 & fo & _ & _ & _ & _ & _ & ->).
  rewrite file_entry_get by (not_visual || discriminate). reflexivity.
Qed.

Lemma folder_entry_name name existing :
  Dict.get "name" (build_folder_entry name existing) = JStr name.
Proof.
  unfold build_folder_entry. rewrite get_copy_visual_other by not_visual. reflexivity.
Qed.

Lemma node_config_lists fuel dir folders notes existing w config w' :
  build_node_config fuel dir folders notes existing w = Ret config w' ->
  names_under "files" config = map Path.name notes /\
  names_under "folders" config = map Path.name folders.
Proof.
  intros H. apply build_node_config_inv in H.
  destruct H as (mtime & w1 & fe & w2 & sg & w3 & cr & w4 & md & _ & Hfiles & _ & _ & _ & ->).
  unfold names_under. rewrite !get_copy_visual_other by not_visual.
  split.
  - change (map entry_name (map JDict fe) = map Path.name notes).
    eapply (mapM_Forall2 (fun _ => True)
              (fun note entry => Dict.get "name" entry = JStr (Path.name note)))
      in Hfiles; [|intros x w5 y w6 _ _ Hb; split; [|exact I]; eapply file_entry_name, Hb|exact I].
    destruct Hfiles as [Hall _]. clear -Hall.
    induction Hall as [|note entry notes fe Hn Hall IH]; [reflexivity|].
    simpl. rewrite Hn, <- IH. reflexivity.
  - change (map entry_name
              (map JDict
                 (map (fun folder =>
                         build_folder_entry (Path.name folder)
                           (existing_entry "folders" existing (Path.name folder)))
                      folders)) = map Path.name folders).
    rewrite !map_map. apply map_ext. intros folder. simpl.
    now rewrite folder_entry_name.
Qed.

(** *** C5: ordering *)

Lemma dict_lookup_In {V} k (d : dict V) v : Dict.lookup k d = Some v -> In (k, v) d.
Proof.
  induction d as [|[k' v'] d IH]; simpl; [discriminate|].
  destruct (String.eqb k' k) eqn:E.
  - apply String.eqb_eq in E. intros [= ->]. left. congruence.
  - intros H. right. auto.
Qed.

Lemma dict_lookup_keys {V} k (d : dict V) :
  In k (map fst d) -> exists v, Dict.lookup k d = Some v.
Proof.
  induction d as [|[k' v'] d IH]; simpl; [easy|].
  destruct (String.eqb k' k) eqn:E; [eauto|].
  intros [->|H]; [now rewrite String.eqb_refl in E|auto].
Qed.

Lemma sort_by_key_map {A B} (key : B -> list N) (f : A -> B) l :
  sort_by_key key (map f l) = map f (sort_by_key (fun x => key (f x)) l).
Proof.
  induction l as [|x l IH]; simpl; [reflexivity|]. rewrite IH.
  generalize (sort_by_key (fun x0 => key (f x0)) l). clear.
  intros s. induction s as [|y s IH]; simpl; [reflexivity|].
  destruct (PyStr.key_leb (key (f x)) (key (f y))); simpl; [reflexivity|].
  now rewrite IH.
Qed.

Lemma sort_by_key_ext {A} (k1 k2 : A -> list N) l :
  (forall x, k1 x = k2 x) -> sort_by_key k1 l = sort_by_key k2 l.
Proof.
  intros Hk. induction l as [|x l IH]; simpl; [reflexivity|]. rewrite IH.
  generalize (sort_by_key k2 l). intros s.
  induction s as [|y s IHs]; simpl; [reflexivity|].
  rewrite !Hk. destruct (PyStr.key_leb (k2 x) (k2 y)); [reflexivity|]. now rewrite IHs.
Qed.

(** Sorting child paths of one directory sorts their names. *)
Lemma sort_children dir names :
  sort_by_key name_key (map (fun c => dir ++ [c]) names) =
  map (fun c => dir ++ [c]) (sort_by_key PyStr.casefold names).
Proof.
  rewrite sort_by_key_map. f_equal. apply sort_by_key_ext.
  intros c. unfold name_key. now rewrite name_snoc.
Qed.

Lemma filter_children (keep : path -> bool) dir names :
  filter keep (map (fun c => dir ++ [c]) names) =
  map (fun c => dir ++ [c]) (filter (fun c => keep (dir ++ [c])) names).
Proof.
  induction names as [|c names IH]; simpl; [reflexivity|].
  destruct (keep (dir ++ [c])); simpl; now rewrite IH.
Qed.

(** A regular file with the note suffix is kept as a note. *)
Lemma keeps_regular_note n dir entries name :
  FS.entries_of n dir = Some entries ->
  (forall x, In (name, x) entries -> exists m t, x = File m t) ->
  In name (map fst entries) ->
  String.eqb name CONFIG_FILE_NAME = false ->
  String.eqb (PyStr.lower (Path.suffix [name])) NOTE_SUFFIX = true ->
  keeps_note n (dir ++ [name]) = true /\ keeps_folder n (dir ++ [name]) = false.
Proof.
  intros Hdir Hfile Hin Hcfg Hsuf.
  destruct (dict_lookup_keys _ _ Hin) as [x Hx].
  destruct (Hfile x (dict_lookup_In _ _ _ Hx)) as (m & t & ->).
  unfold keeps_note, keeps_folder, FS.is_symlink, FS.is_dir, FS.is_file, FS.resolve.
  rewrite lookup_snoc, Hdir, Hx, name_snoc, Hcfg. simpl.
  split; [|reflexivity].
  unfold Path.suffix in *. now rewrite name_snoc.
Qed.

Lemma filter_all {A} (p : A -> bool) l :
  (forall x, In x l -> p x = true) -> filter p l = l.
Proof.
  induction l as [|x l IH]; intros H; simpl; [reflexivity|].
  rewrite (H x (or_introl eq_refl)), IH; [reflexivity|]. intros y Hy. apply H. now right.
Qed.

Lemma filter_none {A} (p : A -> bool) l :
  (forall x, In x l -> p x = false) -> filter p l = [].
Proof.
  induction l as [|x l IH]; intros H; simpl; [reflexivity|].
  rewrite (H x (or_introl eq_refl)), IH; [reflexivity|]. intros y Hy. apply H. now right.
Qed.

Lemma sort_three_notes names :
  Permutation names ["B.md"; "a.md"; "C.md"] ->
  sort_by_key PyStr.casefold names = ["a.md"; "B.md"; "C.md"].
Proof.
  intros Hp. pose proof (Permutation_length Hp) as Hlen.
  destruct names as [|x [|y [|z [|]]]]; try discriminate Hlen.
  assert (HB : In "B.md" [x; y; z]) by (eapply Permutation_in; [symmetry; exact Hp|simpl; auto]).
  assert (Ha : In "a.md" [x; y; z]) by (eapply Permutation_in; [symmetry; exact Hp|simpl; auto]).
  assert (HC : In "C.md" [x; y; z]) by (eapply Permutation_in; [symmetry; exact Hp|simpl; auto]).
  simpl in HB, Ha, HC.
  destruct HB as [HB|[HB|[HB|[]]]];
    destruct Ha as [Ha|[Ha|[Ha|[]]]];
    destruct HC as [HC|[HC|[HC|[]]]];
    subst; first [congruence | reflexivity].
Qed.

(** C5.  The two lists [iter_children] returns are sorted by the
    case-folded name, compared as Python compares strings, and the
    [files] and [folders] lists of the node config built from them keep
    that order.  In particular a directory holding exactly the notes
    [B.md], [a.md] and [C.md], listed by the operating system in any
    order, yields the files order [a.md], [B.md], [C.md]. *)
Theorem scanner_orders_by_casefolded_name (dir : path) (w : world) :
  (forall folders notes w',
     iter_children dir w = Ret (folders, notes) w' ->
     StronglySorted (key_le name_key) folders /\
     StronglySorted (key_le name_key) notes /\
     forall fuel existing w1 config w2,
       build_node_config fuel dir folders notes existing w1 = Ret config w2 ->
       names_under "files" config = map Path.name notes /\
       names_under "folders" config = map Path.name folders) /\
  (forall entries,
     FS.entries_of (fs w) dir = Some entries ->
     Permutation (map fst entries) ["B.md"; "a.md"; "C.md"] ->
     (forall name x, In (name, x) entries -> exists m t, x = File m t) ->
     let notes := [dir ++ ["a.md"]; dir ++ ["B.md"]; dir ++ ["C.md"]] in
     iter_children dir w = Ret ([], notes) w /\
     forall fuel existing w1 config w2,
       build_node_config fuel dir [] notes existing w1 = Ret config w2 ->
       names_under "files" config = ["a.md"; "B.md"; "C.md"]).
Proof.
  split.
  - intros folders notes w' H. apply iter_children_Ret in H.
    destruct H as (_ & children & _ & -> & ->).
    split; [apply sort_by_key_sorted|]. split; [apply sort_by_key_sorted|].
    intros fuel existing w1 config w2. apply node_config_lists.
  - intros entries Hdir Hperm Hfiles notes. split.
    + apply iter_children_Ret. split; [reflexivity|].
      exists (map (fun c => dir ++ [c]) (map fst entries)). split.
      * unfold children_of. rewrite Hdir, map_map. reflexivity.
      * assert (Hkeep : forall name, In name (map fst entries) ->
                  keeps_note (fs w) (dir ++ [name]) = true /\
                  keeps_folder (fs w) (dir ++ [name]) = false).
        { intros name Hin.
          apply (keeps_regular_note _ _ _ _ Hdir (Hfiles name) Hin);
            apply (Permutation_in _ Hperm) in Hin; simpl in Hin;
            destruct Hin as [<-|[<-|[<-|[]]]]; reflexivity. }
        rewrite !filter_children.
        rewrite (filter_none (fun c => keeps_folder (fs w) (dir ++ [c])))
          by (intros x Hx; apply Hkeep, Hx).
        rewrite (filter_all (fun c => keeps_note (fs w) (dir ++ [c])))
          by (intros x Hx; apply Hkeep, Hx).
        rewrite !sort_children, (sort_three_notes _ Hperm). split; reflexivity.
    + intros fuel existing w1 config w2 H. apply node_config_lists in H.
      destruct H as [-> _]. unfold notes. simpl. now rewrite !name_snoc.
Qed.

(** ** C6: timestamps *)

Lemma str_app_assoc (a b c : string) : ((a ++ b) ++ c = a ++ (b ++ c))%string.
Proof. induction a as [|x a IH]; simpl; [reflexivity|]. now rewrite IH. Qed.

Lemma str_app_nil_r (a : string) : (a ++ "")%string = a.
Proof. induction a as [|x a IH]; simpl; [reflexivity|]. now rewrite IH. Qed.

Lemma replace_offset_after (a rest : string) :
  PyStr.forallb_str not_plus a = true ->
  PyStr.replace_from O "+00:00" "Z" (a ++ rest)%string =
  (a ++ PyStr.replace_from O "+00:00" "Z" rest)%string.
Proof.
  induction a as [|c a IH]; intros H; [reflexivity|].
  cbn [append PyStr.replace_from PyStr.startswith PyStr.forallb_str] in *.
  apply andb_true_iff in H as [Hc Ha].
  unfold not_plus in Hc. apply negb_true_iff in Hc. rewrite Hc.
  cbn [andb]. now rewrite IH.
Qed.

Lemma digit_not_plus c : PyStr.is_ascii_digit c = true -> not_plus c = true.
Proof.
  unfold PyStr.is_ascii_digit, PyStr.in_range, not_plus, PyStr.code. intros H.
  apply negb_true_iff, Ascii.eqb_neq. intros <-. discriminate H.
Qed.

Lemma str_int_not_plus z : PyStr.forallb_str not_plus (PyStr.str_int z) = true.
Proof.
  assert (Hu : forall d, PyStr.forallb_str not_plus (NilZero.string_of_uint d) = true).
  { intros d.
    assert (H : PyStr.forallb_str not_plus (NilEmpty.string_of_uint d) = true)
      by (eapply forallb_str_impl; [apply digit_not_plus|apply string_of_uint_digits]).
    destruct d; solve [reflexivity | exact H]. }
  unfold PyStr.str_int. destruct (Z.to_int z) as [d|d]; simpl; [apply Hu|].
  apply Hu.
Qed.

Lemma zeros_not_plus n : PyStr.forallb_str not_plus (PyTime.zeros n) = true.
Proof. induction n; simpl; auto. Qed.

Lemma zfill_not_plus width n : PyStr.forallb_str not_plus (PyTime.zfill width n) = true.
Proof.
  unfold PyTime.zfill. now rewrite forallb_str_app, zeros_not_plus, str_int_not_plus.
Qed.

Lemma date_time_text_not_plus dt :
  PyStr.forallb_str not_plus (date_time_text dt) = true.
Proof.
  unfold date_time_text. rewrite !forallb_str_app, !zfill_not_plus. reflexivity.
Qed.

Lemma isoformat_whole_second dt :
  PyTime.microsecond dt = 0 ->
  PyTime.isoformat dt = (date_time_text dt ++ "+00:00")%string.
Proof.
  unfold PyTime.isoformat, date_time_text. intros ->. simpl (0 =? 0).
  cbv iota. rewrite !str_app_assoc. reflexivity.
Qed.

(** [iso_utc_from_timestamp] observes nothing; on a timestamp within the
    years 1..9999 it returns the date and time of the second the
    timestamp falls in, followed by ["Z"], and it raises otherwise. *)
Lemma iso_utc_from_timestamp_spec ts w :
  (representable (ts / 1000000) ->
   iso_utc_from_timestamp ts w =
   Ret (date_time_text (utc_of_second (ts / 1000000)) ++ "Z")%string w) /\
  (~ representable (ts / 1000000) ->
   iso_utc_from_timestamp ts w = Raise ValueError w).
Proof.
  unfold representable, utc_of_second, iso_utc_from_timestamp, PyTime.fromtimestamp_utc.
  destruct (PyTime.civil_from_days (ts / 1000000 / 86400)) as [[y m] d]. simpl.
  destruct ((1 <=? y) && (y <=? 9999)) eqn:E.
  - split; [intros _|intros H; exfalso; apply H;
                     apply andb_true_iff in E as [E1 E2];
                     apply Z.leb_le in E1, E2; lia].
    unfold bind, ret. f_equal.
    rewrite isoformat_whole_second by reflexivity.
    unfold PyStr.replace. rewrite replace_offset_after by apply date_time_text_not_plus.
    reflexivity.
  - split; [|reflexivity]. intros [H1 H2]. apply Z.leb_le in H1, H2.
    rewrite H1, H2 in E. discriminate.
Qed.

Lemma iso_utc_from_timestamp_Ret ts w s w' :
  iso_utc_from_timestamp ts w = Ret s w' ->
  w' = w /\ representable (ts / 1000000) /\
  s = (date_time_text (utc_of_second (ts / 1000000)) ++ "Z")%string.
Proof.
  intros H. destruct (iso_utc_from_timestamp_spec ts w) as [Hin Hout].
  assert (Hdec : representable (ts / 1000000) \/ ~ representable (ts / 1000000))
    by (unfold representable; lia).
  destruct Hdec as [Hr|Hr].
  - rewrite (Hin Hr) in H. injection H as <- <-. auto.
  - rewrite (Hout Hr) in H. discriminate.
Qed.

Lemma safe_mtime_returns p w :
  exists w', safe_mtime p w = Ret (observed_mtime w p) w' /\ advanced w w'.
Proof.
  unfold safe_mtime, try_except, st_mtime, observed_mtime.
  destruct (FS.mtime_of (fs w) p) as [t|]; simpl.
  - exists w. split; [reflexivity|apply advanced_refl].
  - eexists. split; [reflexivity|]. apply (quiet_now w).
Qed.

Lemma get_existing_time_Ret existing key ts w s w' :
  get_existing_time existing key ts w = Ret s w' ->
  w' = w /\
  match nonempty_str (Dict.get key existing) with
  | Some value => s = value
  | None => iso_utc_from_timestamp ts w = Ret s w
  end.
Proof.
  unfold get_existing_time. destruct (nonempty_str (Dict.get key existing)) as [v|].
  - intros H. apply ret_Ret in H as [<- <-]. auto.
  - intros H. pose proof (iso_utc_from_timestamp_Ret _ _ _ _ H) as [-> _]. auto.
Qed.

Lemma safe_mtime_Ret p w t w' :
  safe_mtime p w = Ret t w' -> t = observed_mtime w p /\ advanced w w'.
Proof.
  intros H. destruct (safe_mtime_returns p w) as (w1 & H1 & Hadv).
  rewrite H1 in H. injection H as <- <-. auto.
Qed.

Lemma times_of_build existing mtime w2 cr w3 md w4 :
  get_existing_time existing "created_time" mtime w2 = Ret cr w3 ->
  iso_utc_from_timestamp mtime w3 = Ret md w4 ->
  md = stamp_of mtime /\ cr = kept_or existing (stamp_of mtime).
Proof.
  intros Hc Hm. apply iso_utc_from_timestamp_Ret in Hm as (_ & _ & ->).
  apply get_existing_time_Ret in Hc as [-> Hc]. split; [reflexivity|].
  unfold kept_or. destruct (nonempty_str (Dict.get "created_time" existing)); [exact Hc|].
  now apply iso_utc_from_timestamp_Ret in Hc as (_ & _ & ->).
Qed.


(** ** C7: attachment inference *)

Lemma filterM_is_dir children w :
  filterM is_dir children w = Ret (filter (FS.is_dir (fs w)) children) w.
Proof.
  induction children as [|c cs IH]; simpl; [reflexivity|].
  unfold bind at 1. unfold is_dir at 1. unfold bind. rewrite IH. unfold ret.
  now destruct (FS.is_dir (fs w) c).
Qed.

Lemma sort_by_key_singleton {A} (key : A -> list N) l x :
  sort_by_key key l = [x] <-> l = [x].
Proof.
  split.
  - intros H. pose proof (sort_by_key_perm key l) as Hp. rewrite H in Hp.
    now apply Permutation_sym, Permutation_length_1_inv in Hp.
  - intros ->. reflexivity.
Qed.

Lemma is_dir_entries n p : FS.is_dir n p = true <-> FS.entries_of n p <> None.
Proof.
  unfold FS.is_dir, FS.entries_of.
  destruct (FS.resolve n p) as [[ | | | ]|]; split; congruence.
Qed.

Lemma infer_from_roots_Ret assets roots w :
  infer_from_roots assets roots w = Ret (inferred_from (fs w) assets roots) w.
Proof.
  induction roots as [|root rest IH]; simpl; [reflexivity|].
  unfold bind at 1. unfold is_dir at 1. unfold subdirs_of, children_of.
  destruct (FS.is_dir (fs w) (Path.join assets root)) eqn:Hd; simpl.
  - unfold bind at 1. unfold iterdir at 1.
    apply is_dir_entries in Hd.
    destruct (FS.entries_of (fs w) (Path.join assets root)) as [entries|];
      [|congruence].
    unfold bind at 1. rewrite filterM_is_dir.
    set (dirs := filter _ _).
    destruct (sort_by_key PyStr.casefold (map Path.name dirs)) as [|x [|y l]] eqn:Hs.
    + apply (f_equal (@List.length _)) in Hs. rewrite sort_by_key_length in Hs.
      destruct (map Path.name dirs); [exact IH|discriminate].
    + apply sort_by_key_singleton in Hs. rewrite Hs. reflexivity.
    + destruct (map Path.name dirs) as [|a [|b l']] eqn:Hm; try exact IH.
      discriminate Hs.
  - assert (Hn : FS.entries_of (fs w) (Path.join assets root) = None).
    { destruct (FS.entries_of (fs w) (Path.join assets root)) eqn:E; [|reflexivity].
      assert (FS.is_dir (fs w) (Path.join assets root) = true)
        by (apply is_dir_entries; congruence). congruence. }
    rewrite Hn. exact IH.
Qed.

Lemma infer_attachment_Ret note w :
  infer_attachment_folder_from_assets note w = Ret (inferred_folder (fs w) note) w.
Proof.
  unfold infer_attachment_folder_from_assets, inferred_folder. fold (assets_root_of note).
  unfold bind, is_dir. destruct (FS.is_dir (fs w) (assets_root_of note)); cbn [negb].
  - apply infer_from_roots_Ret.
  - reflexivity.
Qed.

Lemma file_entry_attachment fuel note existing w entry w' :
  build_file_entry fuel note existing w = Ret entry w' ->
  Dict.get "attachment_folder" entry =
  JStr (if PyStr.is_empty (recorded_attachment existing)
        then inferred_folder (fs w) note
        else recorded_attachment existing).
Proof.
  intros H. apply build_file_entry_inv in H.
  destruct H as (mtime & w1 & sg & w2 & cr & w3 & md & w4 & fo
                 & H1 & H2 & H3 & H4 & H5 & ->).
  assert (Hfs : fs w4 = fs w).
  { assert (Hadv : advanced w w4).
    { eapply advanced_trans; [eapply quiet_Ret; [apply quiet_safe_mtime|exact H1]|].
      eapply advanced_trans; [eapply quiet_Ret; [apply quiet_signature_or_fresh|exact H2]|].
      eapply advanced_trans; [eapply quiet_Ret; [apply quiet_get_existing_time|exact H3]|].
      eapply quiet_Ret; [apply quiet_iso|exact H4]. }
    apply Hadv. }
  rewrite get_copy_visual_other by not_visual. rewrite get_set_same. f_equal.
  destruct (PyStr.is_empty (recorded_attachment existing)).
  - rewrite infer_attachment_Ret in H5. injection H5 as <- _. now rewrite Hfs.
  - now apply ret_Ret in H5 as [<- _].
Qed.

(** C7, as stated, fails: with two sub-directories under
    [vx_attachments] the candidates are several, yet the inferred folder
    is not the empty string.  The loop goes on to [_v_attachments], which
    holds one sub-directory, and returns its name. *)
Lemma several_candidates_do_not_yield_empty :
  subdirs_of (fs two_roots_world)
    (Path.join (assets_root_of ["foo.md"]) "vx_attachments") = Some ["a"; "b"] /\
  infer_attachment_folder_from_assets ["foo.md"] two_roots_world
    = Ret "c" two_roots_world /\
  (exists entry w',
     build_file_entry 1 ["foo.md"] [] two_roots_world = Ret entry w' /\
     Dict.get "attachment_folder" entry = JStr "c") /\
  ~ spec_empty_on_several (fs two_roots_world) ["foo.md"] "c".
Proof.
  split; [reflexivity|]. split; [reflexivity|]. split.
  - do 2 eexists. split; [vm_compute; reflexivity|reflexivity].
  - intros H.
    specialize (H "vx_attachments" ["a"; "b"] (or_introl eq_refl) eq_refl).
    simpl in H. discriminate H. lia.
Qed.

(** C7, amended.  When the previous entry records no attachment folder
    (the key is missing, empty or not a string), the rebuilt entry
    carries the inferred one, and a recorded one is kept as it is.  The
    recognised roots are tried in their order, [vx_attachments] first:
    the inferred folder is the name of the only sub-directory of the
    first recognised root that has exactly one; a root that is missing,
    or holds none or several, is passed over.  It is the empty string
    when the note has no sibling [<stem>_assets] directory, and when no
    recognised root under it has exactly one sub-directory. *)
Theorem attachment_folder_inference (w : world) (note : path) :
  let assets := assets_root_of note in
  let subdirs root := subdirs_of (fs w) (Path.join assets root) in
  let folder := inferred_folder (fs w) note in
  infer_attachment_folder_from_assets note w = Ret folder w /\
  (forall fuel existing entry w',
     build_file_entry fuel note existing w = Ret entry w' ->
     Dict.get "attachment_folder" entry =
     JStr (if PyStr.is_empty (recorded_attachment existing)
           then folder else recorded_attachment existing)) /\
  (FS.is_dir (fs w) assets = false -> folder = "") /\
  ((forall root, In root ATTACHMENT_ROOT_CANDIDATES ->
      match subdirs root with
      | None => True
      | Some names => List.length names <> 1%nat
      end) ->
   folder = "") /\
  (forall name,
     FS.is_dir (fs w) assets = true ->
     subdirs "vx_attachments" = Some [name] -> folder = name) /\
  (forall name,
     FS.is_dir (fs w) assets = true ->
     (forall only, subdirs "vx_attachments" <> Some [only]) ->
     subdirs "_v_attachments" = Some [name] -> folder = name).
Proof.
  intros assets subdirs folder.
  split; [apply infer_attachment_Ret|].
  split; [intros fuel existing entry w'; apply file_entry_attachment|].
  unfold folder, inferred_folder. fold assets.
  split; [intros ->; reflexivity|]. split; [|split].
  - intros Hnone. destruct (FS.is_dir (fs w) assets); [|reflexivity].
    simpl. fold (subdirs "vx_attachments") (subdirs "_v_attachments").
    pose proof (Hnone "vx_attachments" (or_introl eq_refl)) as H1.
    pose proof (Hnone "_v_attachments" (or_intror (or_introl eq_refl))) as H2.
    destruct (subdirs "vx_attachments") as [[|a [|b l]]|];
      destruct (subdirs "_v_attachments") as [[|a' [|b' l']]|];
      simpl in *; congruence.
  - intros name -> H. simpl. fold (subdirs "vx_attachments"). now rewrite H.
  - intros name -> Hfirst H. simpl.
    fold (subdirs "vx_attachments") (subdirs "_v_attachments"). rewrite H.
    destruct (subdirs "vx_attachments") as [[|a [|b l]]|]; try reflexivity.
    now destruct (Hfirst a).
Qed.

(** ** C8: the loader and the index of previous entries *)

Lemma mem_lookup {V} k (d : dict V) : Dict.mem k d = false <-> Dict.lookup k d = None.
Proof. unfold Dict.mem. destruct (Dict.lookup k d); split; congruence. Qed.

Lemma map_entries_step_lookup name result item :
  Dict.lookup name (map_entries_step result item) =
  match Dict.lookup name result with
  | Some fields => Some fields
  | None => named name item
  end.
Proof.
  unfold map_entries_step, named.
  destruct item as [ | | | | | |fields];
    try (destruct (Dict.lookup name result); reflexivity).
  destruct (Dict.get "name" fields) as [ | | | |n| | ];
    try (destruct (Dict.lookup name result); reflexivity).
  destruct (PyStr.is_empty n); simpl;
    [destruct (Dict.lookup name result); reflexivity|].
  destruct (String.eqb n name) eqn:E.
  - apply String.eqb_eq in E. subst n.
    unfold Dict.mem. destruct (Dict.lookup name result) eqn:L; simpl.
    + exact L.
    + apply lookup_set_same.
  - apply String.eqb_neq in E.
    destruct (Dict.mem n result); simpl.
    + destruct (Dict.lookup name result); reflexivity.
    + rewrite lookup_set_other by congruence.
      destruct (Dict.lookup name result); reflexivity.
Qed.

Lemma fold_map_entries_lookup name items result :
  Dict.lookup name (fold_left map_entries_step items result) =
  match Dict.lookup name result with
  | Some fields => Some fields
  | None => first_named name items
  end.
Proof.
  revert result. induction items as [|item items IH]; intros result; simpl.
  - destruct (Dict.lookup name result); reflexivity.
  - rewrite IH, map_entries_step_lookup.
    destruct (Dict.lookup name result); [reflexivity|].
    destruct (named name item); reflexivity.
Qed.

Lemma keys_set {V} k (v : V) d x :
  In x (Dict.keys (Dict.set k v d)) -> x = k \/ In x (Dict.keys d).
Proof.
  unfold Dict.keys. induction d as [|[k' v'] d IH]; simpl.
  - intros [<-|[]]. now left.
  - destruct (String.eqb k' k) eqn:E; simpl.
    + apply String.eqb_eq in E. subst k'. intros [<-|H]; auto.
    + intros [<-|H]; [auto|]. destruct (IH H); auto.
Qed.

Lemma NoDup_keys_set {V} k (v : V) d :
  NoDup (Dict.keys d) -> NoDup (Dict.keys (Dict.set k v d)).
Proof.
  unfold Dict.keys. induction d as [|[k' v'] d IH]; simpl; intros Hnd.
  - constructor; [easy|constructor].
  - inversion Hnd as [|? ? Hnotin Hnd']; subst.
    destruct (String.eqb k' k) eqn:E; simpl.
    + apply String.eqb_eq in E. subst k'. now constructor.
    + constructor; [|auto]. intros Hin. apply keys_set in Hin as [->|Hin]; [|auto].
      now rewrite String.eqb_refl in E.
Qed.

Lemma NoDup_keys_map_entries entries : NoDup (Dict.keys (map_entries_by_name entries)).
Proof.
  unfold map_entries_by_name. destruct entries; try constructor.
  assert (H : forall result, NoDup (Dict.keys result) ->
                NoDup (Dict.keys (fold_left map_entries_step items result))).
  { induction items as [|item items IH]; intros result Hnd; simpl; [exact Hnd|].
    apply IH. unfold map_entries_step.
    destruct item; try exact Hnd.
    destruct (Dict.get "name" fields); try exact Hnd.
    destruct (_ && _); [now apply NoDup_keys_set|exact Hnd]. }
  apply H. constructor.
Qed.

Section Loader.

Variable json_loads : string -> option json.

Local Abbreviation loaded := (loaded json_loads).

Lemma load_existing_config_Ret p w :
  load_existing_config json_loads p w = Ret (loaded (fs w) p) w.
Proof.
  unfold load_existing_config, loaded, is_file, FS.is_file, try_except,
    read_text, loads, bind, ret, raise.
  destruct (FS.resolve (fs w) p) as [[m [text|]|m es|t| ]|] eqn:E;
    simpl; rewrite ?E; try reflexivity.
  destruct (json_loads text) as [[ | | | | | |fields]|]; reflexivity.
Qed.

Lemma quiet_load_existing_config p : quiet (load_existing_config json_loads p).
Proof. intros w. rewrite load_existing_config_Ret. apply advanced_refl. Qed.


End Loader.

(** ** The recursive walk *)

Lemma logs_refl P w : logs P w w.
Proof. exists []. now rewrite app_nil_r. Qed.

Lemma logs_trans P w1 w2 w3 : logs P w1 w2 -> logs P w2 w3 -> logs P w1 w3.
Proof.
  intros (e1 & L1 & F1) (e2 & L2 & F2). exists (e1 ++ e2).
  rewrite L2, L1, app_assoc. split; [reflexivity|]. apply Forall_app. auto.
Qed.

Lemma logs_advanced P w w' : advanced w w' -> logs P w w'.
Proof. intros (_ & L & _). exists []. now rewrite app_nil_r. Qed.

Lemma logs_impl (P Q : event -> Prop) w w' :
  (forall e, P e -> Q e) -> logs P w w' -> logs Q w w'.
Proof.
  intros H (events & L & F). exists events. split; [exact L|].
  eapply Forall_impl; eauto.
Qed.

Lemma foldM_invariant {A B} (R : world -> world -> Prop) (f : B -> A -> M B) xs :
  (forall w, R w w) ->
  (forall w1 w2 w3, R w1 w2 -> R w2 w3 -> R w1 w3) ->
  (forall b x w1 b' w2, In x xs -> f b x w1 = Ret b' w2 -> R w1 w2) ->
  forall acc w r w', foldM f xs acc w = Ret r w' -> R w w'.
Proof.
  intros Hrefl Htrans. induction xs as [|x xs IH]; intros Hf acc w r w' H; simpl in H.
  - apply ret_Ret in H as [_ <-]. apply Hrefl.
  - inv_ret H. eapply Htrans.
    + eapply Hf; [now left|exact Hrun].
    + eapply IH; [|exact H]. intros b y w1 b' w2 Hin. apply Hf. now right.
Qed.

Lemma print_Ret line w u w' :
  print line w = Ret u w' ->
  fs w' = fs w /\ rng w' = rng w /\ clock w' = clock w /\
  log w' = log w ++ [Printed line].
Proof. unfold print, emit. intros [= _ <-]. auto. Qed.

Section WalkFacts.

Variable json_loads : string -> option json.
Variable json_dumps : json -> string.
Variable root_text : string.

Local Abbreviation rebuild := (rebuild_recursively json_loads json_dumps root_text).
Local Abbreviation load := (load_existing_config json_loads).
Local Abbreviation report := (report_line root_text).
Local Abbreviation sidecar_text := (sidecar_text json_dumps).
Local Abbreviation visit_event := (visit_event json_dumps root_text).
Local Abbreviation report_of := (report_of root_text).
Local Abbreviation reconciled := (reconciled json_loads).
Local Abbreviation dry_walked := (dry_walked json_loads root_text).

Lemma write_json_Ret p config w u w' :
  write_json json_dumps p config w = Ret u w' ->
  FS.write_at (clock w O) (sidecar_text config) (fs w) p = Some (fs w') /\
  rng w' = rng w /\
  log w' = log w ++ [Wrote p (sidecar_text config)].
Proof.
  unfold write_json, write_text. fold (sidecar_text config).
  destruct (FS.write_at _ _ _ _) as [fs'|]; [|discriminate].
  intros [= _ <-]. auto.
Qed.

(** One level of [rebuild_recursively], step by step. *)
Lemma rebuild_step fuel depth dir dry_run verbose w r w' :
  rebuild fuel (S depth) dir dry_run verbose w = Ret r w' ->
  exists folders notes config w1 w2,
    iter_children dir w = Ret (folders, notes) w /\
    build_node_config fuel dir folders notes
      (loaded json_loads (fs w) (Path.join dir CONFIG_FILE_NAME)) w = Ret config w1 /\
    advanced w w1 /\
    (if verbose || dry_run
     then print (report dir folders notes) w1 = Ret tt w2
     else w2 = w1) /\
    exists w3,
      (if negb dry_run
       then write_json json_dumps (Path.join dir CONFIG_FILE_NAME) config w2 = Ret tt w3
       else w3 = w2) /\
      foldM
        (fun totals folder =>
           let '(total_configs, total_folders, total_notes) := totals in
           bind (rebuild fuel depth folder dry_run verbose)
             (fun sub =>
                let '(sub_configs, sub_folders, sub_notes) := sub in
                ret (total_configs + sub_configs,
                     total_folders + sub_folders,
                     total_notes + sub_notes)%nat))
        folders (1%nat, List.length folders, List.length notes) w3 = Ret r w'.
Proof.
  cbn [rebuild_recursively]. intros H.
  apply bind_Ret in H as (existing & w0 & Hload & H).
  rewrite load_existing_config_Ret in Hload. injection Hload as <- <-.
  apply bind_Ret in H as ([folders notes] & w0 & Hscan & H).
  pose proof Hscan as Hscan'. apply iter_children_Ret in Hscan' as [-> _].
  apply bind_Ret in H as (config & w1 & Hbuild & H).
  apply bind_Ret in H as (u1 & w2 & Hprint & H).
  apply bind_Ret in H as (u2 & w3 & Hwrite & H).
  exists folders, notes, config, w1, w2.
  split; [exact Hscan|]. split; [exact Hbuild|].
  split; [eapply quiet_Ret; [apply quiet_build_node_config|exact Hbuild]|].
  split.
  - destruct (verbose || dry_run).
    + now destruct u1.
    + now apply ret_Ret in Hprint as [_ ->].
  - exists w3. split; [|exact H].
    destruct (negb dry_run).
    + now destruct u2.
    + now apply ret_Ret in Hwrite as [_ ->].
Qed.

(** *** C4: exclusion *)

Lemma should_exclude_dir_spec name :
  should_exclude_dir name = true <-> excluded_name name.
Proof.
  unfold should_exclude_dir, excluded_name, is_hidden_name.
  destruct (PyStr.startswith name "."); [tauto|].
  destruct (PyStr.endswith (PyStr.lower name) "_assets"); [tauto|].
  destruct (existsb (String.eqb (PyStr.lower name)) BUILT_IN_DIR_NAMES) eqn:E.
  - apply existsb_exists in E as (x & Hin & Hx). apply String.eqb_eq in Hx.
    subst x. tauto.
  - split; [discriminate|]. intros [H|[H|H]]; try discriminate.
    assert (existsb (String.eqb (PyStr.lower name)) BUILT_IN_DIR_NAMES = true)
      by (apply existsb_exists; exists (PyStr.lower name);
          split; [exact H|apply String.eqb_refl]).
    congruence.
Qed.

Lemma keeps_folder_spec n dir children child :
  children_of n dir = Some children ->
  In child (filter (keeps_folder n) children) ->
  exists name,
    child = dir ++ [name] /\ included_name name /\
    FS.is_symlink n child = false /\ FS.is_dir n child = true.
Proof.
  unfold children_of. destruct (FS.entries_of n dir) as [entries|]; [|discriminate].
  intros [= <-] Hin. apply filter_In in Hin as [Hin Hkeep].
  apply in_map_iff in Hin as ([name x] & <- & _). simpl in *.
  unfold keeps_folder in Hkeep. rewrite name_snoc in Hkeep.
  apply andb_true_iff in Hkeep as [Hkeep Hexcl].
  apply andb_true_iff in Hkeep as [Hkeep Hdir].
  apply andb_true_iff in Hkeep as [Hcfg Hlink].
  apply negb_true_iff in Hexcl, Hcfg, Hlink.
  exists name. repeat split; auto.
  - intros H. apply should_exclude_dir_spec in H. congruence.
  - now apply String.eqb_neq.
Qed.

Lemma keeps_note_spec n dir children child :
  children_of n dir = Some children ->
  In child (filter (keeps_note n) children) ->
  exists name,
    child = dir ++ [name] /\ name <> CONFIG_FILE_NAME /\
    FS.is_symlink n child = false /\ FS.is_file n child = true.
Proof.
  unfold children_of. destruct (FS.entries_of n dir) as [entries|]; [|discriminate].
  intros [= <-] Hin. apply filter_In in Hin as [Hin Hkeep].
  apply in_map_iff in Hin as ([name x] & <- & _). simpl in *.
  unfold keeps_note in Hkeep. rewrite name_snoc in Hkeep.
  apply andb_true_iff in Hkeep as [Hkeep Hsuf].
  apply andb_true_iff in Hkeep as [Hkeep Hfile].
  apply andb_true_iff in Hkeep as [Hkeep Hdir].
  apply andb_true_iff in Hkeep as [Hcfg Hlink].
  apply negb_true_iff in Hcfg, Hlink.
  exists name. repeat split; auto. now apply String.eqb_neq.
Qed.

Lemma scanned_folders_included dir w folders notes w' :
  iter_children dir w = Ret (folders, notes) w' ->
  forall folder, In folder folders ->
    exists name,
      folder = dir ++ [name] /\ included_name name /\
      FS.is_symlink (fs w) folder = false /\ FS.is_dir (fs w) folder = true.
Proof.
  intros H folder Hin. apply iter_children_Ret in H as (_ & children & Hc & -> & _).
  apply sort_by_key_In in Hin. eapply keeps_folder_spec; eauto.
Qed.

Lemma visit_event_below dir name e :
  included_name name -> visit_event (dir ++ [name]) e -> visit_event dir e.
Proof.
  intros Hname. destruct e as [line|file text]; simpl.
  - intros (sub & folders & notes & -> & Hsub).
    exists (name :: sub), folders, notes. rewrite <- app_assoc. auto.
  - intros (sub & config & -> & Hsub & -> & Hfolders).
    exists (name :: sub), config. rewrite <- !app_assoc. auto.
Qed.

Lemma walk_logs_visits fuel depth dir dry_run verbose w r w' :
  rebuild fuel depth dir dry_run verbose w = Ret r w' ->
  logs (visit_event dir) w w'.
Proof.
  revert dir w r w'. induction depth as [|depth IH]; intros dir w r w' H;
    [discriminate|].
  apply rebuild_step in H.
  destruct H as (folders & notes & config & w1 & w2 & Hscan & Hbuild & Hadv
                 & Hprint & w3 & Hwrite & Hfold).
  eapply logs_trans; [apply logs_advanced, Hadv|].
  eapply logs_trans; [|eapply logs_trans].
  - instantiate (1 := w2). destruct (verbose || dry_run).
    + apply print_Ret in Hprint as (_ & _ & _ & L). exists [Printed (report dir folders notes)].
      split; [exact L|]. constructor; [|constructor].
      exists [], folders, notes. now rewrite app_nil_r.
    + subst w2. apply logs_refl.
  - instantiate (1 := w3). destruct (negb dry_run).
    + apply write_json_Ret in Hwrite as (_ & _ & L).
      exists [Wrote (Path.join dir CONFIG_FILE_NAME) (sidecar_text config)].
      split; [exact L|]. constructor; [|constructor].
      exists [], config. repeat split; auto.
      apply node_config_lists in Hbuild as [_ ->].
      apply Forall_forall. intros name Hin. apply in_map_iff in Hin as (folder & <- & Hin).
      destruct (scanned_folders_included _ _ _ _ _ Hscan folder Hin)
        as (name & -> & Hname & _). now rewrite name_snoc.
    + subst w3. apply logs_refl.
  - eapply (foldM_invariant (logs (visit_event dir))); [apply logs_refl|apply logs_trans| |exact Hfold].
    intros [[tc tf] tn] folder wa b' wb Hin Hstep.
    destruct (scanned_folders_included _ _ _ _ _ Hscan folder Hin)
      as (name & -> & Hname & _).
    apply bind_Ret in Hstep as (sub & wc & Hsub & Hret).
    destruct sub as [[sc sf] sn]. apply ret_Ret in Hret as [_ <-].
    apply IH in Hsub. eapply logs_impl; [|exact Hsub].
    intros e. now apply visit_event_below.
Qed.

(** C4.  Of the children of a scanned directory, [iter_children]
    returns as folders only those whose name does not start with ".",
    does not end in "_assets" once lowercased, and is not a built-in
    name once lowercased; it returns neither a symbolic link nor the
    sidecar's own name, as folder or as note; the [folders] list of the
    node config built from the scan names no excluded directory; and
    the walk only descends into returned folders, so whatever it writes
    or prints is for the directory it started from or for one reached
    through non-excluded names only, and every sidecar it writes lists
    non-excluded folders only. *)
Theorem excluded_directories_never_appear (dir : path) (w : world) :
  (forall folders notes w',
     iter_children dir w = Ret (folders, notes) w' ->
     (forall folder, In folder folders ->
        exists name,
          folder = dir ++ [name] /\ ~ excluded_name name /\
          name <> CONFIG_FILE_NAME /\ FS.is_symlink (fs w) folder = false) /\
     (forall note, In note notes ->
        exists name,
          note = dir ++ [name] /\
          name <> CONFIG_FILE_NAME /\ FS.is_symlink (fs w) note = false) /\
     (forall fuel existing w1 config w2,
        build_node_config fuel dir folders notes existing w1 = Ret config w2 ->
        Forall (fun name => ~ excluded_name name) (names_under "folders" config))) /\
  (forall fuel depth dry_run verbose r w',
     rebuild fuel depth dir dry_run verbose w = Ret r w' ->
     logs (visit_event dir) w w').
Proof.
  split.
  - intros folders notes w' Hscan. split; [|split].
    + intros folder Hin.
      destruct (scanned_folders_included _ _ _ _ _ Hscan folder Hin)
        as (name & -> & [Hex Hcfg] & Hlink & _). eauto.
    + intros note Hin. apply iter_children_Ret in Hscan as (_ & children & Hc & _ & ->).
      apply sort_by_key_In in Hin.
      destruct (keeps_note_spec _ _ _ _ Hc Hin) as (name & -> & Hcfg & Hlink & _). eauto.
    + intros fuel existing w1 config w2 Hbuild.
      apply node_config_lists in Hbuild as [_ ->].
      apply Forall_forall. intros name Hin. apply in_map_iff in Hin as (folder & <- & Hin).
      destruct (scanned_folders_included _ _ _ _ _ Hscan folder Hin)
        as (name & -> & [Hex _] & _). now rewrite name_snoc.
  - intros fuel depth dry_run verbose r w'. apply walk_logs_visits.
Qed.

(** *** C9: dry run *)

Lemma add_totals_assoc a b c :
  add_totals (add_totals a b) c = add_totals a (add_totals b c).
Proof.
  destruct a as [[a1 a2] a3], b as [[b1 b2] b3], c as [[c1 c2] c3]. simpl.
  f_equal; [f_equal|]; lia.
Qed.

Lemma add_totals_0_r a : add_totals a (O, O, O) = a.
Proof. destruct a as [[a1 a2] a3]. simpl. f_equal; [f_equal|]; lia. Qed.

Lemma totals_app vs1 vs2 : totals (vs1 ++ vs2) = add_totals (totals vs1) (totals vs2).
Proof.
  induction vs1 as [|[[d f] n] vs1 IH]; cbn [totals app].
  - destruct (totals vs2) as [[a b] c]. reflexivity.
  - rewrite IH. symmetry. apply add_totals_assoc.
Qed.

Lemma dry_walked_app fuel vs1 vs2 w1 w2 w3 :
  dry_walked fuel vs1 w1 w2 -> dry_walked fuel vs2 w2 w3 ->
  dry_walked fuel (vs1 ++ vs2) w1 w3.
Proof.
  intros (F1 & L1 & R1) (F2 & L2 & R2). split; [congruence|]. split.
  - rewrite L2, L1, map_app, app_assoc. reflexivity.
  - apply Forall_app. split; [exact R1|]. now rewrite <- F1.
Qed.

Lemma dry_walk fuel depth verbose dir w r w' :
  rebuild fuel depth dir true verbose w = Ret r w' ->
  dry_walked fuel (visits depth (fs w) dir) w w' /\
  r = totals (visits depth (fs w) dir).
Proof.
  revert dir w r w'. induction depth as [|depth IH]; intros dir w r w' H;
    [discriminate|].
  apply rebuild_step in H.
  destruct H as (folders & notes & config & w1 & w2 & Hscan & Hbuild & Hadv
                 & Hprint & w3 & Hwrite & Hfold).
  rewrite orb_true_r in Hprint. cbn [negb] in Hwrite. subst w3.
  apply print_Ret in Hprint as (F2 & _ & _ & L2).
  destruct Hadv as (F1 & L1 & _).
  apply iter_children_Ret in Hscan as (_ & children & Hc & Hfolders & Hnotes).
  cbn [visits]. rewrite Hc. cbv zeta. rewrite <- Hfolders, <- Hnotes.
  assert (Hhead : dry_walked fuel [(dir, folders, notes)] w w2).
  { split; [congruence|]. split; [simpl; congruence|].
    constructor; [|constructor]. exists w, config, w1. auto. }
  assert (Hrest : forall fs0 acc wa rb wb,
            fs wa = fs w ->
            foldM
              (fun totals folder =>
                 let '(total_configs, total_folders, total_notes) := totals in
                 bind (rebuild fuel depth folder true verbose)
                   (fun sub =>
                      let '(sub_configs, sub_folders, sub_notes) := sub in
                      ret (total_configs + sub_configs,
                           total_folders + sub_folders,
                           total_notes + sub_notes)%nat))
              fs0 acc wa = Ret rb wb ->
            dry_walked fuel (flat_map (visits depth (fs w)) fs0) wa wb /\
            rb = add_totals acc (totals (flat_map (visits depth (fs w)) fs0))).
  { clear -IH. induction fs0 as [|folder fs0 IHf]; intros acc wa rb wb Hfs Hf;
      cbn [foldM flat_map] in *.
    - apply ret_Ret in Hf as [<- <-]. split.
      + split; [reflexivity|]. split; [now rewrite app_nil_r|constructor].
      + now rewrite add_totals_0_r.
    - destruct acc as [[tc tf] tn].
      apply bind_Ret in Hf as (acc' & wc & Hstep & Hf).
      apply bind_Ret in Hstep as (sub & wd & Hsub & Hret).
      destruct sub as [[sc sf] sn]. apply ret_Ret in Hret as [<- <-].
      apply IH in Hsub as [Hw Hr]. rewrite Hfs in Hw, Hr.
      assert (Hfs' : fs wd = fs w) by (destruct Hw as [Hw _]; congruence).
      destruct (IHf _ _ _ _ Hfs' Hf) as [Hw' ->]. split.
      + eapply dry_walked_app; eauto.
      + rewrite totals_app, <- add_totals_assoc. f_equal.
        rewrite <- Hr. reflexivity. }
  assert (Hfs2 : fs w2 = fs w) by congruence.
  destruct (Hrest _ _ _ _ _ Hfs2 Hfold) as [Hw ->]. split.
  - change ((dir, folders, notes) :: flat_map (visits depth (fs w)) folders)
      with ([(dir, folders, notes)] ++ flat_map (visits depth (fs w)) folders).
    eapply dry_walked_app; [exact Hhead|exact Hw].
  - reflexivity.
Qed.

Lemma bind_ext {A B} (m : M A) (k1 k2 : A -> M B) w :
  (forall a w1, k1 a w1 = k2 a w1) -> bind m k1 w = bind m k2 w.
Proof. intros H. unfold bind. destruct (m w); auto. Qed.

Lemma bind_ext_l {A B} (m1 m2 : M A) (k : A -> M B) w :
  m1 w = m2 w -> bind m1 k w = bind m2 k w.
Proof. intros H. unfold bind. now rewrite H. Qed.

Lemma foldM_ext {A B} (f g : B -> A -> M B) xs acc w :
  (forall b x w1, f b x w1 = g b x w1) -> foldM f xs acc w = foldM g xs acc w.
Proof.
  intros H. revert acc w. induction xs as [|x xs IH]; intros acc w; simpl; [reflexivity|].
  unfold bind. rewrite H. destruct (g acc x w); auto.
Qed.

(** Under [--dry-run] the flag [--verbose] changes nothing. *)
Lemma dry_run_ignores_verbose fuel depth dir v1 v2 w :
  rebuild fuel depth dir true v1 w = rebuild fuel depth dir true v2 w.
Proof.
  revert dir w. induction depth as [|depth IH]; intros dir w; [reflexivity|].
  cbn [rebuild_recursively]. rewrite !orb_true_r.
  apply bind_ext. intros existing w1.
  apply bind_ext. intros [folders notes] w2.
  apply bind_ext. intros config w3.
  apply bind_ext. intros u1 w4.
  apply bind_ext. intros u2 w5.
  apply foldM_ext. intros [[tc tf] tn] folder w6.
  apply bind_ext_l. apply IH.
Qed.

(** C9.  A run with the no-write flag that returns has left the file
    system exactly as it found it, so every sidecar on disk keeps its
    text, and has logged no write.  It has scanned and reconciled every
    directory of the walk and printed the report of each, in the order
    of the walk, whether or not [--verbose] is given; the totals it
    returns count those directories and the folders and notes scanned in
    them. *)
Theorem dry_run_leaves_sidecars_untouched
    (fuel depth : nat) (dir : path) (verbose : bool) (w : world) r (w' : world) :
  rebuild fuel depth dir true verbose w = Ret r w' ->
  let walked := visits depth (fs w) dir in
  fs w' = fs w /\
  (forall p, FS.resolve (fs w') (Path.join p CONFIG_FILE_NAME) =
             FS.resolve (fs w) (Path.join p CONFIG_FILE_NAME)) /\
  log w' = log w ++ map report_of walked /\
  (forall file text, ~ In (Wrote file text) (map report_of walked)) /\
  Forall (reconciled fuel (fs w)) walked /\
  r = totals walked /\
  (forall v, rebuild fuel depth dir true v w = Ret r w').
Proof.
  intros H walked. pose proof (dry_walk _ _ _ _ _ _ _ H) as [(F & L & R) Hr].
  split; [exact F|]. split; [intros p; now rewrite F|].
  split; [exact L|]. split; [|split; [exact R|split; [exact Hr|]]].
  - intros file text Hin. apply in_map_iff in Hin as ([[d f] n] & Heq & _).
    discriminate Heq.
  - intros v. now rewrite (dry_run_ignores_verbose fuel depth dir v verbose).
Qed.

End WalkFacts.

(** ** C1: a boolean id does not survive a second run *)

Section BooleanId.

Variable json_loads : string -> option json.
Variable json_dumps : json -> string.
Variable root_text : string.

(** C1 fails on the code: when the previous sidecar holds the id [true],
    the first run writes the id ["True"], and the second run, reading
    back what the first one wrote and finding the file system otherwise
    unchanged, writes the id ["0"]. *)
Theorem boolean_id_changes_on_second_run :
  json_loads boolean_id_text = Some (JDict boolean_id_sidecar) ->
  json_loads (sidecar_text json_dumps boolean_id_first_config)
    = Some (JDict boolean_id_first_config) ->
  exists w1 w2,
    rebuild_recursively json_loads json_dumps root_text 1 1 [] false false
      boolean_id_world = Ret (1, 0, 0)%nat w1 /\
    fs w1 = Dir (Some 0)
              [("vx.json",
                File (Some 0) (Some (sidecar_text json_dumps boolean_id_first_config)))] /\
    rebuild_recursively json_loads json_dumps root_text 1 1 [] false false w1
      = Ret (1, 0, 0)%nat w2 /\
    fs w2 = Dir (Some 0)
              [("vx.json",
                File (Some 0) (Some (sidecar_text json_dumps boolean_id_second_config)))] /\
    Dict.get "id" boolean_id_first_config = JStr "True" /\
    Dict.get "id" boolean_id_second_config = JStr "0".
Proof.
  intros Hold Hback.
  assert (Hrun1 :
    exists w1,
      rebuild_recursively json_loads json_dumps root_text 1 1 [] false false
        boolean_id_world = Ret (1, 0, 0)%nat w1 /\
      w1 = mkWorld
             (Dir (Some 0)
                [("vx.json",
                  File (Some 0)
                    (Some (sidecar_text json_dumps boolean_id_first_config)))])
             (fun n => 7) (fun n => 0)
             [Wrote ["vx.json"] (sidecar_text json_dumps boolean_id_first_config)]).
  { eexists. split; [|reflexivity].
    cbn [rebuild_recursively]. unfold bind at 1. rewrite load_existing_config_Ret.
    unfold loaded.
    change (FS.resolve (fs boolean_id_world) (Path.join [] CONFIG_FILE_NAME))
      with (Some (File (Some 0) (Some boolean_id_text))).
    cbv iota. rewrite Hold. vm_compute. reflexivity. }
  destruct Hrun1 as (w1 & Hrun1 & Hw1).
  exists w1. eexists. split; [exact Hrun1|]. split; [now rewrite Hw1|].
  split; [|split; [|split; reflexivity]].
  - rewrite Hw1. cbn [rebuild_recursively]. unfold bind at 1.
    rewrite load_existing_config_Ret. unfold loaded.
    match goal with
    | |- context [FS.resolve ?a ?b] =>
        change (FS.resolve a b)
          with (Some (File (Some 0)
                        (Some (sidecar_text json_dumps boolean_id_first_config))))
    end.
    cbv iota. rewrite Hback. vm_compute. reflexivity.
  - vm_compute. reflexivity.
Qed.

End BooleanId.

(** ** Without booleans the reconciler repeats itself

    The boolean is the only way for an id or a signature to change from
    one run to the next: whatever else [parse_id_like] accepts, it
    accepts again in its normalised form. *)

Lemma isdigit_char_not_space c :
  PyStr.isdigit_char c = true -> PyStr.isspace_char c = false.
Proof.
  destruct c as [[] [] [] [] [] [] [] []]; vm_compute; congruence.
Qed.

Lemma lstrip_no_space s :
  PyStr.forallb_str (fun c => negb (PyStr.isspace_char c)) s = true ->
  PyStr.lstrip s = s.
Proof.
  destruct s as [|c s]; simpl; [reflexivity|].
  intros H. apply andb_true_iff in H as [Hc _].
  apply negb_true_iff in Hc. now rewrite Hc.
Qed.

Lemma rstrip_no_space s :
  PyStr.forallb_str (fun c => negb (PyStr.isspace_char c)) s = true ->
  PyStr.rstrip s = s.
Proof.
  induction s as [|c s IH]; simpl; [reflexivity|].
  intros H. apply andb_true_iff in H as [Hc Hs]. rewrite (IH Hs).
  apply negb_true_iff in Hc. rewrite Hc. now destruct s.
Qed.

Lemma isdigit_strip s : PyStr.isdigit s = true -> PyStr.strip s = s.
Proof.
  unfold PyStr.isdigit, PyStr.strip. intros H. apply andb_true_iff in H as [_ H].
  assert (Hs : PyStr.forallb_str (fun c => negb (PyStr.isspace_char c)) s = true).
  { revert H. apply forallb_str_impl. intros c Hc.
    now rewrite (isdigit_char_not_space c Hc). }
  now rewrite (lstrip_no_space s Hs), (rstrip_no_space s Hs).
Qed.

Lemma parse_id_like_digits s :
  PyStr.isdigit s = true -> parse_id_like (JStr s) = Some s.
Proof. intros H. simpl. now rewrite (isdigit_strip s H), H. Qed.

Lemma decimal_digits_isdigit s : decimal_digits s -> PyStr.isdigit s = true.
Proof.
  intros [Hne Hd]. unfold PyStr.isdigit. rewrite Hne. simpl.
  revert Hd. apply forallb_str_impl, ascii_digit_isdigit_char.
Qed.

(** What [parse_id_like] returns for anything but a boolean is a digit
    string. *)
Lemma parse_id_like_isdigit value s :
  not_boolean value -> parse_id_like value = Some s -> PyStr.isdigit s = true.
Proof.
  destruct value as [ |b|z| |t| | ]; simpl; try discriminate.
  - intros [].
  - intros _. destruct (0 <=? z) eqn:E; [|discriminate]. intros [= <-].
    apply decimal_digits_isdigit, str_int_digits. now apply Z.leb_le.
  - intros _. destruct (PyStr.isdigit (PyStr.strip t)) eqn:E; [|discriminate].
    now intros [= <-].
Qed.

Lemma chosen_id_isdigit value :
  not_boolean value ->
  PyStr.isdigit (or_else (parse_id_like value) "0") = true.
Proof.
  intros Hnb. rewrite or_else_parse_id.
  destruct (parse_id_like value) as [s|] eqn:E; [|reflexivity].
  eapply parse_id_like_isdigit; eauto.
Qed.

(** The id a run settles on is the id the next run settles on. *)
Lemma chosen_id_stable value :
  not_boolean value ->
  let id := or_else (parse_id_like value) "0" in
  or_else (parse_id_like (JStr id)) "0" = id.
Proof.
  intros Hnb id. pose proof (chosen_id_isdigit value Hnb) as Hd. fold id in Hd.
  rewrite (parse_id_like_digits id Hd). unfold or_else.
  unfold PyStr.isdigit in Hd. now destruct id.
Qed.

Lemma fresh_signature_isdigit w s :
  fresh_signature w s -> PyStr.isdigit s = true /\ s <> "0".
Proof.
  intros (k & v & _ & Hb & ->). split.
  - apply decimal_digits_isdigit, str_int_digits. lia.
  - apply str_int_pos_not_zero. lia.
Qed.

Lemma signature_or_fresh_isdigit fuel value w s w' :
  not_boolean value ->
  signature_or_fresh fuel value w = Ret s w' ->
  PyStr.isdigit s = true /\ s <> "0".
Proof.
  intros Hnb. unfold signature_or_fresh, parse_signature_like.
  destruct (parse_id_like value) as [parsed|] eqn:E.
  - destruct (String.eqb parsed "0") eqn:Ez; simpl.
    + intros H. eapply fresh_signature_isdigit, generate_signature_fresh, H.
    + pose proof (parse_id_like_isdigit _ _ Hnb E) as Hd.
      assert (Hne : PyStr.is_empty parsed = false)
        by (unfold PyStr.isdigit in Hd; now destruct parsed).
      rewrite Hne. intros H. apply ret_Ret in H as [<- _].
      split; [exact Hd|now apply String.eqb_neq].
  - intros H. eapply fresh_signature_isdigit, generate_signature_fresh, H.
Qed.

(** A signature that is a digit string other than "0" is kept, without
    a draw. *)
Lemma signature_or_fresh_kept fuel s w :
  PyStr.isdigit s = true -> s <> "0" ->
  signature_or_fresh fuel (JStr s) w = Ret s w.
Proof.
  intros Hd Hz. unfold signature_or_fresh, parse_signature_like.
  rewrite (parse_id_like_digits s Hd).
  apply String.eqb_neq in Hz. rewrite Hz. simpl.
  unfold PyStr.isdigit in Hd. now destruct s.
Qed.

(** *** One file entry *)

(** The attachment folder a build settles on. *)
Lemma file_entry_shape fuel note existing w entry w' :
  build_file_entry fuel note existing w = Ret entry w' ->
  exists w1 w2 signature,
    advanced w w1 /\
    signature_or_fresh fuel (Dict.get "signature" existing) w1 = Ret signature w2 /\
    entry = file_entry_of note existing signature
              (kept_or existing (stamp_of (observed_mtime w note)))
              (stamp_of (observed_mtime w note))
              (chosen_attachment existing (inferred_folder (fs w) note)).
Proof.
  intros H. pose proof (file_entry_attachment _ _ _ _ _ _ H) as Hatt.
  apply build_file_entry_inv in H.
  destruct H as (mtime & w1 & sg & w2 & cr & w3 & md & w4 & fo
                 & H1 & H2 & H3 & H4 & H5 & ->).
  apply safe_mtime_Ret in H1 as [-> Hadv].
  destruct (times_of_build _ _ _ _ _ _ _ H3 H4) as [-> ->].
  exists w1, w2, sg. split; [exact Hadv|]. split; [exact H2|].
  rewrite get_copy_visual_other, get_set_same in Hatt by not_visual.
  injection Hatt as ->. reflexivity.
Qed.

Lemma str_app_not_empty (a b : string) :
  PyStr.is_empty b = false -> PyStr.is_empty (a ++ b)%string = false.
Proof. destruct a; simpl; auto. Qed.

Lemma stamp_of_not_empty ts : PyStr.is_empty (stamp_of ts) = false.
Proof. unfold stamp_of. now apply str_app_not_empty. Qed.

Lemma kept_or_not_empty existing stamp :
  PyStr.is_empty stamp = false -> PyStr.is_empty (kept_or existing stamp) = false.
Proof.
  unfold kept_or, nonempty_str. intros H.
  destruct (Dict.get "created_time" existing) as [ | | | |s| | ]; auto.
  destruct (PyStr.is_empty s) eqn:E; auto.
Qed.

Lemma kept_or_kept existing created stamp :
  Dict.get "created_time" existing = JStr created ->
  PyStr.is_empty created = false ->
  kept_or existing stamp = created.
Proof. unfold kept_or, nonempty_str. intros -> ->. reflexivity. Qed.

Lemma clean_tags_clean value :
  clean_tags (JList (map JStr (clean_tags value))) = clean_tags value.
Proof.
  destruct value; try reflexivity. simpl.
  induction items as [|item items IH]; simpl; [reflexivity|].
  unfold nonempty_str at 2.
  destruct item as [ | | | |s| | ]; simpl; try exact IH.
  destruct (PyStr.is_empty s) eqn:E; simpl; [exact IH|].
  rewrite E. simpl. now rewrite IH.
Qed.

(** The copying loop reads the visual keys of [existing] only. *)
Lemma copy_visual_keys_ext existing1 existing2 entry :
  (forall key, In key NODE_VISUAL_KEYS ->
     nonempty_str (Dict.get key existing1) = nonempty_str (Dict.get key existing2)) ->
  copy_visual_keys existing1 entry = copy_visual_keys existing2 entry.
Proof.
  unfold copy_visual_keys. revert entry.
  induction NODE_VISUAL_KEYS as [|key keys IH]; intros entry H; [reflexivity|].
  simpl. rewrite (H key (or_introl eq_refl)). apply IH.
  intros k Hk. apply H. now right.
Qed.

Lemma nonempty_str_JStr v s : nonempty_str v = Some s -> nonempty_str (JStr s) = Some s.
Proof.
  destruct v as [ | | | |t| | ]; simpl; try discriminate.
  destruct (PyStr.is_empty t) eqn:E; [discriminate|]. intros [= <-]. simpl. now rewrite E.
Qed.

(** After the loop, a visual key holds what [existing] held for it,
    provided the entry did not hold the key before. *)
Lemma copy_visual_keys_get existing entry key :
  In key NODE_VISUAL_KEYS ->
  (forall k, In k NODE_VISUAL_KEYS -> Dict.get k entry = JNull) ->
  nonempty_str (Dict.get key (copy_visual_keys existing entry))
  = nonempty_str (Dict.get key existing).
Proof.
  intros Hin Hfree. unfold copy_visual_keys. simpl.
  pose proof (Hfree "background_color" (or_introl eq_refl)) as F1.
  pose proof (Hfree "border_color" (or_intror (or_introl eq_refl))) as F2.
  pose proof (Hfree "name_color" (or_intror (or_intror (or_introl eq_refl)))) as F3.
  destruct (nonempty_str (Dict.get "background_color" existing)) as [v1|] eqn:E1;
    destruct (nonempty_str (Dict.get "border_color" existing)) as [v2|] eqn:E2;
    destruct (nonempty_str (Dict.get "name_color" existing)) as [v3|] eqn:E3;
    simpl in Hin; destruct Hin as [<-|[<-|[<-|[]]]];
    rewrite ?get_set_same, ?get_set_other, ?F1, ?F2, ?F3, ?E1, ?E2, ?E3
      by discriminate;
    try reflexivity;
    eauto using nonempty_str_JStr.
  all: rewrite ?get_set_same, ?get_set_other, ?F1, ?F2, ?F3 by discriminate;
    try reflexivity; eauto using nonempty_str_JStr.
Qed.

Lemma file_entry_of_get k note existing sg cr md af :
  ~ In k NODE_VISUAL_KEYS -> k <> "attachment_folder" ->
  Dict.get k (file_entry_of note existing sg cr md af)
  = Dict.get k (file_entry_base note existing sg cr md).
Proof. apply file_entry_get. Qed.

Lemma file_entry_of_visual note existing sg cr md af key :
  In key NODE_VISUAL_KEYS ->
  nonempty_str (Dict.get key (file_entry_of note existing sg cr md af))
  = nonempty_str (Dict.get key existing).
Proof.
  intros Hin. unfold file_entry_of. apply copy_visual_keys_get; [exact Hin|].
  intros k Hk. rewrite get_set_other
    by (simpl in Hk; destruct Hk as [<-|[<-|[<-|[]]]]; discriminate).
  simpl in Hk. destruct Hk as [<-|[<-|[<-|[]]]]; reflexivity.
Qed.

(** Rebuilding over a file entry built from [existing] is building from
    [existing] again, with the same signature and creation time. *)
Lemma file_entry_of_rebuilt note existing sg cr md af sg' cr' md' af' :
  not_boolean (Dict.get "id" existing) ->
  file_entry_of note (file_entry_of note existing sg cr md af) sg' cr' md' af'
  = file_entry_of note existing sg' cr' md' af'.
Proof.
  intros Hid. set (entry := file_entry_of note existing sg cr md af).
  unfold file_entry_of at 1. fold entry.
  rewrite (copy_visual_keys_ext entry existing)
    by (intros key Hkey; apply file_entry_of_visual, Hkey).
  unfold file_entry_of. do 2 f_equal. unfold file_entry_base.
  assert (Hgid : Dict.get "id" entry
                 = JStr (or_else (parse_id_like (Dict.get "id" existing)) "0"))
    by (unfold entry; rewrite file_entry_of_get by (not_visual || discriminate);
        reflexivity).
  assert (Hgtags : Dict.get "tags" entry
                   = JList (map JStr (clean_tags (Dict.get "tags" existing))))
    by (unfold entry; rewrite file_entry_of_get by (not_visual || discriminate);
        reflexivity).
  rewrite Hgid, Hgtags, clean_tags_clean, (chosen_id_stable _ Hid). reflexivity.
Qed.

Lemma recorded_attachment_of note existing sg cr md af :
  recorded_attachment (file_entry_of note existing sg cr md af) = af.
Proof.
  unfold recorded_attachment, file_entry_of.
  rewrite get_copy_visual_other by not_visual. now rewrite get_set_same.
Qed.

Lemma chosen_attachment_again note existing sg cr md inferred :
  chosen_attachment
    (file_entry_of note existing sg cr md (chosen_attachment existing inferred))
    inferred
  = chosen_attachment existing inferred.
Proof.
  unfold chosen_attachment at 1. rewrite recorded_attachment_of.
  destruct (PyStr.is_empty (chosen_attachment existing inferred)) eqn:E;
    [|reflexivity].
  unfold chosen_attachment in *.
  destruct (PyStr.is_empty (recorded_attachment existing)) eqn:E'; [reflexivity|].
  congruence.
Qed.

(** A second build of a file entry over the first one, in a world where
    the inference finds the same folder, repeats the first one but for
    the modification time it reads. *)
Lemma file_entry_repeats fuel note existing w1 entry1 w1' w2 entry2 w2' :
  build_file_entry fuel note existing w1 = Ret entry1 w1' ->
  build_file_entry fuel note entry1 w2 = Ret entry2 w2' ->
  not_boolean (Dict.get "id" existing) ->
  not_boolean (Dict.get "signature" existing) ->
  inferred_folder (fs w2) note = inferred_folder (fs w1) note ->
  exists sg cr af,
    entry1 = file_entry_of note existing sg cr (stamp_of (observed_mtime w1 note)) af /\
    entry2 = file_entry_of note existing sg cr (stamp_of (observed_mtime w2 note)) af /\
    advanced w2 w2'.
Proof.
  intros H1 H2 Hid Hsig Hinf.
  pose proof (quiet_Ret _ _ _ _ (quiet_build_file_entry _ _ _) H2) as Hadv2.
  apply file_entry_shape in H1 as (wa & wb & sg & _ & Hsg & ->).
  apply file_entry_shape in H2 as (wc & wd & sg2 & _ & Hsg2 & ->).
  destruct (signature_or_fresh_isdigit _ _ _ _ _ Hsig Hsg) as [Hd Hz].
  rewrite file_entry_of_get in Hsg2 by (not_visual || discriminate).
  change (signature_or_fresh fuel (JStr sg) wc = Ret sg2 wd) in Hsg2.
  rewrite (signature_or_fresh_kept fuel sg wc Hd Hz) in Hsg2.
  injection Hsg2 as <- _.
  eexists sg, _, _. split; [reflexivity|]. split; [|exact Hadv2].
  rewrite Hinf, chosen_attachment_again, file_entry_of_rebuilt by exact Hid.
  f_equal. apply kept_or_kept.
  - rewrite file_entry_of_get by (not_visual || discriminate). reflexivity.
  - apply kept_or_not_empty, stamp_of_not_empty.
Qed.

(** *** One node config *)

Lemma Forall2_combine {A B} (R : A -> B -> Prop) l1 l2 a b :
  Forall2 R l1 l2 -> In (a, b) (combine l1 l2) -> R a b.
Proof.
  induction 1 as [|x y l1 l2 Hxy Hall IH]; simpl; [easy|].
  intros [[= <- <-]|Hin]; auto.
Qed.

Lemma Forall2_combine_l {A B} (R : A -> B -> Prop) l1 l2 a :
  Forall2 R l1 l2 -> In a l1 -> exists b, In (a, b) (combine l1 l2).
Proof.
  induction 1 as [|x y l1 l2 Hxy Hall IH]; simpl; [easy|].
  intros [<-|Hin]; [eauto|]. destruct (IH Hin) as [b Hb]. eauto.
Qed.

(** The entries built for the notes are found again under the names of
    the notes, when these are distinct and not empty. *)
Lemma first_named_built notes entries note entry :
  Forall2 (fun n e => Dict.get "name" e = JStr (Path.name n)) notes entries ->
  NoDup (map Path.name notes) ->
  Forall (fun n => Path.name n <> "") notes ->
  In (note, entry) (combine notes entries) ->
  first_named (Path.name note) (map JDict entries) = Some entry.
Proof.
  induction 1 as [|n e notes entries Hname Hall IH]; simpl; [easy|].
  intros Hnd Hne Hin. inversion Hnd as [|? ? Hnotin Hnd']; subst.
  inversion Hne as [|? ? Hn Hne']; subst.
  rewrite Hname. destruct Hin as [[= <- <-]|Hin].
  - rewrite String.eqb_refl.
    destruct (Path.name n); [congruence|reflexivity].
  - assert (Hdiff : String.eqb (Path.name n) (Path.name note) = false).
    { apply String.eqb_neq. intros Heq. apply Hnotin. rewrite Heq.
      apply in_map. eapply in_combine_l, Hin. }
    rewrite Hdiff, andb_false_r. auto.
Qed.

Lemma existing_entry_built key config notes entries note entry :
  Dict.get key config = JList (map JDict entries) ->
  Forall2 (fun n e => Dict.get "name" e = JStr (Path.name n)) notes entries ->
  NoDup (map Path.name notes) ->
  Forall (fun n => Path.name n <> "") notes ->
  In (note, entry) (combine notes entries) ->
  existing_entry key config (Path.name note) = entry.
Proof.
  intros Hget Hall Hnd Hne Hin. unfold existing_entry, Dict.get_default.
  rewrite Hget. unfold map_entries_by_name. rewrite fold_map_entries_lookup. simpl.
  now rewrite (first_named_built _ _ _ _ Hall Hnd Hne Hin).
Qed.

(** A node config as [build_node_config] assembles it. *)
Lemma node_config_shape fuel dir folders notes existing w config w' :
  build_node_config fuel dir folders notes existing w = Ret config w' ->
  exists w1 entries w2 w3 signature,
    advanced w w1 /\
    mapM (fun note =>
            build_file_entry fuel note
              (existing_entry "files" existing (Path.name note)))
         notes w1 = Ret entries w2 /\
    signature_or_fresh fuel (Dict.get "signature" existing) w2 = Ret signature w3 /\
    config = node_config_of existing signature
               (kept_or existing (stamp_of (observed_mtime w dir)))
               (stamp_of (observed_mtime w dir)) entries folders.
Proof.
  intros H. apply build_node_config_inv in H.
  destruct H as (mtime & w1 & fe & w2 & sg & w3 & cr & w4 & md
                 & H1 & H2 & H3 & H4 & H5 & ->).
  apply safe_mtime_Ret in H1 as [-> Hadv].
  destruct (times_of_build _ _ _ _ _ _ _ H4 H5) as [-> ->].
  exists w1, fe, w2, w3, sg. auto.
Qed.

Lemma node_config_of_get k existing sg cr md entries folders :
  ~ In k NODE_VISUAL_KEYS ->
  Dict.get k (node_config_of existing sg cr md entries folders)
  = Dict.get k (node_config_base existing sg cr md entries
                  (folder_entries_of existing folders)).
Proof. intros Hk. unfold node_config_of. now apply get_copy_visual_other. Qed.

Lemma node_config_of_visual existing sg cr md entries folders key :
  In key NODE_VISUAL_KEYS ->
  nonempty_str (Dict.get key (node_config_of existing sg cr md entries folders))
  = nonempty_str (Dict.get key existing).
Proof.
  intros Hin. unfold node_config_of. apply copy_visual_keys_get; [exact Hin|].
  intros k Hk. simpl in Hk. destruct Hk as [<-|[<-|[<-|[]]]]; reflexivity.
Qed.

Lemma build_folder_entry_again name existing :
  build_folder_entry name (build_folder_entry name existing)
  = build_folder_entry name existing.
Proof.
  unfold build_folder_entry. apply copy_visual_keys_ext. intros key Hkey.
  apply copy_visual_keys_get; [exact Hkey|].
  intros k Hk. simpl in Hk. destruct Hk as [<-|[<-|[<-|[]]]]; reflexivity.
Qed.

Lemma in_combine_map {A B} (f : A -> B) l a :
  In a l -> In (a, f a) (combine l (map f l)).
Proof.
  induction l as [|x l IH]; simpl; [easy|]. intros [<-|H]; auto.
Qed.

(** The folder entries of a config are rebuilt as they are. *)
Lemma folder_entries_again existing sg cr md entries folders :
  NoDup (map Path.name folders) ->
  Forall (fun n => Path.name n <> "") folders ->
  folder_entries_of (node_config_of existing sg cr md entries folders) folders
  = folder_entries_of existing folders.
Proof.
  intros Hnd Hne. unfold folder_entries_of. apply map_ext_in. intros folder Hin.
  rewrite (existing_entry_built "folders" _ folders
             (folder_entries_of existing folders) folder
             (build_folder_entry (Path.name folder)
                (existing_entry "folders" existing (Path.name folder)))).
  - apply build_folder_entry_again.
  - rewrite node_config_of_get by not_visual. reflexivity.
  - unfold folder_entries_of. clear. induction folders as [|f fs IH]; simpl;
      constructor; [apply folder_entry_name|exact IH].
  - exact Hnd.
  - exact Hne.
  - unfold folder_entries_of.
    apply (in_combine_map
             (fun f => build_folder_entry (Path.name f)
                         (existing_entry "folders" existing (Path.name f)))).
    exact Hin.
Qed.

Lemma carried_version_again config existing :
  Dict.get "version" config = carried_version existing ->
  carried_version config = carried_version existing.
Proof.
  intros H. unfold carried_version at 1. rewrite H. unfold carried_version.
  destruct (Dict.get "version" existing); reflexivity.
Qed.

(** Rebuilding over a node config built from [existing] is building from
    [existing] again. *)
Lemma node_config_of_rebuilt existing sg cr md entries folders sg' cr' md' entries' :
  not_boolean (Dict.get "id" existing) ->
  NoDup (map Path.name folders) ->
  Forall (fun n => Path.name n <> "") folders ->
  node_config_of (node_config_of existing sg cr md entries folders)
    sg' cr' md' entries' folders
  = node_config_of existing sg' cr' md' entries' folders.
Proof.
  intros Hid Hnd Hne. set (config := node_config_of existing sg cr md entries folders).
  unfold node_config_of at 1. fold config.
  rewrite (copy_visual_keys_ext config existing)
    by (intros key Hkey; apply node_config_of_visual, Hkey).
  unfold node_config_of. f_equal. unfold node_config_base.
  assert (Hgid : Dict.get "id" config
                 = JStr (or_else (parse_id_like (Dict.get "id" existing)) "0"))
    by (unfold config; rewrite node_config_of_get by not_visual; reflexivity).
  assert (Hgv : Dict.get "version" config = carried_version existing)
    by (unfold config; rewrite node_config_of_get by not_visual; reflexivity).
  rewrite Hgid, (chosen_id_stable _ Hid), (carried_version_again _ _ Hgv).
  unfold config. rewrite folder_entries_again by assumption. reflexivity.
Qed.

Lemma mapM_file_entries_repeat fuel (X Y : path -> dict json) n1 n2 notes :
  forall wa entries1 wa' wb entries2 wb',
    fs wa = n1 -> fs wb = n2 ->
    mapM (fun note => build_file_entry fuel note (X note)) notes wa
      = Ret entries1 wa' ->
    mapM (fun note => build_file_entry fuel note (Y note)) notes wb
      = Ret entries2 wb' ->
    (forall note entry, In (note, entry) (combine notes entries1) -> Y note = entry) ->
    (forall note, In note notes ->
       not_boolean (Dict.get "id" (X note)) /\
       not_boolean (Dict.get "signature" (X note)) /\
       inferred_folder n2 note = inferred_folder n1 note) ->
    Forall2 (repeats_entry n1 n2) entries1 entries2.
Proof.
  induction notes as [|note notes IH];
    intros wa entries1 wa' wb entries2 wb' Ha Hb H1 H2 HY Hok; simpl in H1, H2.
  - apply ret_Ret in H1 as [<- _]. apply ret_Ret in H2 as [<- _]. constructor.
  - apply bind_Ret in H1 as (e1 & wa1 & Hb1 & H1).
    apply bind_Ret in H1 as (es1 & wa2 & Hm1 & H1). apply ret_Ret in H1 as [<- <-].
    apply bind_Ret in H2 as (e2 & wb1 & Hb2 & H2).
    apply bind_Ret in H2 as (es2 & wb2 & Hm2 & H2). apply ret_Ret in H2 as [<- <-].
    rewrite (HY note e1 (or_introl eq_refl)) in Hb2.
    destruct (Hok note (or_introl eq_refl)) as (Hid & Hsig & Hinf).
    pose proof (quiet_Ret _ _ _ _ (quiet_build_file_entry _ _ _) Hb1) as (Fa & _).
    assert (Hinf' : inferred_folder (fs wb) note = inferred_folder (fs wa) note)
      by (now rewrite Ha, Hb).
    destruct (file_entry_repeats _ _ _ _ _ _ _ _ _ Hb1 Hb2 Hid Hsig Hinf')
      as (sg & cr & af & -> & -> & (Fb & _)).
    constructor.
    + exists note, (X note), sg, cr, af, wa, wb. auto.
    + eapply (IH wa1 es1 wa2 wb1 es2 wb2); eauto; try congruence.
      * intros n e Hin. apply HY. now right.
      * intros n Hin. apply Hok. now right.
Qed.

(** A second build of a node config over the first one, for the same
    scan and in a world where the inference finds the same folders,
    repeats the first one but for the modification times it reads,
    provided no id and no signature of the previous sidecar is a
    boolean. *)
Lemma node_config_repeats fuel dir folders notes existing w1 config1 w1' w2 config2 w2' :
  build_node_config fuel dir folders notes existing w1 = Ret config1 w1' ->
  build_node_config fuel dir folders notes config1 w2 = Ret config2 w2' ->
  not_boolean (Dict.get "id" existing) ->
  not_boolean (Dict.get "signature" existing) ->
  (forall note, In note notes ->
     let previous := existing_entry "files" existing (Path.name note) in
     not_boolean (Dict.get "id" previous) /\
     not_boolean (Dict.get "signature" previous) /\
     inferred_folder (fs w2) note = inferred_folder (fs w1) note) ->
  NoDup (map Path.name notes) -> Forall (fun n => Path.name n <> "") notes ->
  NoDup (map Path.name folders) -> Forall (fun n => Path.name n <> "") folders ->
  exists sg cr entries1 entries2,
    config1 = node_config_of existing sg cr
                (stamp_of (observed_mtime w1 dir)) entries1 folders /\
    config2 = node_config_of existing sg cr
                (stamp_of (observed_mtime w2 dir)) entries2 folders /\
    Forall2 (repeats_entry (fs w1) (fs w2)) entries1 entries2.
Proof.
  intros H1 H2 Hid Hsig Hnotes Hnd Hne Hndf Hnef.
  pose proof (node_config_lists _ _ _ _ _ _ _ _ H1) as [Hnames1 _].
  apply node_config_shape in H1 as (wa & fe1 & wa' & wa'' & sg & Hadva & Hm1 & Hsg1 & ->).
  apply node_config_shape in H2 as (wb & fe2 & wb' & wb'' & sg2 & Hadvb & Hm2 & Hsg2 & ->).
  set (config1 := node_config_of existing sg
                    (kept_or existing (stamp_of (observed_mtime w1 dir)))
                    (stamp_of (observed_mtime w1 dir)) fe1 folders) in *.
  assert (Hall1 : Forall2 (fun n e => Dict.get "name" e = JStr (Path.name n)) notes fe1).
  { eapply (mapM_Forall2 (fun _ => True)); [|exact I|exact Hm1].
    intros x wx y wy _ _ Hb. split; [|exact I]. eapply file_entry_name, Hb. }
  assert (Hfiles1 : Dict.get "files" config1 = JList (map JDict fe1))
    by (unfold config1; rewrite node_config_of_get by not_visual; reflexivity).
  assert (Hrep : Forall2 (repeats_entry (fs w1) (fs w2)) fe1 fe2).
  { eapply (mapM_file_entries_repeat fuel
              (fun note => existing_entry "files" existing (Path.name note))
              (fun note => existing_entry "files" config1 (Path.name note))
              (fs w1) (fs w2) notes wa fe1 wa' wb fe2 wb');
      try solve [apply Hadva | apply Hadvb | exact Hm1 | exact Hm2].
    - intros note entry Hin.
      now apply (existing_entry_built "files" config1 notes fe1 note entry).
    - intros note Hin. apply Hnotes, Hin. }
  destruct (signature_or_fresh_isdigit _ _ _ _ _ Hsig Hsg1) as [Hd Hz].
  unfold config1 in Hsg2. rewrite node_config_of_get in Hsg2 by not_visual.
  change (signature_or_fresh fuel (JStr sg) wb' = Ret sg2 wb'') in Hsg2.
  rewrite (signature_or_fresh_kept fuel sg wb' Hd Hz) in Hsg2.
  injection Hsg2 as <- _.
  exists sg, (kept_or existing (stamp_of (observed_mtime w1 dir))), fe1, fe2.
  split; [reflexivity|]. split; [|exact Hrep].
  unfold config1. rewrite node_config_of_rebuilt by assumption. f_equal.
  apply kept_or_kept.
  - rewrite node_config_of_get by not_visual. reflexivity.
  - apply kept_or_not_empty, stamp_of_not_empty.
Qed.

Lemma repeats_entry_fields n1 n2 e1 e2 :
  repeats_entry n1 n2 e1 e2 ->
  forall k,
    In k ["name"; "id"; "signature"; "created_time"; "tags"; "attachment_folder"] ->
    Dict.get k e1 = Dict.get k e2.
Proof.
  intros (note & previous & sg & cr & af & wa & wb & _ & _ & -> & ->) k Hk.
  simpl in Hk. destruct Hk as [<-|[<-|[<-|[<-|[<-|[<-|[]]]]]]];
    try (rewrite !file_entry_of_get by (not_visual || discriminate); reflexivity).
  unfold file_entry_of. rewrite !get_copy_visual_other by not_visual.
  now rewrite !get_set_same.
Qed.

(** X19. In the fields the specification lists: with no boolean among the
    previous ids and signatures, the second build has the id, the
    signature, the creation time, the version and the folders of the
    first, and file entries with the names, ids, signatures, creation
    times, tags and attachment folders of the first, in the same
    order. *)
Lemma second_build_keeps_ids_and_signatures
    fuel dir folders notes existing w1 config1 w1' w2 config2 w2' :
  build_node_config fuel dir folders notes existing w1 = Ret config1 w1' ->
  build_node_config fuel dir folders notes config1 w2 = Ret config2 w2' ->
  not_boolean (Dict.get "id" existing) ->
  not_boolean (Dict.get "signature" existing) ->
  (forall note, In note notes ->
     let previous := existing_entry "files" existing (Path.name note) in
     not_boolean (Dict.get "id" previous) /\
     not_boolean (Dict.get "signature" previous) /\
     inferred_folder (fs w2) note = inferred_folder (fs w1) note) ->
  NoDup (map Path.name notes) -> Forall (fun n => Path.name n <> "") notes ->
  NoDup (map Path.name folders) -> Forall (fun n => Path.name n <> "") folders ->
  (forall k, In k ["version"; "id"; "signature"; "created_time"; "folders"] ->
     Dict.get k config2 = Dict.get k config1) /\
  exists entries1 entries2,
    Dict.get "files" config1 = JList (map JDict entries1) /\
    Dict.get "files" config2 = JList (map JDict entries2) /\
    Forall2
      (fun e1 e2 =>
         forall k,
           In k ["name"; "id"; "signature"; "created_time"; "tags";
                 "attachment_folder"] ->
           Dict.get k e1 = Dict.get k e2)
      entries1 entries2.
Proof.
  intros H1 H2 Hid Hsig Hnotes Hnd Hne Hndf Hnef.
  destruct (node_config_repeats _ _ _ _ _ _ _ _ _ _ _ H1 H2 Hid Hsig Hnotes
              Hnd Hne Hndf Hnef) as (sg & cr & fe1 & fe2 & -> & -> & Hrep).
  split.
  - intros k Hk. simpl in Hk.
    destruct Hk as [<-|[<-|[<-|[<-|[<-|[]]]]]];
      rewrite !node_config_of_get by not_visual; reflexivity.
  - exists fe1, fe2.
    split; [rewrite node_config_of_get by not_visual; reflexivity|].
    split; [rewrite node_config_of_get by not_visual; reflexivity|].
    eapply Forall2_impl; [|exact Hrep]. intros e1 e2. apply repeats_entry_fields.
Qed.

(** ** The statements at the sample notebook *)

Lemma signature_invariant_witness :
  (exists k, (k < 2)%nat /\ 0 < rng Sample.start k mod 2 ^ 63) /\
  (exists s w', generate_signature 2 Sample.start = Ret s w') /\
  Dict.get "signature" Sample.previous = JStr "0" /\
  (exists config w' s,
     build_node_config 2 [] [] [] Sample.previous Sample.start = Ret config w' /\
     Dict.get "signature" config = JStr s /\
     fresh_signature Sample.start s /\ s <> "0").
Proof.
  assert (Hdraw : exists k, (k < 2)%nat /\ 0 < rng Sample.start k mod 2 ^ 63)
    by (exists 1%nat; split; [lia|reflexivity]).
  destruct (signature_invariant 2 Sample.start) as (_ & Hreturns & _ & _ & Hzero).
  split; [exact Hdraw|]. split; [exact (Hreturns Hdraw)|]. split; [reflexivity|].
  destruct (Hzero Sample.previous eq_refl) as [_ Hnode].
  assert (Hrun : exists config w',
            build_node_config 2 [] [] [] Sample.previous Sample.start = Ret config w')
    by (eexists; eexists; vm_compute; reflexivity).
  destruct Hrun as (config & w' & Hrun).
  destruct (Hnode [] [] [] config w' Hrun) as (s & Hs).
  exists config, w', s. split; [exact Hrun|exact Hs].
Defined.

Lemma parse_id_like_normalises_witness :
  plain_raw_value (JStr " 12 ") /\
  parse_id_like (JStr " 12 ") = Some "12" /\
  decimal_digits "12" /\
  Dict.get "id" Sample.previous = JStr " 12 " /\
  (exists config w',
     build_node_config 2 [] [] [] Sample.previous Sample.start = Ret config w' /\
     Dict.get "id" config = JStr "12").
Proof.
  assert (Hplain : plain_raw_value (JStr " 12 ")) by reflexivity.
  destruct (parse_id_like_normalises (JStr " 12 ") Hplain) as (Hiff & Hdigits & Hids).
  split; [exact Hplain|].
  assert (Hparse : parse_id_like (JStr " 12 ") = Some "12").
  { apply Hiff. right. exists " 12 ". repeat split. }
  split; [exact Hparse|]. split; [exact (Hdigits "12" Hparse)|].
  split; [reflexivity|].
  destruct (Hids 2%nat Sample.previous eq_refl) as [_ Hnode].
  assert (Hrun : exists config w',
            build_node_config 2 [] [] [] Sample.previous Sample.start = Ret config w')
    by (eexists; eexists; vm_compute; reflexivity).
  destruct Hrun as (config & w' & Hrun).
  exists config, w'. split; [exact Hrun|exact (Hnode [] [] [] Sample.start config w' Hrun)].
Defined.

Lemma boolean_version_carried_through_witness :
  exists config w',
    Dict.get "version" Sample.previous = JBool true /\
    build_node_config 2 [] [] [] Sample.previous Sample.start = Ret config w' /\
    Dict.get "version" config = JBool true.
Proof.
  eexists. eexists.
  assert (Hrun : build_node_config 2 [] [] [] Sample.previous Sample.start
                 = Ret _ _) by (vm_compute; reflexivity).
  split; [reflexivity|]. split; [exact Hrun|].
  exact (proj1 (boolean_version_carried_through 2 [] [] [] Sample.previous true
                  Sample.start _ _ eq_refl Hrun)).
Defined.

Lemma scanner_orders_by_casefolded_name_witness :
  iter_children ["sub"] Sample.start
  = Ret ([], [["sub"; "a.md"]; ["sub"; "B.md"]; ["sub"; "C.md"]]) Sample.start.
Proof.
  destruct (scanner_orders_by_casefolded_name ["sub"] Sample.start) as [_ Hnotes].
  refine (proj1 (Hnotes
            [ ("B.md", Sample.note 1700000003000000);
              ("a.md", Sample.note 1700000004000000);
              ("C.md", Sample.note 1700000005999999) ] eq_refl
            (Permutation_refl _) _)).
  intros name x [H|[H|[H|[]]]]; injection H as <- <-; eexists; eexists; reflexivity.
Defined.


Lemma attachment_folder_inference_witness :
  FS.is_dir (fs Sample.start) (assets_root_of ["foo.md"]) = true /\
  subdirs_of (fs Sample.start)
    (Path.join (assets_root_of ["foo.md"]) "vx_attachments") = Some ["img1"] /\
  inferred_folder (fs Sample.start) ["foo.md"] = "img1" /\
  FS.is_dir (fs Sample.start) (assets_root_of ["sub"; "a.md"]) = false /\
  inferred_folder (fs Sample.start) ["sub"; "a.md"] = "".
Proof.
  destruct (attachment_folder_inference Sample.start ["foo.md"])
    as (_ & _ & _ & _ & Hone & _).
  destruct (attachment_folder_inference Sample.start ["sub"; "a.md"])
    as (_ & _ & Hmissing & _).
  split; [reflexivity|]. split; [reflexivity|].
  split; [exact (Hone "img1" eq_refl eq_refl)|].
  split; [reflexivity|exact (Hmissing eq_refl)].
Defined.


Lemma excluded_directories_never_appear_witness :
  exists r w',
    iter_children [] Sample.start
      = Ret ([["sub"]], [["Bar.MD"]; ["foo.md"]]) Sample.start /\
    ~ excluded_name "sub" /\
    rebuild_recursively Sample.json_loads Sample.json_dumps "/nb" 3 3 []
      false true Sample.start = Ret r w' /\
    logs (visit_event Sample.json_dumps "/nb" []) Sample.start w'.
Proof.
  destruct (excluded_directories_never_appear Sample.json_loads Sample.json_dumps
              "/nb" [] Sample.start) as [Hscan Hwalk].
  assert (Hrun : exists r w',
            rebuild_recursively Sample.json_loads Sample.json_dumps "/nb" 3 3 []
              false true Sample.start = Ret r w')
    by (eexists; eexists; vm_compute; reflexivity).
  destruct Hrun as (r & w' & Hrun).
  assert (Hiter : iter_children [] Sample.start
                  = Ret ([["sub"]], [["Bar.MD"]; ["foo.md"]]) Sample.start)
    by (vm_compute; reflexivity).
  exists r, w'. split; [exact Hiter|].
  destruct (Hscan _ _ _ Hiter) as (Hfolders & _ & _).
  destruct (Hfolders ["sub"] (or_introl eq_refl)) as (name & Hname & Hex & _).
  injection Hname as <-.
  split; [exact Hex|]. split; [exact Hrun|exact (Hwalk _ _ _ _ _ _ Hrun)].
Defined.

Lemma dry_run_leaves_sidecars_untouched_witness :
  exists r w',
    rebuild_recursively Sample.json_loads Sample.json_dumps "/nb" 3 3 []
      true false Sample.start = Ret r w' /\
    fs w' = Sample.tree /\
    log w' = [ Printed "/nb/vx.json  folders=1 md=2";
               Printed "/nb/sub/vx.json  folders=0 md=3" ] /\
    r = (2, 1, 5)%nat.
Proof.
  assert (Hrun : exists r w',
            rebuild_recursively Sample.json_loads Sample.json_dumps "/nb" 3 3 []
              true false Sample.start = Ret r w')
    by (eexists; eexists; vm_compute; reflexivity).
  destruct Hrun as (r & w' & Hrun). exists r, w'.
  destruct (dry_run_leaves_sidecars_untouched _ _ _ _ _ _ _ _ _ _ Hrun)
    as (Hfs & _ & Hlog & _ & _ & Hr & _).
  split; [exact Hrun|]. split; [exact Hfs|]. split; [exact Hlog|exact Hr].
Defined.

Lemma boolean_id_changes_on_second_run_witness :
  exists w1 w2,
    rebuild_recursively boolean_id_loads Sample.json_dumps "/nb" 1 1 [] false false
      boolean_id_world = Ret (1, 0, 0)%nat w1 /\
    rebuild_recursively boolean_id_loads Sample.json_dumps "/nb" 1 1 [] false false
      w1 = Ret (1, 0, 0)%nat w2 /\
    loaded boolean_id_loads (fs w1) ["vx.json"] = boolean_id_first_config /\
    Dict.get "id" boolean_id_first_config = JStr "True" /\
    Dict.get "id" boolean_id_second_config = JStr "0".
Proof.
  destruct (boolean_id_changes_on_second_run boolean_id_loads Sample.json_dumps "/nb"
              eq_refl eq_refl)
    as (w1 & w2 & Hrun1 & Hfs1 & Hrun2 & _ & Hid1 & Hid2).
  exists w1, w2. split; [exact Hrun1|]. split; [exact Hrun2|].
  split; [rewrite Hfs1; reflexivity|]. split; [exact Hid1|exact Hid2].
Defined.

(** * Further properties

    Properties of the code that the numbered claims leave out.  They
    are numbered X1, X2, ... *)

(** ** Signatures: which draw is taken *)

Lemma generate_signature_skips fuel : forall w k,
  (k < fuel)%nat ->
  (forall j, (j < k)%nat -> draw w j = 0) ->
  0 < draw w k ->
  generate_signature fuel w = Ret (PyStr.str_int (draw w k)) (after_draws (S k) w).
Proof.
  induction fuel as [|fuel IH]; intros w k Hk Hzero Hpos; [lia|].
  simpl. unfold bind, getrandbits. destruct k as [|k].
  - unfold draw in Hpos. apply Z.ltb_lt in Hpos. rewrite Hpos. reflexivity.
  - pose proof (Hzero O ltac:(lia)) as H0. unfold draw in H0. rewrite H0.
    change (0 <? 0) with false. cbv iota.
    rewrite (IH _ k); [reflexivity|lia| |exact Hpos].
    intros j Hj. apply (Hzero (S j)). lia.
Qed.

Lemma generate_signature_exhausted fuel : forall w,
  (forall j, (j < fuel)%nat -> draw w j = 0) ->
  generate_signature fuel w = OutOfFuel.
Proof.
  induction fuel as [|fuel IH]; intros w Hzero; [reflexivity|].
  simpl. unfold bind, getrandbits.
  pose proof (Hzero O ltac:(lia)) as H0. unfold draw in H0. rewrite H0.
  change (0 <? 0) with false. cbv iota. apply IH.
  intros j Hj. apply (Hzero (S j)). lia.
Qed.

(** X1. [generate_signature] returns the first strictly positive draw,
    rendered in decimal, and consumes the draws up to and including it;
    when that draw lies beyond the budget of the model the loop is still
    running. *)
Theorem generate_signature_takes_first_positive_draw (fuel : nat) (w : world) (k : nat) :
  (forall j, (j < k)%nat -> draw w j = 0) ->
  0 < draw w k ->
  generate_signature fuel w =
  if (k <? fuel)%nat
  then Ret (PyStr.str_int (draw w k)) (after_draws (S k) w)
  else OutOfFuel.
Proof.
  intros Hzero Hpos. destruct (k <? fuel)%nat eqn:E.
  - apply Nat.ltb_lt in E. now apply generate_signature_skips.
  - apply Nat.ltb_ge in E. apply generate_signature_exhausted.
    intros j Hj. apply Hzero. lia.
Qed.

(** ** Ids and signatures read back *)

Lemma str_int_zero_iff z : 0 <= z -> (PyStr.str_int z = "0" <-> z = 0).
Proof.
  intros Hz. split; [|intros ->; reflexivity].
  intros H. apply (str_int_inj z 0). exact H.
Qed.

Lemma parse_signature_like_int z s :
  parse_signature_like (JInt z) = Some s <-> 0 < z /\ s = PyStr.str_int z.
Proof.
  unfold parse_signature_like, parse_id_like. destruct (0 <=? z) eqn:E.
  - apply Z.leb_le in E. destruct (String.eqb (PyStr.str_int z) "0") eqn:E0; simpl.
    + apply String.eqb_eq, str_int_zero_iff in E0; [|exact E]. split; [discriminate|].
      intros [H _]. lia.
    + apply String.eqb_neq in E0. split.
      * intros [= <-]. split; [|reflexivity].
        destruct (Z.eq_dec z 0) as [->|]; [now elim E0|lia].
      * intros [_ ->]. reflexivity.
  - apply Z.leb_gt in E. split; [discriminate|]. intros [H _]. lia.
Qed.

Lemma zeros_isdigit n : PyStr.isdigit (PyTime.zeros (S n)) = true.
Proof.
  unfold PyStr.isdigit. simpl. induction n as [|n IH]; [reflexivity|exact IH].
Qed.

Lemma parse_signature_like_zeros n :
  parse_signature_like (JStr (PyTime.zeros (S (S n)))) = Some (PyTime.zeros (S (S n))).
Proof.
  unfold parse_signature_like.
  rewrite (parse_id_like_digits _ (zeros_isdigit (S n))). reflexivity.
Qed.

(** X10. What [parse_id_like] accepts from a value that is not a boolean
    is a fixed point of the parser: read back as a string it is accepted
    unchanged, as an id and, unless it is ["0"], as a signature. *)
Theorem accepted_id_parses_to_itself (value : json) (s : string) :
  not_boolean value ->
  parse_id_like value = Some s ->
  parse_id_like (JStr s) = Some s /\
  (parse_signature_like value = Some s <-> s <> "0") /\
  (s <> "0" -> parse_signature_like (JStr s) = Some s).
Proof.
  intros Hnb H. pose proof (parse_id_like_isdigit _ _ Hnb H) as Hd.
  pose proof (parse_id_like_digits s Hd) as Hs. split; [exact Hs|].
  unfold parse_signature_like. rewrite H, Hs.
  destruct (String.eqb s "0") eqn:E; simpl.
  - apply String.eqb_eq in E. split; [split; [discriminate|congruence]|congruence].
  - apply String.eqb_neq in E. split; [split; auto|auto].
Qed.

(** X11. An integer is accepted as a signature exactly when it is
    strictly positive; a string is judged by its text, so that only the
    text ["0"] is refused and a run of two or more zeros is kept. *)
Theorem integer_signature_accepted_iff_positive :
  (forall z s, parse_signature_like (JInt z) = Some s <-> 0 < z /\ s = PyStr.str_int z) /\
  (forall n,
     parse_signature_like (JStr (PyTime.zeros (S (S n)))) = Some (PyTime.zeros (S (S n)))) /\
  parse_signature_like (JStr " 0 ") = None.
Proof.
  split; [exact parse_signature_like_int|]. split; [exact parse_signature_like_zeros|].
  reflexivity.
Qed.

(** ** Names: letter case, the note suffix, the assets directory *)

Lemma dot_lower_char c : Ascii.eqb "." (PyStr.lower_char c) = Ascii.eqb "." c.
Proof. destruct c as [[] [] [] [] [] [] [] []]; vm_compute; reflexivity. Qed.

Lemma startswith_empty s : PyStr.startswith s "" = true.
Proof. destruct s; reflexivity. Qed.

Lemma startswith_dot c s : PyStr.startswith (String c s) "." = Ascii.eqb "." c.
Proof. cbn -[Ascii.eqb]. now rewrite startswith_empty, andb_true_r. Qed.

Lemma is_hidden_name_lower name : is_hidden_name (PyStr.lower name) = is_hidden_name name.
Proof.
  destruct name as [|c name]; [reflexivity|].
  unfold is_hidden_name, PyStr.lower. cbn -[Ascii.eqb].
  now rewrite dot_lower_char, !startswith_empty.
Qed.

Lemma should_exclude_dir_lower name :
  should_exclude_dir name =
  is_hidden_name (PyStr.lower name)
  || PyStr.endswith (PyStr.lower name) "_assets"
  || existsb (String.eqb (PyStr.lower name)) BUILT_IN_DIR_NAMES.
Proof.
  unfold should_exclude_dir. rewrite is_hidden_name_lower.
  destruct (is_hidden_name name); [reflexivity|].
  destruct (PyStr.endswith (PyStr.lower name) "_assets"); [reflexivity|].
  destruct (existsb _ _); reflexivity.
Qed.

(** X2. Exclusion does not depend on letter case: two directory names
    with the same lower-case form are both excluded or both kept. *)
Theorem exclusion_ignores_letter_case (a b : string) :
  PyStr.lower a = PyStr.lower b -> should_exclude_dir a = should_exclude_dir b.
Proof.
  intros H. rewrite (should_exclude_dir_lower a), (should_exclude_dir_lower b).
  now rewrite H.
Qed.

Lemma rfind_app_last c a b :
  PyStr.rfind c b = None ->
  PyStr.rfind c (a ++ String c b)%string = Some (String.length a).
Proof.
  intros Hb. induction a as [|x a IH]; simpl.
  - rewrite Hb, Ascii.eqb_refl. reflexivity.
  - rewrite IH. reflexivity.
Qed.

Lemma rfind_Some_split c s : forall i,
  PyStr.rfind c s = Some i ->
  exists a b, s = (a ++ String c b)%string /\ String.length a = i /\ PyStr.rfind c b = None.
Proof.
  induction s as [|x s IH]; simpl; intros i H; [discriminate|].
  destruct (PyStr.rfind c s) as [j|] eqn:E.
  - injection H as <-. destruct (IH j eq_refl) as (a & b & -> & <- & Hb).
    exists (String x a), b. auto.
  - destruct (Ascii.eqb x c) eqn:Ex; [|discriminate]. injection H as <-.
    apply Ascii.eqb_eq in Ex. subst x. exists EmptyString, s. auto.
Qed.

Lemma substring_all s : substring 0 (String.length s) s = s.
Proof. induction s as [|c s IH]; simpl; [reflexivity|now rewrite IH]. Qed.

Lemma substring_app_skip a s k :
  substring (String.length a) k (a ++ s)%string = substring 0 k s.
Proof. induction a as [|c a IH]; simpl; [reflexivity|exact IH]. Qed.

Lemma substring_split s : forall m,
  (m <= String.length s)%nat ->
  s = (substring 0 m s ++ substring m (String.length s - m) s)%string.
Proof.
  induction s as [|c s IH]; intros m Hm; simpl in *.
  - destruct m; [reflexivity|lia].
  - destruct m as [|m]; simpl.
    + now rewrite substring_all.
    + f_equal. apply IH. lia.
Qed.

Lemma str_length_app (a b : string) :
  String.length (a ++ b)%string = (String.length a + String.length b)%nat.
Proof. induction a as [|c a IH]; simpl; [reflexivity|now rewrite IH]. Qed.

Lemma endswith_iff s p :
  PyStr.endswith s p = true <-> exists a, s = (a ++ p)%string.
Proof.
  unfold PyStr.endswith. rewrite andb_true_iff, Nat.leb_le, String.eqb_eq. split.
  - intros [Hle Hsub].
    exists (substring 0 (String.length s - String.length p) s).
    pose proof (substring_split s (String.length s - String.length p) ltac:(lia)) as H.
    replace (String.length s - (String.length s - String.length p))%nat
      with (String.length p) in H by lia.
    now rewrite Hsub in H.
  - intros [a ->]. rewrite str_length_app. split; [lia|].
    replace (String.length a + String.length p - String.length p)%nat
      with (String.length a) by lia.
    rewrite substring_app_skip. apply substring_all.
Qed.

Lemma map_str_length f s : String.length (PyStr.map_str f s) = String.length s.
Proof. induction s as [|c s IH]; simpl; [reflexivity|now rewrite IH]. Qed.

Lemma map_str_substring f s : forall i k,
  PyStr.map_str f (substring i k s) = substring i k (PyStr.map_str f s).
Proof.
  induction s as [|c s IH]; intros i k; simpl.
  - destruct i, k; reflexivity.
  - destruct i as [|i]; [destruct k as [|k]|]; simpl; [reflexivity| |apply IH].
    f_equal. apply IH.
Qed.

Lemma rfind_dot_lower s : PyStr.rfind "." (PyStr.lower s) = PyStr.rfind "." s.
Proof.
  induction s as [|c s IH]; simpl; [reflexivity|].
  unfold PyStr.lower in IH. rewrite IH.
  rewrite (Ascii.eqb_sym (PyStr.lower_char c)), dot_lower_char, (Ascii.eqb_sym "." c).
  reflexivity.
Qed.

Lemma suffix_index_lower name :
  Path.suffix_index (PyStr.lower name) = Path.suffix_index name.
Proof.
  unfold Path.suffix_index. rewrite rfind_dot_lower.
  unfold PyStr.lower. now rewrite map_str_length.
Qed.

Lemma suffix_lower (dir : path) name :
  PyStr.lower (Path.suffix (dir ++ [name])) = Path.suffix [PyStr.lower name].
Proof.
  unfold Path.suffix. rewrite name_snoc. change (Path.name [PyStr.lower name])
    with (PyStr.lower name).
  rewrite suffix_index_lower. destruct (Path.suffix_index name) as [i|]; [|reflexivity].
  unfold PyStr.lower. now rewrite map_str_substring, map_str_length.
Qed.

Lemma suffix_of_plain_name s ext :
  PyStr.startswith s "." = false ->
  PyStr.rfind "." ext = Some O ->
  (2 <= String.length ext)%nat ->
  (Path.suffix [s] = ext <-> exists a, s = (a ++ ext)%string).
Proof.
  intros Hdot Hext Hlen.
  destruct ext as [|e0 ext']; [discriminate|].
  assert (He0 : e0 = "."%char /\ PyStr.rfind "." ext' = None).
  { simpl in Hext. destruct (PyStr.rfind "." ext'); [discriminate|].
    destruct (Ascii.eqb e0 ".") eqn:E; [|discriminate].
    apply Ascii.eqb_eq in E. auto. }
  destruct He0 as [-> Hnone].
  unfold Path.suffix. change (Path.name [s]) with s. unfold Path.suffix_index. split.
  - destruct (PyStr.rfind "." s) as [i|] eqn:Hr; [|discriminate].
    destruct ((0 <? i)%nat && (i <? String.length s - 1)%nat); [|discriminate].
    destruct (rfind_Some_split _ _ _ Hr) as (a & b & -> & <- & Hb). intros H.
    rewrite str_length_app in H.
    replace (String.length a + String.length (String "." b) - String.length a)%nat
      with (String.length (String "." b)) in H by lia.
    rewrite substring_app_skip, substring_all in H. exists a. now rewrite H.
  - intros [a ->]. rewrite (rfind_app_last _ _ _ Hnone).
    assert (Ha : (0 < String.length a)%nat).
    { destruct a; [|simpl; lia].
      change (PyStr.startswith (String "." ext') "." = false) in Hdot.
      rewrite startswith_dot in Hdot. discriminate. }
    rewrite str_length_app. simpl String.length in *.
    replace ((0 <? String.length a)%nat) with true by (symmetry; apply Nat.ltb_lt; lia).
    replace ((String.length a <? String.length a + S (String.length ext') - 1)%nat)
      with true by (symmetry; apply Nat.ltb_lt; lia).
    simpl andb. cbv iota.
    replace (String.length a + S (String.length ext') - String.length a)%nat
      with (String.length (String "." ext')) by (simpl; lia).
    rewrite substring_app_skip. apply substring_all.
Qed.

Lemma note_suffix_endswith (dir : path) name :
  PyStr.startswith name "." = false ->
  String.eqb (PyStr.lower (Path.suffix (Path.join dir name))) NOTE_SUFFIX
  = PyStr.endswith (PyStr.lower name) NOTE_SUFFIX.
Proof.
  intros Hdot. unfold Path.join. rewrite suffix_lower.
  assert (Hdot' : PyStr.startswith (PyStr.lower name) "." = false)
    by (pose proof (is_hidden_name_lower name) as H; unfold is_hidden_name in H;
        congruence).
  pose proof (suffix_of_plain_name (PyStr.lower name) NOTE_SUFFIX Hdot' eq_refl
                ltac:(simpl; lia)) as Hiff.
  destruct (PyStr.endswith (PyStr.lower name) NOTE_SUFFIX) eqn:E.
  - apply String.eqb_eq, Hiff, endswith_iff, E.
  - apply String.eqb_neq. intros H. apply Hiff, endswith_iff in H. congruence.
Qed.

(** X3. A file whose name does not start with a dot has the note suffix
    exactly when its lower-cased name ends in [".md"]; a file called
    [".md"] has no suffix and is not a note. *)
Theorem plain_name_is_a_note_iff_it_ends_in_md (dir : path) (name : string) :
  (PyStr.startswith name "." = false ->
   String.eqb (PyStr.lower (Path.suffix (Path.join dir name))) NOTE_SUFFIX
   = PyStr.endswith (PyStr.lower name) NOTE_SUFFIX) /\
  String.eqb (PyStr.lower (Path.suffix (Path.join dir ".md"))) NOTE_SUFFIX = false.
Proof.
  split; [apply note_suffix_endswith|].
  unfold Path.join. rewrite suffix_lower. reflexivity.
Qed.

Lemma substring_prefix a b : substring 0 (String.length a) (a ++ b)%string = a.
Proof. induction a as [|c a IH]; simpl; [now destruct b|now rewrite IH]. Qed.

Lemma lower_app a b : PyStr.lower (a ++ b)%string = (PyStr.lower a ++ PyStr.lower b)%string.
Proof.
  unfold PyStr.lower. induction a as [|c a IH]; simpl; [reflexivity|now rewrite IH].
Qed.

Lemma startswith_dot_app base ext :
  base <> "" -> PyStr.startswith (base ++ ext)%string "." = PyStr.startswith base ".".
Proof.
  destruct base as [|c base]; [congruence|]. intros _.
  change (String c base ++ ext)%string with (String c (base ++ ext)%string).
  now rewrite !startswith_dot.
Qed.

Lemma note_extension ext :
  PyStr.lower ext = NOTE_SUFFIX ->
  exists c1 c2,
    ext = String "." (String c1 (String c2 "")) /\
    PyStr.rfind "." (String c1 (String c2 "")) = None.
Proof.
  destruct ext as [|c0 [|c1 [|c2 [|c3 ext]]]]; try discriminate.
  unfold PyStr.lower. simpl. intros [= H0 H1 H2].
  pose proof (dot_lower_char c0) as D0. rewrite H0 in D0.
  pose proof (dot_lower_char c1) as D1. rewrite H1 in D1.
  pose proof (dot_lower_char c2) as D2. rewrite H2 in D2.
  symmetry in D0. apply Ascii.eqb_eq in D0. subst c0.
  exists c1, c2. split; [reflexivity|].
  simpl. rewrite (Ascii.eqb_sym c2), (Ascii.eqb_sym c1), <- D1, <- D2. reflexivity.
Qed.

Lemma stem_of_note (dir : path) base ext :
  PyStr.startswith base "." = false -> base <> "" ->
  PyStr.lower ext = NOTE_SUFFIX ->
  Path.stem (Path.join dir (base ++ ext)%string) = base /\
  Path.suffix (Path.join dir (base ++ ext)%string) = ext.
Proof.
  intros Hdot Hne Hext. destruct (note_extension ext Hext) as (c1 & c2 & -> & Hnone).
  unfold Path.stem, Path.suffix, Path.join. rewrite name_snoc.
  unfold Path.suffix_index. rewrite (rfind_app_last _ _ _ Hnone).
  assert (Ha : (0 < String.length base)%nat) by (destruct base; [congruence|simpl; lia]).
  rewrite str_length_app. simpl String.length.
  replace ((0 <? String.length base)%nat) with true by (symmetry; apply Nat.ltb_lt; lia).
  replace ((String.length base <? String.length base + 3 - 1)%nat)
    with true by (symmetry; apply Nat.ltb_lt; lia).
  simpl andb. cbv iota. split; [apply substring_prefix|].
  replace (String.length base + 3 - String.length base)%nat with 3%nat by lia.
  rewrite substring_app_skip. reflexivity.
Qed.

Lemma assets_name_excluded base : should_exclude_dir (base ++ "_assets")%string = true.
Proof.
  rewrite should_exclude_dir_lower, lower_app.
  assert (H : PyStr.endswith (PyStr.lower base ++ PyStr.lower "_assets")%string "_assets"
              = true) by (apply endswith_iff; eexists; reflexivity).
  rewrite H. now rewrite orb_true_r.
Qed.

(** X21. The assets directory of a note is never scanned as a folder:
    for a note called [base ++ ext], where [ext] is [.md] in any letter
    case and [base] is not empty and does not start with a dot, the
    scanner sees the note suffix, the inference looks into the sibling
    [base ++ "_assets"], and that name is excluded from the folders. *)
Theorem note_assets_folder_is_never_scanned (dir : path) (base ext : string) :
  PyStr.startswith base "." = false -> base <> "" ->
  PyStr.lower ext = NOTE_SUFFIX ->
  let note := Path.join dir (base ++ ext)%string in
  String.eqb (PyStr.lower (Path.suffix note)) NOTE_SUFFIX = true /\
  assets_root_of note = Path.join dir (base ++ "_assets")%string /\
  should_exclude_dir (base ++ "_assets")%string = true.
Proof.
  intros Hdot Hne Hext note.
  destruct (stem_of_note dir base ext Hdot Hne Hext) as [Hstem Hsuffix].
  split; [|split].
  - unfold note. rewrite Hsuffix, Hext. reflexivity.
  - unfold assets_root_of, note. rewrite Hstem. unfold Path.join.
    now rewrite parent_snoc.
  - apply assets_name_excluded.
Qed.

(** ** The scanner, completely *)

Lemma iter_children_run dir w :
  iter_children dir w =
  match children_of (fs w) dir with
  | Some children =>
      Ret (sort_by_key name_key (filter (keeps_folder (fs w)) children),
           sort_by_key name_key (filter (keeps_note (fs w)) children)) w
  | None => Raise OSError w
  end.
Proof.
  unfold iter_children, children_of, bind, iterdir.
  destruct (FS.entries_of (fs w) dir) as [entries|]; [|reflexivity].
  rewrite foldM_classify. reflexivity.
Qed.

Lemma children_of_is_dir n dir :
  FS.is_dir n dir = true <-> exists children, children_of n dir = Some children.
Proof.
  unfold children_of. rewrite is_dir_entries.
  destruct (FS.entries_of n dir); split; intros H; eauto; try congruence.
  destruct H as [c H]. discriminate.
Qed.

Lemma keeps_exclusive n child :
  keeps_folder n child = true -> keeps_note n child = false.
Proof.
  unfold keeps_folder, keeps_note. intros H.
  apply andb_true_iff in H as [H _]. apply andb_true_iff in H as [_ H].
  rewrite H. simpl. now rewrite !andb_false_r.
Qed.

Lemma filter_exclusive_length {A} (f g : A -> bool) l :
  (forall x, f x = true -> g x = false) ->
  (List.length (filter f l) + List.length (filter g l) <= List.length l)%nat.
Proof.
  intros Hex. induction l as [|x l IH]; simpl; [lia|].
  destruct (f x) eqn:Ef; [rewrite (Hex x Ef)|destruct (g x)]; simpl; lia.
Qed.

Lemma children_of_names n dir :
  children_of n dir =
  option_map (fun entries => map (fun c => dir ++ [c]) (map fst entries))
    (FS.entries_of n dir).
Proof.
  unfold children_of. destruct (FS.entries_of n dir); [|reflexivity].
  simpl. now rewrite map_map.
Qed.

Lemma keeps_folder_iff n (dir : path) name :
  keeps_folder n (dir ++ [name]) = true <->
  name <> CONFIG_FILE_NAME /\
  FS.is_symlink n (dir ++ [name]) = false /\
  FS.is_dir n (dir ++ [name]) = true /\
  should_exclude_dir name = false.
Proof.
  unfold keeps_folder. rewrite name_snoc, !andb_true_iff, !negb_true_iff, String.eqb_neq.
  tauto.
Qed.

Lemma keeps_note_iff n (dir : path) name :
  keeps_note n (dir ++ [name]) = true <->
  name <> CONFIG_FILE_NAME /\
  FS.is_symlink n (dir ++ [name]) = false /\
  FS.is_dir n (dir ++ [name]) = false /\
  FS.is_file n (dir ++ [name]) = true /\
  String.eqb (PyStr.lower (Path.suffix (dir ++ [name]))) NOTE_SUFFIX = true.
Proof.
  unfold keeps_note. rewrite name_snoc, !andb_true_iff, !negb_true_iff, String.eqb_neq.
  tauto.
Qed.

(** X5. The scanner is complete as well as sound: a child of the scanned
    directory is returned as a folder exactly when it is not called
    [vx.json], is not a symbolic link, is a directory and is not
    excluded, and as a note exactly when it is not called [vx.json], is
    not a symbolic link, is a regular file and has the suffix [.md] in
    any letter case; no path is returned twice. *)
Theorem scanner_keeps_exactly_the_eligible_children
    (dir : path) (w : world) (folders notes : list path) (w' : world) :
  iter_children dir w = Ret (folders, notes) w' ->
  exists entries,
    FS.entries_of (fs w) dir = Some entries /\
    (forall p, In p folders <->
       exists name,
         In name (map fst entries) /\ p = Path.join dir name /\
         name <> CONFIG_FILE_NAME /\
         FS.is_symlink (fs w) p = false /\ FS.is_dir (fs w) p = true /\
         should_exclude_dir name = false) /\
    (forall p, In p notes <->
       exists name,
         In name (map fst entries) /\ p = Path.join dir name /\
         name <> CONFIG_FILE_NAME /\
         FS.is_symlink (fs w) p = false /\ FS.is_dir (fs w) p = false /\
         FS.is_file (fs w) p = true /\
         String.eqb (PyStr.lower (Path.suffix p)) NOTE_SUFFIX = true) /\
    (forall p, In p folders -> ~ In p notes) /\
    (List.length folders + List.length notes <= List.length entries)%nat.
Proof.
  intros H. apply iter_children_Ret in H as (_ & children & Hc & -> & ->).
  rewrite children_of_names in Hc.
  destruct (FS.entries_of (fs w) dir) as [entries|]; [|discriminate].
  injection Hc as <-. exists entries. split; [reflexivity|].
  assert (Hin : forall keep p,
            In p (sort_by_key name_key
                    (filter keep (map (fun c => dir ++ [c]) (map fst entries)))) <->
            exists name, In name (map fst entries) /\ p = Path.join dir name /\
                         keep (dir ++ [name]) = true).
  { intros keep p. rewrite sort_by_key_In, filter_In, in_map_iff. split.
    - intros [(name & <- & Hname) Hk]. exists name. auto.
    - intros (name & Hname & -> & Hk). split; [exists name; auto|exact Hk]. }
  split; [|split; [|split]].
  - intros p. rewrite Hin. split; intros (name & Hname & -> & Hk); exists name;
      (split; [exact Hname|]); (split; [reflexivity|]); now apply keeps_folder_iff.
  - intros p. rewrite Hin. split; intros (name & Hname & -> & Hk); exists name;
      (split; [exact Hname|]); (split; [reflexivity|]); now apply keeps_note_iff.
  - intros p Hf Hn. apply sort_by_key_In, filter_In in Hf as [_ Hf].
    apply sort_by_key_In, filter_In in Hn as [_ Hn].
    apply keeps_exclusive in Hf. congruence.
  - rewrite !sort_by_key_length.
    etransitivity; [apply filter_exclusive_length, keeps_exclusive|].
    now rewrite !length_map.
Qed.

(** ** Tags and the index of previous entries *)

Lemma is_empty_false_iff s : PyStr.is_empty s = false <-> s <> "".
Proof. destruct s; simpl; split; congruence. Qed.

Lemma clean_tags_strings tags :
  clean_tags (JList (map JStr tags)) = filter (fun t => negb (PyStr.is_empty t)) tags.
Proof.
  unfold clean_tags. induction tags as [|t tags IH]; simpl; [reflexivity|].
  rewrite IH. destruct (PyStr.is_empty t); reflexivity.
Qed.

Lemma clean_tags_In items t :
  In t (clean_tags (JList items)) <-> t <> "" /\ In (JStr t) items.
Proof.
  unfold clean_tags. rewrite in_flat_map. split.
  - intros (tag & Hin & Ht). destruct tag; simpl in Ht; try contradiction.
    destruct (PyStr.is_empty s) eqn:E; simpl in Ht; [contradiction|].
    destruct Ht as [<-|[]]. split; [now apply is_empty_false_iff|exact Hin].
  - intros [Hne Hin]. exists (JStr t). split; [exact Hin|]. simpl.
    apply is_empty_false_iff in Hne. rewrite Hne. now left.
Qed.

Lemma clean_tags_app a b :
  clean_tags (JList (a ++ b)) = clean_tags (JList a) ++ clean_tags (JList b).
Proof. unfold clean_tags. apply flat_map_app. Qed.

(** X6. [clean_tags] keeps the non-empty strings of a list, in their
    order and with their repetitions, and nothing else; cleaning a
    cleaned list changes nothing. *)
Theorem clean_tags_keeps_the_nonempty_strings :
  (forall tags,
     clean_tags (JList (map JStr tags)) = filter (fun t => negb (PyStr.is_empty t)) tags) /\
  (forall items t, In t (clean_tags (JList items)) <-> t <> "" /\ In (JStr t) items) /\
  (forall a b,
     clean_tags (JList (a ++ b)) = clean_tags (JList a) ++ clean_tags (JList b)) /\
  (forall value, clean_tags (JList (map JStr (clean_tags value))) = clean_tags value).
Proof.
  split; [exact clean_tags_strings|]. split; [exact clean_tags_In|].
  split; [exact clean_tags_app|exact clean_tags_clean].
Qed.

Lemma named_Some name item fields :
  named name item = Some fields ->
  item = JDict fields /\ Dict.get "name" fields = JStr name /\ name <> "".
Proof.
  unfold named. destruct item; try discriminate.
  destruct (Dict.get "name" fields0) eqn:E; try discriminate.
  destruct (PyStr.is_empty s) eqn:Es; simpl; [discriminate|].
  destruct (String.eqb s name) eqn:En; [|discriminate].
  apply String.eqb_eq in En. subst s. intros [= <-].
  split; [reflexivity|]. split; [exact E|now apply is_empty_false_iff].
Qed.

Lemma first_named_Some name items fields :
  first_named name items = Some fields ->
  In (JDict fields) items /\ Dict.get "name" fields = JStr name /\ name <> "".
Proof.
  induction items as [|item items IH]; simpl; [discriminate|].
  destruct (named name item) as [f|] eqn:E.
  - intros [= <-]. apply named_Some in E as (-> & H1 & H2). auto.
  - intros H. destruct (IH H) as (Hin & H'). auto.
Qed.

Lemma map_entries_skip result items :
  fold_left map_entries_step (filter valid_item items) result
  = fold_left map_entries_step items result.
Proof.
  revert result. induction items as [|item items IH]; intros result; [reflexivity|].
  simpl. destruct (valid_item item) eqn:E; simpl; [apply IH|].
  rewrite IH. f_equal. unfold map_entries_step. destruct item; try reflexivity.
  simpl in E. destruct (Dict.get "name" fields); try reflexivity.
  rewrite E. reflexivity.
Qed.

(** X12. An entry found in the index under a name is one of the listed
    objects and carries that non-empty name; items that are not objects
    with a non-empty string name do not influence the index. *)
Theorem index_entries_carry_their_name :
  (forall entries name fields,
     Dict.lookup name (map_entries_by_name entries) = Some fields ->
     name <> "" /\ Dict.get "name" fields = JStr name /\
     exists items, entries = JList items /\ In (JDict fields) items) /\
  (forall items,
     map_entries_by_name (JList (filter valid_item items))
     = map_entries_by_name (JList items)).
Proof.
  split.
  - intros entries name fields H. destruct entries; try discriminate.
    unfold map_entries_by_name in H. rewrite fold_map_entries_lookup in H. simpl in H.
    apply first_named_Some in H as (Hin & Hname & Hne). eauto.
  - intros items. apply map_entries_skip.
Qed.

(** ** The fields of entries and configs *)

Lemma set_absent {V} k (v : V) d :
  Dict.lookup k d = None -> Dict.set k v d = d ++ [(k, v)].
Proof.
  induction d as [|[k' v'] d IH]; simpl; [reflexivity|].
  destruct (String.eqb k' k); [discriminate|]. intros H. now rewrite IH.
Qed.

Lemma lookup_app {V} k (d e : dict V) :
  Dict.lookup k (d ++ e) =
  match Dict.lookup k d with
  | Some v => Some v
  | None => Dict.lookup k e
  end.
Proof.
  induction d as [|[k' v'] d IH]; simpl; [reflexivity|].
  destruct (String.eqb k' k); [reflexivity|exact IH].
Qed.

Lemma copy_visual_keys_fresh existing entry :
  (forall k, In k NODE_VISUAL_KEYS -> Dict.lookup k entry = None) ->
  copy_visual_keys existing entry = entry ++ visual_fields existing.
Proof.
  intros Hfresh. unfold copy_visual_keys, visual_fields, NODE_VISUAL_KEYS.
  pose proof (Hfresh "background_color" ltac:(simpl; auto)) as H1.
  pose proof (Hfresh "border_color" ltac:(simpl; auto)) as H2.
  pose proof (Hfresh "name_color" ltac:(simpl; auto)) as H3.
  cbn [fold_left flat_map].
  destruct (nonempty_str (Dict.get "background_color" existing)) as [v1|];
  destruct (nonempty_str (Dict.get "border_color" existing)) as [v2|];
  destruct (nonempty_str (Dict.get "name_color" existing)) as [v3|];
  repeat (rewrite set_absent
            by (rewrite ?lookup_set_other by discriminate; assumption));
  rewrite <- ?app_assoc; simpl; rewrite ?app_nil_r; reflexivity.
Qed.

Lemma visual_fields_keys existing :
  forall k v, In (k, v) (visual_fields existing) ->
    In k NODE_VISUAL_KEYS /\ exists s, v = JStr s /\ s <> "" /\
    nonempty_str (Dict.get k existing) = Some s.
Proof.
  intros k v Hin. unfold visual_fields in Hin. apply in_flat_map in Hin.
  destruct Hin as (key & Hkey & Hin).
  destruct (nonempty_str (Dict.get key existing)) as [s|] eqn:E; [|contradiction].
  destruct Hin as [[= <- <-]|[]]. split; [exact Hkey|]. exists s.
  split; [reflexivity|]. split; [|exact E].
  destruct (Dict.get key existing); try discriminate. simpl in E.
  destruct (PyStr.is_empty s0) eqn:E'; [discriminate|]. injection E as <-.
  now apply is_empty_false_iff.
Qed.

Lemma signature_or_fresh_nonempty fuel value w s w' :
  signature_or_fresh fuel value w = Ret s w' -> s <> "".
Proof.
  unfold signature_or_fresh. intros H.
  assert (Hgen : generate_signature fuel w = Ret s w' -> s <> "").
  { intros Hg. apply generate_signature_fresh in Hg.
    destruct Hg as (k & v & _ & Hv & ->).
    destruct (str_int_digits v ltac:(lia)) as [Hne _].
    now apply is_empty_false_iff. }
  destruct (parse_signature_like value) as [p|]; [|auto].
  destruct (PyStr.is_empty p) eqn:E; [auto|].
  apply ret_Ret in H as [<- _]. now apply is_empty_false_iff.
Qed.

Lemma folder_entry_fields name existing :
  build_folder_entry name existing = ("name", JStr name) :: visual_fields existing.
Proof.
  unfold build_folder_entry. rewrite copy_visual_keys_fresh; [reflexivity|].
  intros k Hk. simpl in Hk. destruct Hk as [<-|[<-|[<-|[]]]]; reflexivity.
Qed.

(** X7. A folder entry is the name followed by the colours of the
    previous entry that are non-empty strings, in the order of
    [NODE_VISUAL_KEYS]; every other field of the previous entry is
    dropped, and rebuilding over a rebuilt entry changes nothing. *)
Theorem folder_entry_is_name_and_colours (name : string) (existing : dict json) :
  build_folder_entry name existing = ("name", JStr name) :: visual_fields existing /\
  (forall k v, In (k, v) (visual_fields existing) ->
     In k NODE_VISUAL_KEYS /\
     exists s, v = JStr s /\ s <> "" /\ Dict.get k existing = JStr s) /\
  build_folder_entry name (build_folder_entry name existing)
  = build_folder_entry name existing.
Proof.
  split; [apply folder_entry_fields|]. split; [|apply build_folder_entry_again].
  intros k v Hin. apply visual_fields_keys in Hin as (Hk & s & -> & Hs & Hget).
  split; [exact Hk|]. exists s. split; [reflexivity|]. split; [exact Hs|].
  destruct (Dict.get k existing); try discriminate. simpl in Hget.
  destruct (PyStr.is_empty s0); [discriminate|]. now injection Hget as ->.
Qed.

(** X8. A rebuilt file entry has exactly seven fields, in a fixed order
    and all of them strings but the list of tags, followed by the
    colours carried over; its id, signature and times are never empty,
    and no other field of the previous entry survives. *)
Theorem file_entry_has_fixed_fields fuel note existing w entry w' :
  build_file_entry fuel note existing w = Ret entry w' ->
  exists id signature created modified tags folder,
    entry =
      [ ("name", JStr (Path.name note)); ("id", JStr id);
        ("signature", JStr signature); ("created_time", JStr created);
        ("modified_time", JStr modified); ("tags", JList (map JStr tags));
        ("attachment_folder", JStr folder) ] ++ visual_fields existing /\
    id <> "" /\ signature <> "" /\ created <> "" /\ modified <> "" /\
    Forall (fun tag => tag <> "") tags.
Proof.
  intros H. apply file_entry_shape in H as (w1 & w2 & sg & _ & Hsg & ->).
  eexists _, sg, _, _, _, _. split.
  - unfold file_entry_of, file_entry_base. cbn [Dict.set String.eqb Ascii.eqb Bool.eqb].
    apply copy_visual_keys_fresh. intros k Hk.
    simpl in Hk. destruct Hk as [<-|[<-|[<-|[]]]]; reflexivity.
  - split.
    { rewrite or_else_parse_id.
      destruct (parse_id_like (Dict.get "id" existing)) eqn:E; [|discriminate].
      eapply parse_id_like_nonempty, E. }
    split; [eapply signature_or_fresh_nonempty, Hsg|].
    split; [apply is_empty_false_iff, kept_or_not_empty, stamp_of_not_empty|].
    split; [apply is_empty_false_iff, stamp_of_not_empty|].
    apply Forall_forall. intros t Ht.
    destruct (Dict.get "tags" existing); simpl in Ht; try contradiction.
    now apply clean_tags_In in Ht.
Qed.

(** X9. A rebuilt node config has exactly seven fields, in a fixed
    order, followed by the colours carried over: the version is an
    integer or a boolean, the id, the signature and the times are
    non-empty strings, and there is one file entry per scanned note and
    one folder entry per scanned folder. *)
Theorem node_config_has_fixed_fields fuel dir folders notes existing w config w' :
  build_node_config fuel dir folders notes existing w = Ret config w' ->
  exists version id signature created modified file_entries folder_entries,
    config =
      [ ("version", version); ("id", JStr id); ("signature", JStr signature);
        ("created_time", JStr created); ("modified_time", JStr modified);
        ("files", JList (map JDict file_entries));
        ("folders", JList (map JDict folder_entries)) ] ++ visual_fields existing /\
    ((exists z, version = JInt z) \/ (exists b, version = JBool b)) /\
    id <> "" /\ signature <> "" /\ created <> "" /\ modified <> "" /\
    List.length file_entries = List.length notes /\
    List.length folder_entries = List.length folders.
Proof.
  intros H. apply node_config_shape in H as (w1 & fe & w2 & w3 & sg & _ & Hm & Hsg & ->).
  eexists _, _, sg, _, _, fe, _. split.
  - unfold node_config_of, node_config_base.
    apply copy_visual_keys_fresh. intros k Hk.
    simpl in Hk. destruct Hk as [<-|[<-|[<-|[]]]]; reflexivity.
  - split.
    { unfold carried_version. destruct (Dict.get "version" existing); eauto. }
    split.
    { rewrite or_else_parse_id.
      destruct (parse_id_like (Dict.get "id" existing)) eqn:E; [|discriminate].
      eapply parse_id_like_nonempty, E. }
    split; [eapply signature_or_fresh_nonempty, Hsg|].
    split; [apply is_empty_false_iff, kept_or_not_empty, stamp_of_not_empty|].
    split; [apply is_empty_false_iff, stamp_of_not_empty|].
    split.
    + destruct (mapM_Forall2 (fun _ => True) (fun _ _ => True) _ notes
                  ltac:(intros; auto) w1 fe w2 I Hm) as [Hall _].
      symmetry. eapply Forall2_length, Hall.
    + unfold folder_entries_of. apply length_map.
Qed.

(** ** The form of timestamps *)

Lemma has_form_app p1 p2 s1 s2 :
  has_form p1 s1 = true -> has_form p2 s2 = true ->
  has_form (p1 ++ p2)%string (s1 ++ s2)%string = true.
Proof.
  revert s1. induction p1 as [|p p1 IH]; intros [|c s1]; simpl; try discriminate; auto.
  intros H1 H2. apply andb_true_iff in H1 as [Hc H1]. rewrite Hc. simpl. auto.
Qed.

Lemma zfill_form width (pattern : string) (bound : Z) n :
  forallb (fun k => has_form pattern (PyTime.zfill width (Z.of_nat k)))
    (seq 0 (Z.to_nat bound)) = true ->
  0 <= n < bound ->
  has_form pattern (PyTime.zfill width n) = true.
Proof.
  intros Hall Hn. rewrite forallb_forall in Hall.
  specialize (Hall (Z.to_nat n)). rewrite Z2Nat.id in Hall by lia.
  apply Hall, in_seq. lia.
Qed.

Lemma zfill2_form n : 0 <= n < 100 -> has_form "dd" (PyTime.zfill 2 n) = true.
Proof. apply (zfill_form 2 "dd" 100). vm_compute. reflexivity. Qed.

Lemma zfill4_form n : 0 <= n < 10000 -> has_form "dddd" (PyTime.zfill 4 n) = true.
Proof. apply (zfill_form 4 "dddd" 10000). vm_compute. reflexivity. Qed.

Lemma civil_bounds days :
  let '(y, m, d) := PyTime.civil_from_days days in
  1 <= m <= 12 /\ 1 <= d <= 31.
Proof.
  unfold PyTime.civil_from_days. cbv zeta.
  set (z := days + 719468).
  set (era := z / 146097).
  set (doe := z - era * 146097).
  assert (Hdoe : 0 <= doe <= 146096) by (unfold doe, era; Z.div_mod_to_equations; nia).
  clearbody doe. clear z era.
  set (yoe := (doe - doe / 1460 + doe / 36524 - doe / 146096) / 365).
  set (doy := doe - (365 * yoe + yoe / 4 - yoe / 100)).
  assert (Hdoy : 0 <= doy <= 365).
  { unfold doy, yoe. Z.div_mod_to_equations. lia. }
  clearbody doy. clear yoe.
  set (mp := (5 * doy + 2) / 153).
  assert (Hmp : 0 <= mp <= 11) by (unfold mp; Z.div_mod_to_equations; lia).
  assert (Hd : 1 <= doy - (153 * mp + 2) / 5 + 1 <= 31).
  { unfold mp. Z.div_mod_to_equations. lia. }
  destruct (mp <? 10) eqn:E.
  - apply Z.ltb_lt in E. split; lia.
  - apply Z.ltb_ge in E. split; lia.
Qed.

Lemma stamp_of_form ts :
  representable (ts / 1000000) -> has_form STAMP_FORM (stamp_of ts) = true.
Proof.
  unfold representable, stamp_of, utc_of_second, date_time_text.
  set (t := ts / 1000000). pose proof (civil_bounds (t / 86400)) as Hb.
  destruct (PyTime.civil_from_days (t / 86400)) as [[y m] d]. cbn [PyTime.year
    PyTime.month PyTime.day PyTime.hour PyTime.minute PyTime.second].
  intros Hy. destruct Hb as [Hm Hd].
  assert (Hsod : 0 <= t mod 86400 < 86400) by (apply Z.mod_pos_bound; lia).
  set (sod := t mod 86400) in *.
  assert (Hh : 0 <= sod / 3600 < 100) by (Z.div_mod_to_equations; lia).
  assert (Hmin : 0 <= sod mod 3600 / 60 < 100) by (Z.div_mod_to_equations; lia).
  assert (Hsec : 0 <= sod mod 60 < 100) by (Z.div_mod_to_equations; lia).
  change STAMP_FORM with
    ("dddd" ++ "-" ++ "dd" ++ "-" ++ "dd" ++ "T" ++ "dd" ++ ":" ++ "dd" ++ ":" ++ "dd"
     ++ "Z")%string.
  rewrite !str_app_assoc.
  repeat first
    [ apply has_form_app
    | apply zfill4_form; lia
    | apply zfill2_form; lia
    | reflexivity ].
Qed.

Lemma has_form_length pattern : forall s,
  has_form pattern s = true -> String.length s = String.length pattern.
Proof.
  induction pattern as [|p pattern IH]; intros [|c s]; simpl; try discriminate; auto.
  intros H. apply andb_true_iff in H as [_ H]. now rewrite (IH s H).
Qed.

(** X18. Every timestamp the script produces has the fixed form
    [YYYY-MM-DDTHH:MM:SSZ]: twenty characters, digits but for the
    separators, whatever the instant. *)
Theorem stamps_have_a_fixed_form (ts : Z) (w : world) (s : string) (w' : world) :
  iso_utc_from_timestamp ts w = Ret s w' ->
  has_form STAMP_FORM s = true /\ String.length s = 20%nat.
Proof.
  intros H. apply iso_utc_from_timestamp_Ret in H as (_ & Hrep & ->).
  pose proof (stamp_of_form ts Hrep) as Hform. split; [exact Hform|].
  exact (has_form_length _ _ Hform).
Qed.

(** ** Writing and reading back *)

Lemma node_link_ind (P : node -> Prop) :
  (forall m t, P (File m t)) ->
  (forall m entries, P (Dir m entries)) ->
  P (Symlink None) ->
  (forall t, P t -> P (Symlink (Some t))) ->
  P Special ->
  forall n, P n.
Proof.
  intros Hf Hd Hn Hs Hsp. fix IH 1.
  intros [m t|m entries|[t|]|]; [apply Hf|apply Hd|apply Hs, IH|apply Hn|apply Hsp].
Qed.

Lemma write_leaf_deref now text n : forall n',
  FS.write_leaf now text n = Some n' ->
  FS.deref n' = Some (File (Some now) (Some text)) /\
  (FS.deref n = None \/ exists m t, FS.deref n = Some (File m t)).
Proof.
  induction n as [m t|m entries| |t IH|] using node_link_ind; simpl; intros n' H;
    try discriminate.
  - injection H as <-. split; [reflexivity|]. right. eauto.
  - injection H as <-. split; [reflexivity|]. now left.
  - destruct (FS.write_leaf now text t) as [t'|]; [|discriminate].
    injection H as <-. simpl. exact (IH t' eq_refl).
Qed.

Lemma lookup_nil_deref n : FS.resolve n [] = FS.deref n.
Proof. reflexivity. Qed.

Lemma lookup_cons n c p :
  FS.lookup n (c :: p) =
  match FS.deref n with
  | Some (Dir _ entries) =>
      match Dict.lookup c entries with
      | Some child => FS.lookup child p
      | None => None
      end
  | _ => None
  end.
Proof. reflexivity. Qed.

Lemma write_at_resolve now text : forall p n n',
  FS.write_at now text n p = Some n' ->
  FS.resolve n' p = Some (File (Some now) (Some text)).
Proof.
  induction p as [|c p IH]; intros n n' H.
  - simpl in H. apply write_leaf_deref in H as [H _]. exact H.
  - simpl in H. destruct n as [| m entries| |]; try discriminate.
    destruct (Dict.lookup c entries) as [child|] eqn:Ec.
    + destruct (FS.write_at now text child p) as [child'|] eqn:Ew; [|discriminate].
      injection H as <-. unfold FS.resolve. rewrite lookup_cons.
      cbn [FS.deref]. rewrite lookup_set_same. exact (IH _ _ Ew).
    + destruct p; [|discriminate]. injection H as <-.
      unfold FS.resolve. rewrite lookup_cons. cbn [FS.deref].
      rewrite lookup_app, Ec. cbn [Dict.lookup]. rewrite String.eqb_refl. reflexivity.
Qed.

Lemma write_text_Raise p text w e w' :
  write_text p text w = Raise e w' -> e = OSError /\ w' = w.
Proof.
  unfold write_text. destruct (FS.write_at _ _ _ _); [discriminate|].
  intros [= <- <-]. auto.
Qed.

Lemma mtime_of_File n p m t : FS.resolve n p = Some (File m t) -> FS.mtime_of n p = m.
Proof. unfold FS.mtime_of. now intros ->. Qed.

Section RoundTrip.

Variable json_loads : string -> option json.
Variable json_dumps : json -> string.

Local Abbreviation load := (load_existing_config json_loads).
Local Abbreviation sidecar_text := (sidecar_text json_dumps).

Lemma written_then_loaded p data w u w' :
  write_json json_dumps p data w = Ret u w' ->
  FS.resolve (fs w') p
    = Some (File (Some (clock w O)) (Some (sidecar_text data))) /\
  log w' = log w ++ [Wrote p (sidecar_text data)] /\
  rng w' = rng w.
Proof.
  intros H. apply write_json_Ret in H as (Hw & Hr & Hl).
  split; [eapply write_at_resolve, Hw|]. auto.
Qed.


End RoundTrip.

(** ** Counting *)

Section Counting.

Variable json_loads : string -> option json.
Variable json_dumps : json -> string.
Variable root_text : string.

Local Abbreviation rebuild := (rebuild_recursively json_loads json_dumps root_text).

Lemma fold_counts fuel depth dry_run verbose :
  (forall dir w c f n w',
     rebuild fuel depth dir dry_run verbose w = Ret (c, f, n) w' -> c = S f) ->
  forall folders c0 f0 n0 w c f n w',
    foldM
      (fun totals folder =>
         let '(total_configs, total_folders, total_notes) := totals in
         bind (rebuild fuel depth folder dry_run verbose)
           (fun sub =>
              let '(sub_configs, sub_folders, sub_notes) := sub in
              ret (total_configs + sub_configs,
                   total_folders + sub_folders,
                   total_notes + sub_notes)%nat))
      folders (c0, f0, n0) w = Ret (c, f, n) w' ->
    (c0 + List.length folders + (f - f0) = c)%nat /\ (f0 <= f)%nat.
Proof.
  intros IH. induction folders as [|folder folders IHf];
    intros c0 f0 n0 w c f n w' H; simpl in H.
  - apply ret_Ret in H as [[= <- <- <-] _]. simpl. lia.
  - apply bind_Ret in H as ([[c1 f1] n1] & w1 & Hstep & H).
    apply bind_Ret in Hstep as ([[sc sf] sn] & w2 & Hsub & Hstep).
    apply ret_Ret in Hstep as [[= <- <- <-] <-].
    apply IH in Hsub. apply IHf in H. simpl. lia.
Qed.

(** X14. The walk returns one config more than folders: every scanned
    folder is visited, and the directory the walk starts from is the
    only visited directory that was not scanned as a folder. *)
Theorem configs_count_is_folders_plus_one
    (fuel depth : nat) (dir : path) (dry_run verbose : bool) (w : world)
    (configs folders notes : nat) (w' : world) :
  rebuild fuel depth dir dry_run verbose w = Ret (configs, folders, notes) w' ->
  configs = S folders.
Proof.
  revert dir w configs folders notes w'.
  induction depth as [|depth IH]; intros dir w c f n w' H; [discriminate|].
  apply rebuild_step in H
    as (fs0 & ns0 & config & w1 & w2 & _ & _ & _ & _ & w3 & _ & H).
  apply (fold_counts fuel depth dry_run verbose) in H; [lia|].
  intros. eapply IH; eauto.
Qed.

End Counting.

(** ** What a write leaves alone *)

Lemma has_no_link_free n : has_no_link n = true -> link_free n.
Proof.
  intros H q. revert n H. unfold FS.is_symlink.
  induction q as [|c q IH]; intros n H.
  - destruct n; try reflexivity. discriminate.
  - destruct n as [m t|m entries|t|]; try reflexivity; try discriminate.
    cbn [FS.lookup FS.deref].
    destruct (Dict.lookup c entries) as [child|] eqn:E; [|reflexivity].
    apply IH. cbn [has_no_link] in H. rewrite forallb_forall in H.
    apply dict_lookup_In in E. exact (H _ E).
Qed.

Lemma keys_set_present {V} k (v v' : V) d :
  Dict.lookup k d = Some v' -> map fst (Dict.set k v d) = map fst d.
Proof.
  induction d as [|[k0 v0] d IH]; simpl; [discriminate|].
  destruct (String.eqb k0 k) eqn:E; simpl.
  - intros _. apply String.eqb_eq in E. now subst.
  - intros H. now rewrite IH.
Qed.

Lemma deref_not_link n x : FS.deref n = Some x -> is_link x = false.
Proof.
  induction n as [m t|m entries| |t IH|] using node_link_ind; simpl; intros H;
    try (injection H as <-; reflexivity); try discriminate.
  exact (IH H).
Qed.

Lemma lookup_below_leaf now text n n' c q :
  FS.write_leaf now text n = Some n' ->
  FS.lookup n (c :: q) = None /\ FS.lookup n' (c :: q) = None.
Proof.
  intros H. apply write_leaf_deref in H as [H' H]. rewrite !lookup_cons, H'.
  split; [|reflexivity]. destruct H as [->|(m & t & ->)]; reflexivity.
Qed.

Lemma name_cons c (p : path) : p <> [] -> Path.name (c :: p) = Path.name p.
Proof. unfold Path.name. destruct p; [congruence|reflexivity]. Qed.

Lemma write_at_outline now text : forall p n n',
  p = [] \/ Path.name p = CONFIG_FILE_NAME ->
  FS.write_at now text n p = Some n' ->
  forall q, q <> p -> outline (FS.lookup n' q) = outline (FS.lookup n q).
Proof.
  induction p as [|c p IH]; intros n n' Hp H q Hq.
  - simpl in H. destruct q as [|c q]; [congruence|].
    destruct (lookup_below_leaf _ _ _ _ c q H) as [-> ->]. reflexivity.
  - destruct Hp as [Hp|Hp]; [discriminate|].
    simpl in H. destruct n as [|m entries| |]; try discriminate.
    destruct (Dict.lookup c entries) as [child|] eqn:Ec.
    + destruct (FS.write_at now text child p) as [child'|] eqn:Ew; [|discriminate].
      injection H as <-. destruct q as [|c' q].
      * cbn [FS.lookup outline option_map is_link]. unfold kind_of.
        cbn [FS.deref]. now rewrite (keys_set_present _ _ _ _ Ec).
      * rewrite !lookup_cons. cbn [FS.deref].
        destruct (String.eqb c' c) eqn:E.
        -- apply String.eqb_eq in E. subst c'. rewrite lookup_set_same, Ec.
           apply (IH _ _); [|exact Ew|congruence].
           destruct p as [|c2 p]; [now left|right].
           rewrite <- Hp. symmetry. apply name_cons. discriminate.
        -- apply String.eqb_neq in E. now rewrite lookup_set_other.
    + destruct p; [|discriminate]. injection H as <-.
      change (Path.name [c]) with c in Hp. subst c. destruct q as [|c' q].
      * cbn [FS.lookup outline option_map is_link]. unfold kind_of.
        cbn [FS.deref]. rewrite map_app, filter_app. simpl. now rewrite app_nil_r.
      * rewrite !lookup_cons. cbn [FS.deref]. rewrite lookup_app.
        destruct (Dict.lookup c' entries) as [x|] eqn:Ex; [reflexivity|].
        cbn [Dict.lookup]. destruct (String.eqb CONFIG_FILE_NAME c') eqn:E;
          [|reflexivity].
        apply String.eqb_eq in E. subst c'.
        destruct q as [|c2 q]; [congruence|]. reflexivity.
Qed.

Lemma is_symlink_outline n q :
  FS.is_symlink n q =
  match outline (FS.lookup n q) with Some (b, _) => b | None => false end.
Proof.
  unfold FS.is_symlink, outline. destruct (FS.lookup n q) as [[]|]; reflexivity.
Qed.

Lemma is_dir_outline n q :
  FS.is_dir n q =
  match outline (FS.lookup n q) with Some (_, KDir _) => true | _ => false end.
Proof.
  unfold FS.is_dir, FS.resolve, outline, kind_of.
  destruct (FS.lookup n q) as [x|]; [|reflexivity]. simpl.
  destruct (FS.deref x) as [[]|]; reflexivity.
Qed.

Lemma is_file_outline n q :
  FS.is_file n q =
  match outline (FS.lookup n q) with Some (_, KFile) => true | _ => false end.
Proof.
  unfold FS.is_file, FS.resolve, outline, kind_of.
  destruct (FS.lookup n q) as [x|]; [|reflexivity]. simpl.
  destruct (FS.deref x) as [[]|]; reflexivity.
Qed.

Lemma names_outline n q :
  option_map (fun entries => filter not_config (map fst entries)) (FS.entries_of n q) =
  match outline (FS.lookup n q) with Some (_, KDir names) => Some names | _ => None end.
Proof.
  unfold FS.entries_of, FS.resolve, outline, kind_of.
  destruct (FS.lookup n q) as [x|]; [|reflexivity]. simpl.
  destruct (FS.deref x) as [[]|]; reflexivity.
Qed.

Lemma same_outline_refl n : same_outline n n.
Proof. intros q _. reflexivity. Qed.

Lemma same_outline_trans n1 n2 n3 :
  same_outline n1 n2 -> same_outline n2 n3 -> same_outline n1 n3.
Proof. intros H1 H2 q Hq. now rewrite (H2 q Hq), (H1 q Hq). Qed.

Lemma write_sidecar_outline now text n dir n' :
  FS.write_at now text n (Path.join dir CONFIG_FILE_NAME) = Some n' ->
  same_outline n n'.
Proof.
  intros H q Hq. eapply write_at_outline; [|exact H|].
  - right. apply name_snoc.
  - intros ->. apply Hq, name_snoc.
Qed.

Lemma write_at_keeps_files now text n dir n' q :
  FS.write_at now text n (Path.join dir CONFIG_FILE_NAME) = Some n' ->
  FS.is_file n q = true -> FS.is_file n' q = true.
Proof.
  intros H Hf. destruct (list_eq_dec string_dec q (Path.join dir CONFIG_FILE_NAME))
    as [->|Hne].
  - unfold FS.is_file. now rewrite (write_at_resolve _ _ _ _ _ H).
  - rewrite is_file_outline in *.
    rewrite (write_at_outline _ _ _ _ _ (or_intror (name_snoc _ _)) H q Hne).
    exact Hf.
Qed.

Lemma filter_through {A} (f g : A -> bool) l :
  (forall x, f x = true -> g x = true) -> filter f l = filter f (filter g l).
Proof.
  intros H. induction l as [|x l IH]; simpl; [reflexivity|].
  destruct (f x) eqn:Ef.
  - rewrite (H x Ef). simpl. rewrite Ef. now f_equal.
  - destruct (g x); simpl; [rewrite Ef|]; exact IH.
Qed.

Lemma keeps_folder_config n dir c :
  keeps_folder n (dir ++ [c]) = true -> not_config c = true.
Proof.
  unfold keeps_folder, not_config. rewrite name_snoc.
  destruct (String.eqb c CONFIG_FILE_NAME); [discriminate|reflexivity].
Qed.

Lemma keeps_note_config n dir c :
  keeps_note n (dir ++ [c]) = true -> not_config c = true.
Proof.
  unfold keeps_note, not_config. rewrite name_snoc.
  destruct (String.eqb c CONFIG_FILE_NAME); [discriminate|reflexivity].
Qed.

Lemma not_config_name c : not_config c = true -> c <> CONFIG_FILE_NAME.
Proof.
  unfold not_config. intros H ->. now rewrite String.eqb_refl in H.
Qed.

Lemma keeps_same_outline n n' q :
  same_outline n n' -> Path.name q <> CONFIG_FILE_NAME ->
  keeps_folder n' q = keeps_folder n q /\ keeps_note n' q = keeps_note n q.
Proof.
  intros H Hq. unfold keeps_folder, keeps_note.
  rewrite !is_symlink_outline, !is_dir_outline, !is_file_outline, (H q Hq). auto.
Qed.

Lemma scan_same_outline n n' dir :
  same_outline n n' -> Path.name dir <> CONFIG_FILE_NAME -> scan n' dir = scan n dir.
Proof.
  intros H Hdir. unfold scan. rewrite !children_of_names.
  pose proof (names_outline n dir) as Hn. pose proof (names_outline n' dir) as Hn'.
  rewrite (H dir Hdir) in Hn'. rewrite <- Hn in Hn'. clear Hn.
  destruct (FS.entries_of n dir) as [es|], (FS.entries_of n' dir) as [es'|];
    simpl in Hn'; try discriminate; [|reflexivity].
  injection Hn' as Hn'. simpl. rewrite !filter_children.
  assert (Hkeep : forall c, not_config c = true ->
            keeps_folder n' (dir ++ [c]) = keeps_folder n (dir ++ [c]) /\
            keeps_note n' (dir ++ [c]) = keeps_note n (dir ++ [c])).
  { intros c Hc. apply keeps_same_outline; [exact H|].
    rewrite name_snoc. now apply not_config_name. }
  rewrite (filter_through (fun c => keeps_folder n' (dir ++ [c])) not_config (map fst es'))
    by apply keeps_folder_config.
  rewrite (filter_through (fun c => keeps_folder n (dir ++ [c])) not_config (map fst es))
    by apply keeps_folder_config.
  rewrite (filter_through (fun c => keeps_note n' (dir ++ [c])) not_config (map fst es'))
    by apply keeps_note_config.
  rewrite (filter_through (fun c => keeps_note n (dir ++ [c])) not_config (map fst es))
    by apply keeps_note_config.
  rewrite Hn'. f_equal; f_equal; f_equal; f_equal; apply filter_ext_in; intros c Hc;
    apply filter_In in Hc as [_ Hc]; apply Hkeep, Hc.
Qed.

Lemma visits_scan depth n dir :
  visits (S depth) n dir =
  match scan n dir with
  | Some (folders, notes) => (dir, folders, notes) :: flat_map (visits depth n) folders
  | None => []
  end.
Proof. unfold scan. cbn [visits]. destruct (children_of n dir); reflexivity. Qed.

Lemma scan_folders_named n dir folders notes folder :
  scan n dir = Some (folders, notes) -> In folder folders ->
  Path.name folder <> CONFIG_FILE_NAME.
Proof.
  unfold scan. destruct (children_of n dir) as [children|] eqn:E; [|discriminate].
  intros [= <- _] Hin. apply sort_by_key_In in Hin.
  apply filter_In in Hin as [_ Hin]. unfold keeps_folder in Hin.
  intros Hname. rewrite Hname, String.eqb_refl in Hin. discriminate.
Qed.

Lemma flat_map_in_ext {A B} (f g : A -> list B) l :
  (forall x, In x l -> f x = g x) -> flat_map f l = flat_map g l.
Proof.
  induction l as [|x l IH]; intros H; simpl; [reflexivity|].
  rewrite (H x (or_introl eq_refl)), IH; [reflexivity|].
  intros y Hy. apply H. now right.
Qed.

Lemma visits_same_outline depth : forall n n' dir,
  same_outline n n' -> Path.name dir <> CONFIG_FILE_NAME ->
  visits depth n' dir = visits depth n dir.
Proof.
  induction depth as [|depth IH]; intros n n' dir H Hdir; [reflexivity|].
  rewrite !visits_scan, (scan_same_outline _ _ _ H Hdir).
  destruct (scan n dir) as [[folders notes]|] eqn:E; [|reflexivity].
  f_equal. apply flat_map_in_ext. intros folder Hin. apply IH; [exact H|].
  eapply scan_folders_named; eauto.
Qed.

(** ** A run that writes *)

Lemma written_files_app a b : written_files (a ++ b) = written_files a ++ written_files b.
Proof. apply flat_map_app. Qed.

Lemma printed_lines_app a b : printed_lines (a ++ b) = printed_lines a ++ printed_lines b.
Proof. apply flat_map_app. Qed.

Section RealWalk.

Variable json_loads : string -> option json.
Variable json_dumps : json -> string.
Variable root_text : string.

Local Abbreviation rebuild := (rebuild_recursively json_loads json_dumps root_text).
Local Abbreviation real_walked := (real_walked root_text).
Local Abbreviation report_text := (report_text root_text).

Lemma real_walked_nil verbose w : real_walked verbose [] w w.
Proof.
  split; [apply same_outline_refl|]. split; [auto|]. split; [constructor|].
  exists []. rewrite app_nil_r. destruct verbose; auto.
Qed.

Lemma real_walked_app verbose vs1 vs2 w1 w2 w3 :
  real_walked verbose vs1 w1 w2 -> real_walked verbose vs2 w2 w3 ->
  real_walked verbose (vs1 ++ vs2) w1 w3.
Proof.
  intros (O1 & K1 & S1 & e1 & L1 & W1 & P1) (O2 & K2 & S2 & e2 & L2 & W2 & P2).
  split; [eapply same_outline_trans; eauto|]. split; [auto|]. split.
  - apply Forall_app. split; [|exact S2].
    eapply Forall_impl; [|exact S1]. intros v. apply K2.
  - exists (e1 ++ e2). rewrite L2, L1, app_assoc. split; [reflexivity|].
    rewrite written_files_app, printed_lines_app, W1, W2, P1, P2, !map_app.
    destruct verbose; auto.
Qed.

Lemma real_walk fuel depth verbose : forall dir w r w',
  Path.name dir <> CONFIG_FILE_NAME ->
  rebuild fuel depth dir false verbose w = Ret r w' ->
  real_walked verbose (visits depth (fs w) dir) w w' /\
  r = totals (visits depth (fs w) dir).
Proof.
  induction depth as [|depth IH]; intros dir w r w' Hdir H; [discriminate|].
  apply rebuild_step in H.
  destruct H as (folders & notes & config & w1 & w2 & Hscan & Hbuild & Hadv
                 & Hprint & w3 & Hwrite & Hfold).
  rewrite orb_false_r in Hprint. cbn [negb] in Hwrite.
  destruct Hadv as (F1 & L1 & _).
  assert (Hw2 : fs w2 = fs w /\
                log w2 = log w ++ (if verbose
                                   then [Printed (report_line root_text dir folders notes)]
                                   else [])).
  { destruct verbose.
    - apply print_Ret in Hprint as (F2 & _ & _ & L2). split; congruence.
    - subst w2. rewrite app_nil_r. auto. }
  destruct Hw2 as [F2 L2].
  pose proof (written_then_loaded json_dumps _ _ _ _ _ Hwrite) as (Hres & L3 & _).
  apply write_json_Ret in Hwrite as (Hwrite & _ & _). rewrite F2 in Hwrite.
  assert (Hvisits : visits (S depth) (fs w) dir
                    = (dir, folders, notes) :: flat_map (visits depth (fs w)) folders).
  { apply iter_children_Ret in Hscan as (_ & children & Hc & Hfolders & Hnotes).
    cbn [visits]. rewrite Hc. cbv zeta. now rewrite <- Hfolders, <- Hnotes. }
  assert (Hnamed : Forall (fun f => Path.name f <> CONFIG_FILE_NAME) folders).
  { apply Forall_forall. intros folder Hin. eapply scan_folders_named; [|exact Hin].
    unfold scan. apply iter_children_Ret in Hscan as (_ & children & Hc & Hfolders & Hnotes).
    rewrite Hc, <- Hfolders, <- Hnotes. reflexivity. }
  assert (Hhead : real_walked verbose [(dir, folders, notes)] w w3).
  { split; [eapply write_sidecar_outline, Hwrite|].
    split; [intros q; eapply write_at_keeps_files, Hwrite|].
    split; [constructor; [|constructor]; unfold sidecar_of, FS.is_file;
            now rewrite Hres|].
    exists ((if verbose then [Printed (report_line root_text dir folders notes)] else [])
            ++ [Wrote (Path.join dir CONFIG_FILE_NAME) (sidecar_text json_dumps config)]).
    split; [rewrite L3, L2, app_assoc; reflexivity|].
    destruct verbose; auto. }
  assert (Hrest : forall fs0 acc wa rb wb,
            Forall (fun f => Path.name f <> CONFIG_FILE_NAME) fs0 ->
            same_outline (fs w) (fs wa) ->
            foldM
              (fun totals folder =>
                 let '(total_configs, total_folders, total_notes) := totals in
                 bind (rebuild fuel depth folder false verbose)
                   (fun sub =>
                      let '(sub_configs, sub_folders, sub_notes) := sub in
                      ret (total_configs + sub_configs,
                           total_folders + sub_folders,
                           total_notes + sub_notes)%nat))
              fs0 acc wa = Ret rb wb ->
            real_walked verbose (flat_map (visits depth (fs w)) fs0) wa wb /\
            rb = add_totals acc (totals (flat_map (visits depth (fs w)) fs0))).
  { clear -IH. induction fs0 as [|folder fs0 IHf]; intros acc wa rb wb Hnamed Hout Hf;
      cbn [foldM flat_map] in *.
    - apply ret_Ret in Hf as [<- <-]. split; [apply real_walked_nil|].
      now rewrite add_totals_0_r.
    - destruct acc as [[tc tf] tn].
      apply bind_Ret in Hf as (acc' & wc & Hstep & Hf).
      apply bind_Ret in Hstep as (sub & wd & Hsub & Hret).
      destruct sub as [[sc sf] sn]. apply ret_Ret in Hret as [<- <-].
      inversion Hnamed as [|? ? Hfolder Hnamed']; subst.
      apply IH in Hsub as [Hw Hr]; [|exact Hfolder].
      rewrite (visits_same_outline depth _ _ folder Hout Hfolder) in Hw, Hr.
      assert (Hout' : same_outline (fs w) (fs wd))
        by (eapply same_outline_trans; [exact Hout|apply Hw]).
      destruct (IHf _ _ _ _ Hnamed' Hout' Hf) as [Hw' ->]. split.
      + eapply real_walked_app; eauto.
      + rewrite totals_app, <- add_totals_assoc. f_equal.
        rewrite <- Hr. reflexivity. }
  destruct (Hrest _ _ _ _ _ Hnamed (proj1 Hhead) Hfold) as [Hw ->].
  rewrite Hvisits. split.
  - change ((dir, folders, notes) :: flat_map (visits depth (fs w)) folders)
      with ([(dir, folders, notes)] ++ flat_map (visits depth (fs w)) folders).
    eapply real_walked_app; [exact Hhead|exact Hw].
  - reflexivity.
Qed.

(** X15. On a notebook without symbolic links, a run that writes visits
    the directories a dry run reports: it returns their totals, writes
    exactly one sidecar per visited directory, parents first, prints
    their reports when [verbose] is set and nothing otherwise, leaves a
    regular file [vx.json] in each of them, and changes nothing about
    the kind of any path that is not called [vx.json], so that a later
    walk visits the same directories. *)
Theorem real_run_writes_one_sidecar_per_visit
    (fuel depth : nat) (dir : path) (verbose : bool) (w : world)
    (r : nat * nat * nat) (w' : world) :
  Path.name dir <> CONFIG_FILE_NAME ->
  link_free (fs w) ->
  rebuild fuel depth dir false verbose w = Ret r w' ->
  let walked := visits depth (fs w) dir in
  r = totals walked /\
  (exists events,
     log w' = log w ++ events /\
     written_files events = map sidecar_of walked /\
     printed_lines events = if verbose then map report_text walked else []) /\
  Forall (fun v => FS.is_file (fs w') (sidecar_of v) = true) walked /\
  (forall q, Path.name q <> CONFIG_FILE_NAME ->
     FS.is_symlink (fs w') q = FS.is_symlink (fs w) q /\
     FS.is_dir (fs w') q = FS.is_dir (fs w) q /\
     FS.is_file (fs w') q = FS.is_file (fs w) q) /\
  visits depth (fs w') dir = walked /\
  (forall v r0 w0, rebuild fuel depth dir true v w = Ret r0 w0 -> r0 = r).
Proof.
  intros Hdir _ H walked. apply real_walk in H as [(Hout & _ & Hfiles & Hev) ->];
    [|exact Hdir].
  split; [reflexivity|]. split; [exact Hev|]. split; [exact Hfiles|]. split; [|split].
  - intros q Hq. rewrite !is_symlink_outline, !is_dir_outline, !is_file_outline.
    rewrite (Hout q Hq). auto.
  - apply visits_same_outline; assumption.
  - intros v r0 w0 Hdry. now apply dry_walk in Hdry as [_ ->].
Qed.

End RealWalk.

(** ** Sound notebooks: the builders return *)

Lemma later_refl w : later w w.
Proof. split; exists O; reflexivity. Qed.

Lemma later_trans w1 w2 w3 : later w1 w2 -> later w2 w3 -> later w1 w3.
Proof.
  intros [[a Ha] [b Hb]] [[c Hc] [d Hd]]. split.
  - exists (a + c)%nat. intros n. rewrite Hc, Ha. f_equal. lia.
  - exists (b + d)%nat. intros n. rewrite Hd, Hb. f_equal. lia.
Qed.

Lemma advanced_later w w' : advanced w w' -> later w w'.
Proof. intros (_ & _ & H). exact H. Qed.

Lemma rng_ok_later fuel w w' : later w w' -> rng_ok fuel w -> rng_ok fuel w'.
Proof.
  intros [[a Ha] _] H j. destruct (H (a + j)%nat) as (k & Hk & Hpos).
  exists k. split; [exact Hk|]. rewrite Ha. now rewrite Nat.add_assoc.
Qed.

Lemma clock_ok_later w w' : later w w' -> clock_ok w -> clock_ok w'.
Proof. intros [_ [b Hb]] H k. rewrite Hb. apply H. Qed.

Lemma observed_mtime_ok w p :
  mtimes_ok (fs w) -> clock_ok w -> representable (observed_mtime w p / 1000000).
Proof.
  intros Hm Hc. unfold observed_mtime.
  destruct (FS.mtime_of (fs w) p) as [t|] eqn:E; [eapply Hm, E|apply Hc].
Qed.

Lemma iso_returns ts w :
  representable (ts / 1000000) -> iso_utc_from_timestamp ts w = Ret (stamp_of ts) w.
Proof. intros H. exact (proj1 (iso_utc_from_timestamp_spec ts w) H). Qed.

Lemma get_existing_time_returns existing key ts w :
  representable (ts / 1000000) ->
  exists s, get_existing_time existing key ts w = Ret s w.
Proof.
  intros H. unfold get_existing_time.
  destruct (nonempty_str (Dict.get key existing)) as [v|]; [exists v; reflexivity|].
  eexists. apply iso_returns, H.
Qed.

Lemma signature_or_fresh_returns fuel value w :
  rng_ok fuel w ->
  exists s w', signature_or_fresh fuel value w = Ret s w' /\ advanced w w'.
Proof.
  intros H.
  assert (Hgen : exists s w', generate_signature fuel w = Ret s w' /\ advanced w w').
  { destruct (H O) as (k & Hk & Hpos).
    destruct (generate_signature_returns fuel w (ex_intro _ k (conj Hk Hpos)))
      as (s & w' & Hg).
    exists s, w'. split; [exact Hg|].
    eapply quiet_Ret; [apply quiet_generate_signature|exact Hg]. }
  unfold signature_or_fresh. destruct (parse_signature_like value) as [p|]; [|exact Hgen].
  destruct (PyStr.is_empty p); [exact Hgen|].
  exists p, w. split; [reflexivity|apply advanced_refl].
Qed.

Lemma sound_advanced fuel w w' : advanced w w' -> sound fuel w -> sound fuel w'.
Proof.
  intros Hadv (Hr & Hc & Hm). pose proof (advanced_later _ _ Hadv) as Hl.
  destruct Hadv as (F & _). split; [eapply rng_ok_later; eauto|].
  split; [eapply clock_ok_later; eauto|]. now rewrite F.
Qed.

Lemma build_file_entry_returns fuel note existing w :
  sound fuel w ->
  exists entry w', build_file_entry fuel note existing w = Ret entry w' /\ advanced w w'.
Proof.
  intros Hs.
  assert (Hrep : representable (observed_mtime w note / 1000000))
    by (apply observed_mtime_ok; apply Hs).
  destruct (safe_mtime_returns note w) as (w1 & H1 & A1).
  destruct (signature_or_fresh_returns fuel (Dict.get "signature" existing) w1)
    as (sg & w2 & H2 & A2); [eapply sound_advanced; eauto|].
  destruct (get_existing_time_returns existing "created_time" _ w2 Hrep) as (cr & H3).
  pose proof (iso_returns _ w2 Hrep) as H4.
  assert (Hret : exists entry w', build_file_entry fuel note existing w = Ret entry w').
  { unfold build_file_entry, bind. rewrite H1, H2, H3, H4.
    destruct (PyStr.is_empty _).
    - rewrite infer_attachment_Ret. do 2 eexists. reflexivity.
    - do 2 eexists. reflexivity. }
  destruct Hret as (entry & w' & Hret). exists entry, w'. split; [exact Hret|].
  eapply quiet_Ret; [apply quiet_build_file_entry|exact Hret].
Qed.

Lemma mapM_returns {A B} (I : world -> Prop) (f : A -> M B) xs :
  (forall x w, I w -> exists y w', f x w = Ret y w' /\ I w') ->
  forall w, I w -> exists ys w', mapM f xs w = Ret ys w' /\ I w'.
Proof.
  intros Hf. induction xs as [|x xs IH]; intros w Hw; simpl.
  - exists [], w. auto.
  - destruct (Hf x w Hw) as (y & w1 & Hy & Hw1).
    destruct (IH w1 Hw1) as (ys & w2 & Hys & Hw2).
    exists (y :: ys), w2. unfold bind. rewrite Hy, Hys. auto.
Qed.

Lemma build_node_config_returns fuel dir folders notes existing w :
  sound fuel w ->
  exists config w',
    build_node_config fuel dir folders notes existing w = Ret config w' /\
    advanced w w'.
Proof.
  intros Hs.
  assert (Hrep : representable (observed_mtime w dir / 1000000))
    by (apply observed_mtime_ok; apply Hs).
  destruct (safe_mtime_returns dir w) as (w1 & H1 & A1).
  pose proof (sound_advanced _ _ _ A1 Hs) as Hs1.
  destruct (mapM_returns (sound fuel)
              (fun note =>
                 build_file_entry fuel note
                   (Dict.get_default (Path.name note) []
                      (map_entries_by_name (Dict.get "files" existing))))
              notes) with (w := w1) as (fe & w2 & H2 & Hs2); [|exact Hs1|].
  { intros note wa Ha.
    destruct (build_file_entry_returns fuel note
                (Dict.get_default (Path.name note) []
                   (map_entries_by_name (Dict.get "files" existing))) wa Ha)
      as (e & wb & He & Hadv).
    exists e, wb. split; [exact He|eapply sound_advanced; eauto]. }
  destruct (signature_or_fresh_returns fuel (Dict.get "signature" existing) w2)
    as (sg & w3 & H3 & A3); [apply Hs2|].
  destruct (get_existing_time_returns existing "created_time" _ w3 Hrep) as (cr & H4).
  pose proof (iso_returns _ w3 Hrep) as H5.
  assert (Hret : exists config w',
            build_node_config fuel dir folders notes existing w = Ret config w').
  { unfold build_node_config, bind. rewrite H1, H2, H3, H4, H5.
    do 2 eexists. reflexivity. }
  destruct Hret as (config & w' & Hret). exists config, w'. split; [exact Hret|].
  eapply quiet_Ret; [apply quiet_build_node_config|exact Hret].
Qed.

(** X20. A modification time outside the years 1 to 9999 aborts the
    build of the entry, and with it the run: [build_file_entry] raises
    when it stamps [modified_time], whether or not the previous entry
    records a creation time. *)
Theorem unrepresentable_mtime_aborts_the_build
    (fuel : nat) (note : path) (existing : dict json) (w : world) (t : Z) :
  FS.mtime_of (fs w) note = Some t ->
  ~ representable (t / 1000000) ->
  rng_ok fuel w ->
  exists w', build_file_entry fuel note existing w = Raise ValueError w' /\ advanced w w'.
Proof.
  intros Hm Hrep Hrng.
  assert (H1 : safe_mtime note w = Ret t w).
  { unfold safe_mtime, try_except, st_mtime. now rewrite Hm. }
  destruct (signature_or_fresh_returns fuel (Dict.get "signature" existing) w Hrng)
    as (sg & w2 & H2 & A2).
  pose proof (proj2 (iso_utc_from_timestamp_spec t w2) Hrep) as H4.
  exists w2. split; [|exact A2].
  unfold build_file_entry, bind. rewrite H1, H2. unfold get_existing_time.
  destruct (nonempty_str (Dict.get "created_time" existing)) as [v|].
  - unfold ret at 1. now rewrite H4.
  - now rewrite H4.
Qed.

(** ** The walk returns *)

Lemma write_leaf_succeeds now text x :
  writable (FS.deref x) -> exists n', FS.write_leaf now text x = Some n'.
Proof.
  induction x as [m t|m entries| |t IH|] using node_link_ind; simpl; intros H;
    try contradiction; eauto.
  destruct (IH H) as [n' ->]. eauto.
Qed.

Lemma plain_root n :
  FS.is_symlink n [] = false -> FS.is_dir n [] = true -> exists m entries, n = Dir m entries.
Proof.
  unfold FS.is_symlink, FS.is_dir, FS.resolve. simpl.
  destruct n as [| m entries | |]; simpl; try discriminate; eauto.
Qed.

Lemma lookup_Dir m entries c p :
  FS.lookup (Dir m entries) (c :: p) =
  match Dict.lookup c entries with
  | Some child => FS.lookup child p
  | None => None
  end.
Proof. reflexivity. Qed.

Lemma write_at_succeeds now text c : forall dir n,
  plain_dirs n dir ->
  writable (FS.resolve n (dir ++ [c])) ->
  exists n', FS.write_at now text n (dir ++ [c]) = Some n'.
Proof.
  induction dir as [|c0 dir IH]; intros n Hplain Hw.
  - destruct (Hplain [] [] eq_refl) as [Hl Hd].
    destruct (plain_root n Hl Hd) as (m & entries & ->). simpl.
    unfold FS.resolve in Hw. simpl app in Hw. rewrite lookup_Dir in Hw.
    destruct (Dict.lookup c entries) as [child|]; [|eauto].
    simpl in Hw. destruct (write_leaf_succeeds now text child Hw) as [n' ->]. eauto.
  - destruct (Hplain [] (c0 :: dir) eq_refl) as [Hl Hd].
    destruct (plain_root n Hl Hd) as (m & entries & ->).
    destruct (Hplain [c0] dir eq_refl) as [_ Hd0].
    unfold FS.is_dir, FS.resolve in Hd0. rewrite lookup_Dir in Hd0.
    simpl app. cbn [FS.write_at].
    destruct (Dict.lookup c0 entries) as [child|] eqn:Ec; [|discriminate].
    destruct (IH child) as [n' ->]; [| |eauto].
    + intros q rest Hq. destruct (Hplain (c0 :: q) rest) as [H1 H2];
        [simpl; now rewrite Hq|].
      unfold FS.is_symlink, FS.is_dir, FS.resolve in *.
      rewrite lookup_Dir, Ec in H1, H2. auto.
    + unfold FS.resolve in *. simpl app in Hw. rewrite lookup_Dir, Ec in Hw. exact Hw.
Qed.

Lemma mtime_of_cons m entries c child q :
  Dict.lookup c entries = Some child ->
  FS.mtime_of (Dir m entries) (c :: q) = FS.mtime_of child q.
Proof.
  intros H. unfold FS.mtime_of, FS.resolve. now rewrite lookup_Dir, H.
Qed.

Lemma mtime_of_none n q : FS.lookup n q = None -> FS.mtime_of n q = None.
Proof. unfold FS.mtime_of, FS.resolve. now intros ->. Qed.

Lemma write_at_mtime now text : forall p n n',
  FS.write_at now text n p = Some n' ->
  forall q, FS.mtime_of n' q = FS.mtime_of n q \/ FS.mtime_of n' q = Some now.
Proof.
  induction p as [|c p IH]; intros n n' H q.
  - simpl in H. destruct q as [|c q].
    + right. apply write_leaf_deref in H as [H _].
      unfold FS.mtime_of. rewrite lookup_nil_deref, H. reflexivity.
    + left. destruct (lookup_below_leaf _ _ _ _ c q H) as [H1 H2].
      now rewrite !mtime_of_none.
  - simpl in H. destruct n as [|m entries| |]; try discriminate.
    destruct (Dict.lookup c entries) as [child|] eqn:Ec.
    + destruct (FS.write_at now text child p) as [child'|] eqn:Ew; [|discriminate].
      injection H as <-. destruct q as [|c' q]; [now left|].
      destruct (String.eqb c' c) eqn:E.
      * apply String.eqb_eq in E. subst c'.
        rewrite (mtime_of_cons _ _ _ child' q (lookup_set_same _ _ _)).
        rewrite (mtime_of_cons _ _ _ child q Ec). exact (IH _ _ Ew q).
      * apply String.eqb_neq in E. left. unfold FS.mtime_of, FS.resolve.
        now rewrite !lookup_Dir, lookup_set_other.
    + destruct p; [|discriminate]. injection H as <-. destruct q as [|c' q].
      * unfold FS.mtime_of. simpl. destruct m; simpl; auto.
      * unfold FS.mtime_of, FS.resolve. rewrite !lookup_Dir, lookup_app.
        destruct (Dict.lookup c' entries) as [x|] eqn:Ex; [now left|].
        cbn [Dict.lookup]. destruct (String.eqb c c'); [|now left].
        destruct q as [|c2 q]; [now right|now left].
Qed.

Lemma writable_outline n q :
  writable (FS.resolve n q) <->
  match outline (FS.lookup n q) with
  | Some (_, KDir _) | Some (_, KSpecial) => False
  | _ => True
  end.
Proof.
  unfold FS.resolve, outline, kind_of. destruct (FS.lookup n q) as [x|]; [|reflexivity].
  simpl. destruct (FS.deref x) as [[]|]; reflexivity.
Qed.

Lemma walked_on_refl w : walked_on w w.
Proof.
  split; [apply later_refl|]. split; [apply same_outline_refl|]. repeat split; auto.
Qed.

Lemma walked_on_trans w1 w2 w3 : walked_on w1 w2 -> walked_on w2 w3 -> walked_on w1 w3.
Proof.
  intros (L1 & O1 & D1 & T1 & W1) (L2 & O2 & D2 & T2 & W2).
  split; [eapply later_trans; eauto|]. split; [eapply same_outline_trans; eauto|].
  split; [auto|]. split; [|auto].
  intros q t H. destruct (T2 q t H) as [H'|[k ->]]; [auto|].
  right. destruct L1 as [_ [j Hj]]. exists (j + k)%nat. apply Hj.
Qed.

Lemma walked_on_same_fs w w' :
  fs w' = fs w -> later w w' -> walked_on w w'.
Proof.
  intros F L. split; [exact L|]. rewrite F. split; [apply same_outline_refl|].
  repeat split; auto.
Qed.

Lemma walked_on_write p text w u w' dir :
  p = Path.join dir CONFIG_FILE_NAME ->
  write_text p text w = Ret u w' -> walked_on w w'.
Proof.
  intros -> H. unfold write_text in H.
  destruct (FS.write_at (clock w O) text (fs w) (Path.join dir CONFIG_FILE_NAME))
    as [n'|] eqn:E; [|discriminate].
  injection H as _ <-. cbn [fs rng clock].
  split; [split; [exists O|exists 1%nat]; reflexivity|].
  split; [eapply write_sidecar_outline, E|]. split; [|split].
  - intros q Hq. cbn [fs] in Hq.
    destruct (list_eq_dec string_dec q (Path.join dir CONFIG_FILE_NAME)) as [->|Hne].
    + unfold FS.is_dir in Hq. rewrite (write_at_resolve _ _ _ _ _ E) in Hq. discriminate.
    + rewrite is_dir_outline in *.
      now rewrite <- (write_at_outline _ _ _ _ _ (or_intror (name_snoc _ _)) E q Hne).
  - intros q t Ht. cbn [fs] in Ht. destruct (write_at_mtime _ _ _ _ _ E q) as [H|H].
    + left. congruence.
    + right. exists O. congruence.
  - intros Hw q. specialize (Hw q). cbn [fs].
    destruct (list_eq_dec string_dec (Path.join q CONFIG_FILE_NAME)
                (Path.join dir CONFIG_FILE_NAME)) as [->|Hne].
    + now rewrite (write_at_resolve _ _ _ _ _ E).
    + apply writable_outline. apply writable_outline in Hw.
      now rewrite (write_at_outline _ _ _ _ _ (or_intror (name_snoc _ _)) E _ Hne).
Qed.

Lemma name_in (q : path) : q <> [] -> In (Path.name q) q.
Proof.
  unfold Path.name. induction q as [|c q IH]; [congruence|]. intros _.
  destruct q as [|c' q]; [now left|]. right. apply IH. discriminate.
Qed.

Lemma prefix_name (dir q rest : path) :
  ~ In CONFIG_FILE_NAME dir -> dir = q ++ rest -> Path.name q <> CONFIG_FILE_NAME.
Proof.
  intros Hnot -> Hname. destruct q as [|c q]; [discriminate|].
  apply Hnot, in_or_app. left. rewrite <- Hname. apply name_in. discriminate.
Qed.

Lemma sound_walked_on fuel w w' : walked_on w w' -> sound fuel w -> sound fuel w'.
Proof.
  intros (L & _ & _ & T & _) (Hr & Hc & Hm).
  split; [eapply rng_ok_later; eauto|]. split; [eapply clock_ok_later; eauto|].
  intros q t Ht. destruct (T q t Ht) as [H|[k ->]]; [eapply Hm, H|apply Hc].
Qed.

Lemma ready_walked_on fuel depth dry_run w w' dir :
  walked_on w w' -> ready fuel depth dry_run w dir -> ready fuel depth dry_run w' dir.
Proof.
  intros Hw (Hs & Hn & Hc & Hd & Hp).
  pose proof Hw as (L & O & D & T & W).
  split; [eapply sound_walked_on; eauto|].
  split; [intros sub H; apply Hn, D, H|]. split; [exact Hc|].
  assert (Hsame : forall q rest, dir = q ++ rest ->
            FS.is_symlink (fs w') q = FS.is_symlink (fs w) q /\
            FS.is_dir (fs w') q = FS.is_dir (fs w) q).
  { intros q rest Hq. rewrite !is_symlink_outline, !is_dir_outline.
    rewrite (O q (prefix_name _ _ _ Hc Hq)). auto. }
  split.
  - destruct (Hsame dir [] (eq_sym (app_nil_r dir))) as [_ ->]. exact Hd.
  - intros Hdry. destruct (Hp Hdry) as [Hplain Hwr]. split; [|auto].
    intros q rest Hq. destruct (Hsame q rest Hq) as [-> ->]. eapply Hplain, Hq.
Qed.

Lemma keeps_folder_facts n child :
  keeps_folder n child = true ->
  Path.name child <> CONFIG_FILE_NAME /\
  FS.is_symlink n child = false /\ FS.is_dir n child = true.
Proof.
  unfold keeps_folder. rewrite !andb_true_iff, !negb_true_iff.
  intros [[[H1 H2] H3] _]. split; [|auto].
  intros E. rewrite E, String.eqb_refl in H1. discriminate.
Qed.

Lemma ready_folder fuel depth dry_run w dir children folder :
  ready fuel (S depth) dry_run w dir ->
  children_of (fs w) dir = Some children ->
  In folder (sort_by_key name_key (filter (keeps_folder (fs w)) children)) ->
  ready fuel depth dry_run w folder.
Proof.
  intros (Hs & Hn & Hc & Hd & Hp) Hch Hin.
  apply sort_by_key_In, filter_In in Hin as [Hin Hk].
  apply keeps_folder_facts in Hk as (Hname & Hl & Hdir).
  unfold children_of in Hch. destruct (FS.entries_of (fs w) dir) as [es|]; [|discriminate].
  injection Hch as <-. apply in_map_iff in Hin as ([c x] & <- & _). simpl in *.
  rewrite name_snoc in Hname.
  split; [exact Hs|]. split.
  { intros sub H. rewrite <- app_assoc in H. apply Hn in H. simpl in H. lia. }
  split.
  { intros H. apply in_app_or in H as [H|[H|[]]]; [auto|congruence]. }
  split; [exact Hdir|].
  intros Hdry. destruct (Hp Hdry) as [Hplain Hwr]. split; [|exact Hwr].
  intros q rest Hq. destruct rest as [|r rest _] using rev_ind.
  - rewrite app_nil_r in Hq. subst q. auto.
  - rewrite app_assoc in Hq. apply app_inj_tail in Hq as [Hq _].
    eapply Hplain, Hq.
Qed.

Section Returns.

Variable json_loads : string -> option json.
Variable json_dumps : json -> string.
Variable root_text : string.

Local Abbreviation rebuild := (rebuild_recursively json_loads json_dumps root_text).

Lemma fold_returns fuel depth dry_run verbose :
  (forall dir w, ready fuel depth dry_run w dir ->
     exists r w', rebuild fuel depth dir dry_run verbose w = Ret r w' /\ walked_on w w') ->
  forall folders acc w,
    Forall (ready fuel depth dry_run w) folders ->
    exists r w',
      foldM
        (fun totals folder =>
           let '(total_configs, total_folders, total_notes) := totals in
           ' (sub_configs, sub_folders, sub_notes) <-
             rebuild fuel depth folder dry_run verbose ;;
           ret (total_configs + sub_configs,
                total_folders + sub_folders,
                total_notes + sub_notes)%nat)
        folders acc w = Ret r w' /\ walked_on w w'.
Proof.
  intros IH. induction folders as [|folder folders IHf]; intros acc w Hall.
  - exists acc, w. split; [reflexivity|apply walked_on_refl].
  - inversion Hall as [|? ? Hhead Htail]; subst.
    destruct (IH folder w Hhead) as ([[sc sf] sn] & w1 & Hrun & Hw1).
    destruct acc as [[tc tf] tn].
    destruct (IHf (tc + sc, tf + sf, tn + sn)%nat w1) as (r & w2 & Hfold & Hw2).
    { eapply Forall_impl; [|exact Htail]. intros f. apply ready_walked_on, Hw1. }
    exists r, w2. split; [|eapply walked_on_trans; eauto].
    cbn [foldM]. unfold bind at 1 2. rewrite Hrun. exact Hfold.
Qed.

Lemma walk_returns fuel depth dry_run verbose : forall dir w,
  ready fuel depth dry_run w dir ->
  exists r w', rebuild fuel depth dir dry_run verbose w = Ret r w' /\ walked_on w w'.
Proof.
  induction depth as [|depth IH]; intros dir w Hready.
  - destruct Hready as (_ & Hn & _ & Hd & _).
    specialize (Hn [] ltac:(now rewrite app_nil_r)). simpl in Hn. lia.
  - pose proof Hready as (Hs & Hn & Hc & Hd & Hp).
    apply children_of_is_dir in Hd as [children Hch].
    set (folders := sort_by_key name_key (filter (keeps_folder (fs w)) children)).
    set (notes := sort_by_key name_key (filter (keeps_note (fs w)) children)).
    destruct (build_node_config_returns fuel dir folders notes
                (loaded json_loads (fs w) (Path.join dir CONFIG_FILE_NAME)) w Hs)
      as (config & w1 & Hbuild & A1).
    set (w2 := if verbose || dry_run
               then mkWorld (fs w1) (rng w1) (clock w1)
                      (log w1 ++ [Printed (report_line root_text dir folders notes)])
               else w1).
    assert (W2 : walked_on w w2).
    { apply walked_on_same_fs.
      - unfold w2. destruct (verbose || dry_run); simpl; apply A1.
      - eapply later_trans; [apply advanced_later, A1|].
        unfold w2. destruct (verbose || dry_run); split; exists O; reflexivity. }
    assert (Hwrite : exists w3,
              (if negb dry_run
               then write_json json_dumps (Path.join dir CONFIG_FILE_NAME) config
               else ret tt) w2 = Ret tt w3 /\ walked_on w2 w3).
    { destruct dry_run; cbn [negb].
      - exists w2. split; [reflexivity|apply walked_on_refl].
      - pose proof (ready_walked_on _ _ _ _ _ _ W2 Hready) as (_ & _ & _ & _ & Hp2).
        destruct (Hp2 eq_refl) as [Hplain Hwr].
        destruct (write_at_succeeds (clock w2 O)
                    (sidecar_text json_dumps config) CONFIG_FILE_NAME dir (fs w2)
                    Hplain (Hwr dir)) as [n' Hn'].
        assert (Hrun : exists w3,
                  write_json json_dumps (Path.join dir CONFIG_FILE_NAME) config w2
                  = Ret tt w3).
        { unfold write_json, write_text, Path.join.
          change (json_dumps (JDict config) ++ String (ascii_of_nat 10) "")%string
            with (sidecar_text json_dumps config).
          rewrite Hn'. eauto. }
        destruct Hrun as [w3 Hrun]. exists w3. split; [exact Hrun|].
        eapply walked_on_write; [reflexivity|exact Hrun]. }
    destruct Hwrite as (w3 & Hwrite & W3).
    assert (W13 : walked_on w w3) by (eapply walked_on_trans; eauto).
    destruct (fold_returns fuel depth dry_run verbose IH folders
                (1%nat, List.length folders, List.length notes) w3)
      as (r & w4 & Hfold & W4).
    { apply Forall_forall. intros folder Hin.
      eapply ready_walked_on; [exact W13|]. eapply ready_folder; eauto. }
    exists r, w4. split; [|eapply walked_on_trans; eauto].
    cbn [rebuild_recursively]. unfold bind at 1.
    rewrite load_existing_config_Ret. unfold bind at 1.
    rewrite iter_children_run, Hch. fold folders notes. unfold bind at 1.
    rewrite Hbuild. unfold bind at 1.
    assert (Hprint : (if verbose || dry_run
                      then print (report_line root_text dir folders notes)
                      else ret tt) w1 = Ret tt w2).
    { unfold w2. destruct (verbose || dry_run); reflexivity. }
    rewrite Hprint. unfold bind at 1. rewrite Hwrite. exact Hfold.
Qed.


End Returns.

(** ** The whole program *)

Section Main.

Variable json_loads : string -> option json.
Variable json_dumps : json -> string.
Variable root_text : string.

Local Abbreviation rebuild := (rebuild_recursively json_loads json_dumps root_text).
Local Abbreviation report_text := (report_text root_text).
Local Abbreviation report_of := (report_of root_text).

Lemma main_refuses fuel depth dry_run verbose w :
  FS.is_dir (fs w) [] = false ->
  main json_loads json_dumps root_text fuel depth dry_run verbose w
  = Raise (SystemExit ("notebook root is not a directory: " ++ path_str root_text [])) w.
Proof. intros H. unfold main, bind, is_dir. rewrite H. reflexivity. Qed.

Lemma main_runs fuel depth dry_run verbose w r w1 :
  FS.is_dir (fs w) [] = true ->
  rebuild fuel depth [] dry_run verbose w = Ret r w1 ->
  main json_loads json_dumps root_text fuel depth dry_run verbose w
  = Ret 0 (mkWorld (fs w1) (rng w1) (clock w1) (log w1 ++ summary_lines dry_run r)).
Proof.
  intros Hd Hrun. unfold main, bind, is_dir. rewrite Hd. cbn [negb].
  rewrite Hrun. destruct r as [[c f] n]. unfold print, emit, ret. cbn [fs rng clock log].
  rewrite <- !app_assoc. reflexivity.
Qed.

Lemma main_Ret fuel depth dry_run verbose w z w' :
  main json_loads json_dumps root_text fuel depth dry_run verbose w = Ret z w' ->
  z = 0 /\ FS.is_dir (fs w) [] = true /\
  exists r w1,
    rebuild fuel depth [] dry_run verbose w = Ret r w1 /\
    fs w' = fs w1 /\ log w' = log w1 ++ summary_lines dry_run r.
Proof.
  intros H. destruct (FS.is_dir (fs w) []) eqn:Hd.
  - destruct (rebuild fuel depth [] dry_run verbose w) as [r w1| |] eqn:Hrun.
    + rewrite (main_runs _ _ _ _ _ _ _ Hd Hrun) in H. injection H as <- <-.
      split; [reflexivity|]. split; [reflexivity|]. exists r, w1. auto.
    + unfold main, bind, is_dir in H. rewrite Hd in H. cbn [negb] in H.
      rewrite Hrun in H. discriminate.
    + unfold main, bind, is_dir in H. rewrite Hd in H. cbn [negb] in H.
      rewrite Hrun in H. discriminate.
  - rewrite main_refuses in H by exact Hd. discriminate.
Qed.

Lemma printed_reports vs : printed_lines (map report_of vs) = map report_text vs.
Proof.
  induction vs as [|[[d f] n] vs IH]; simpl; [reflexivity|]. now rewrite IH.
Qed.

Lemma written_reports vs : written_files (map report_of vs) = [].
Proof. induction vs as [|[[d f] n] vs IH]; simpl; [reflexivity|exact IH]. Qed.

Lemma walk_events fuel depth dry_run verbose dir w r w' :
  Path.name dir <> CONFIG_FILE_NAME ->
  rebuild fuel depth dir dry_run verbose w = Ret r w' ->
  let walked := visits depth (fs w) dir in
  r = totals walked /\
  (dry_run = true -> fs w' = fs w) /\
  exists events,
    log w' = log w ++ events /\
    printed_lines events = (if verbose || dry_run then map report_text walked else []) /\
    written_files events = (if dry_run then [] else map sidecar_of walked).
Proof.
  intros Hdir H walked. destruct dry_run.
  - apply dry_walk in H as [(F & L & _) ->]. split; [reflexivity|]. split; [auto|].
    exists (map report_of walked). rewrite orb_true_r.
    split; [exact L|]. split; [apply printed_reports|apply written_reports].
  - apply real_walk in H as [(_ & _ & _ & events & L & W & P) ->]; [|exact Hdir].
    split; [reflexivity|]. split; [discriminate|].
    exists events. rewrite orb_false_r. auto.
Qed.


End Main.

(** ** Ties in the sort *)

Lemma filter_insert_by_key {A} (key : A -> list N) (k0 : list N) x l :
  let same y := PyStr.key_leb k0 (key y) && PyStr.key_leb (key y) k0 in
  filter same (insert_by_key key x l) = filter same (x :: l).
Proof.
  intros same. induction l as [|y l IH]; [reflexivity|].
  cbn [insert_by_key]. destruct (PyStr.key_leb (key x) (key y)) eqn:E; [reflexivity|].
  cbn [filter] in *. rewrite IH.
  destruct (same x) eqn:Ex, (same y) eqn:Ey; try reflexivity.
  unfold same in Ex, Ey. apply andb_true_iff in Ex as [_ Ex]. apply andb_true_iff in Ey as [Ey _].
  rewrite (key_leb_trans _ _ _ Ex Ey) in E. discriminate.
Qed.

Lemma sort_by_key_stable {A} (key : A -> list N) (k0 : list N) l :
  let same y := PyStr.key_leb k0 (key y) && PyStr.key_leb (key y) k0 in
  filter same (sort_by_key key l) = filter same l.
Proof.
  intros same. induction l as [|x l IH]; [reflexivity|].
  cbn [sort_by_key]. unfold same. rewrite filter_insert_by_key. fold same.
  cbn [filter]. now rewrite IH.
Qed.

(** X22. The sort of the scanner is stable: children whose names have
    the same case-folded form, such as [a.md] and [A.md], are returned
    in the order in which the directory lists them. *)
Theorem ties_keep_directory_order
    (dir : path) (w : world) (folders notes : list path) (w' : world) :
  iter_children dir w = Ret (folders, notes) w' ->
  exists children,
    children_of (fs w) dir = Some children /\
    forall p,
      filter (same_fold p) folders
      = filter (same_fold p) (filter (keeps_folder (fs w)) children) /\
      filter (same_fold p) notes
      = filter (same_fold p) (filter (keeps_note (fs w)) children).
Proof.
  intros H. apply iter_children_Ret in H as (_ & children & Hc & -> & ->).
  exists children. split; [exact Hc|]. intros p. unfold same_fold.
  split; apply (sort_by_key_stable name_key (name_key p)).
Qed.

(** ** Trees the walk cannot tell apart *)

Lemma write_at_lookup_apart now text : forall p n n',
  FS.write_at now text n p = Some n' ->
  forall q, (forall rest, p <> q ++ rest) -> FS.lookup n' q = FS.lookup n q.
Proof.
  induction p as [|c p IH]; intros n n' H q Hq.
  - destruct q as [|c q]; [now elim (Hq [])|]. simpl in H.
    now destruct (lookup_below_leaf _ _ _ _ c q H) as [-> ->].
  - simpl in H. destruct n as [|m entries| |]; try discriminate.
    destruct q as [|c' q]; [now elim (Hq (c :: p))|].
    destruct (Dict.lookup c entries) as [child|] eqn:Ec.
    + destruct (FS.write_at now text child p) as [child'|] eqn:Ew; [|discriminate].
      injection H as <-. rewrite !lookup_Dir. destruct (String.eqb c' c) eqn:E.
      * apply String.eqb_eq in E. subst c'. rewrite lookup_set_same, Ec.
        apply (IH _ _ Ew). intros rest ->. now elim (Hq rest).
      * apply String.eqb_neq in E. now rewrite lookup_set_other.
    + destruct p; [|discriminate]. injection H as <-. rewrite !lookup_Dir, lookup_app.
      destruct (Dict.lookup c' entries) as [x|] eqn:Ex; [reflexivity|].
      cbn [Dict.lookup]. destruct (String.eqb c c') eqn:E; [|reflexivity].
      apply String.eqb_eq in E. subst c'.
      destruct q as [|c2 q]; [now elim (Hq [])|reflexivity].
Qed.

Lemma is_dir_Dir m entries c q :
  FS.is_dir (Dir m entries) (c :: q) =
  match Dict.lookup c entries with
  | Some child => FS.is_dir child q
  | None => false
  end.
Proof.
  unfold FS.is_dir, FS.resolve. rewrite lookup_Dir.
  destruct (Dict.lookup c entries); reflexivity.
Qed.

Lemma write_at_not_dir now text : forall p n n',
  FS.write_at now text n p = Some n' -> FS.is_dir n p = false.
Proof.
  induction p as [|c p IH]; intros n n' H.
  - simpl in H. apply write_leaf_deref in H as [_ H].
    unfold FS.is_dir. rewrite lookup_nil_deref.
    destruct H as [->|(m & t & ->)]; reflexivity.
  - simpl in H. destruct n as [|m entries| |]; try discriminate.
    rewrite is_dir_Dir. destruct (Dict.lookup c entries) as [child|]; [|reflexivity].
    destruct (FS.write_at now text child p) as [child'|] eqn:Ew; [|discriminate].
    exact (IH _ _ Ew).
Qed.

Lemma write_sidecar_is_dir now text n dir n' :
  FS.write_at now text n (Path.join dir CONFIG_FILE_NAME) = Some n' ->
  forall q, FS.is_dir n' q = FS.is_dir n q.
Proof.
  intros H q.
  destruct (list_eq_dec string_dec q (Path.join dir CONFIG_FILE_NAME)) as [->|Hne].
  - rewrite (write_at_not_dir _ _ _ _ _ H). unfold FS.is_dir.
    now rewrite (write_at_resolve _ _ _ _ _ H).
  - rewrite !is_dir_outline.
    now rewrite (write_at_outline _ _ _ _ _ (or_intror (name_snoc _ _)) H q Hne).
Qed.

Lemma names_at_Dir m entries c q :
  names_at (Dir m entries) (c :: q) =
  match Dict.lookup c entries with
  | Some child => names_at child q
  | None => None
  end.
Proof.
  unfold names_at, FS.entries_of, FS.resolve. rewrite lookup_Dir.
  destruct (Dict.lookup c entries); reflexivity.
Qed.

Lemma names_at_none n q : FS.lookup n q = None -> names_at n q = None.
Proof. unfold names_at, FS.entries_of, FS.resolve. now intros ->. Qed.

Lemma write_at_names now text : forall p n n',
  FS.write_at now text n p = Some n' ->
  forall q,
    names_at n' q = names_at n q \/
    (q ++ [Path.name p] = p /\
     names_at n' q = option_map (fun names => names ++ [Path.name p]) (names_at n q)).
Proof.
  induction p as [|c p IH]; intros n n' H q.
  - left. simpl in H. destruct q as [|c q].
    + apply write_leaf_deref in H as [H' H].
      unfold names_at, FS.entries_of. rewrite !lookup_nil_deref, H'.
      destruct H as [->|(m & t & ->)]; reflexivity.
    + destruct (lookup_below_leaf _ _ _ _ c q H) as [H1 H2]. now rewrite !names_at_none.
  - simpl in H. destruct n as [|m entries| |]; try discriminate.
    destruct (Dict.lookup c entries) as [child|] eqn:Ec.
    + destruct (FS.write_at now text child p) as [child'|] eqn:Ew; [|discriminate].
      injection H as <-. destruct q as [|c' q].
      * left. unfold names_at, FS.entries_of, FS.resolve. simpl.
        now rewrite (keys_set_present _ _ _ _ Ec).
      * rewrite !names_at_Dir. destruct (String.eqb c' c) eqn:E.
        -- apply String.eqb_eq in E. subst c'. rewrite lookup_set_same, Ec.
           destruct (IH _ _ Ew q) as [Heq|[Hq Heq]]; [now left|right].
           assert (Hp : p <> []) by (intros ->; destruct q; discriminate).
           rewrite (name_cons c p Hp). split; [simpl; now rewrite Hq|exact Heq].
        -- apply String.eqb_neq in E. left. now rewrite lookup_set_other.
    + destruct p; [|discriminate]. injection H as <-. destruct q as [|c' q].
      * right. split; [reflexivity|].
        unfold names_at, FS.entries_of, FS.resolve. simpl. now rewrite map_app.
      * left. rewrite !names_at_Dir, lookup_app.
        destruct (Dict.lookup c' entries) as [x|] eqn:Ex; [reflexivity|].
        cbn [Dict.lookup]. destruct (String.eqb c c'); [|reflexivity].
        destruct q; [reflexivity|apply names_at_none; reflexivity].
Qed.

Lemma subdirs_of_names n q :
  subdirs_of n q =
  option_map (fun names => filter (fun c => FS.is_dir n (q ++ [c])) names) (names_at n q).
Proof.
  unfold subdirs_of, names_at. rewrite children_of_names.
  destruct (FS.entries_of n q) as [es|]; [|reflexivity]. simpl. f_equal.
  rewrite filter_children, map_map. induction (filter _ _) as [|c l IH]; simpl;
    [reflexivity|]. now rewrite name_snoc, IH.
Qed.

Lemma write_sidecar_subdirs now text n dir n' :
  FS.write_at now text n (Path.join dir CONFIG_FILE_NAME) = Some n' ->
  forall q, subdirs_of n' q = subdirs_of n q.
Proof.
  intros H q. rewrite !subdirs_of_names.
  assert (Hd : forall c, FS.is_dir n' (q ++ [c]) = FS.is_dir n (q ++ [c]))
    by (intros c; eapply write_sidecar_is_dir, H).
  destruct (write_at_names _ _ _ _ _ H q) as [->|[Hq ->]].
  - destruct (names_at n q); [|reflexivity]. simpl. f_equal.
    apply filter_ext. exact Hd.
  - destruct (names_at n q) as [names|]; [|reflexivity]. simpl. f_equal.
    set (c0 := Path.name (Path.join dir CONFIG_FILE_NAME)) in *.
    rewrite filter_app. cbn [filter].
    rewrite (Hd c0), Hq, (write_at_not_dir _ _ _ _ _ H), app_nil_r.
    apply filter_ext. exact Hd.
Qed.

Lemma akin_refl n : akin n n.
Proof. split; [apply same_outline_refl|]. split; reflexivity. Qed.

Lemma akin_trans n1 n2 n3 : akin n1 n2 -> akin n2 n3 -> akin n1 n3.
Proof.
  intros (O1 & D1 & S1) (O2 & D2 & S2). split; [eapply same_outline_trans; eauto|].
  split; intros q; congruence.
Qed.

Lemma akin_sym n1 n2 : akin n1 n2 -> akin n2 n1.
Proof.
  intros (O & D & S). split; [intros q Hq; now rewrite (O q Hq)|].
  split; intros q; congruence.
Qed.

Lemma akin_write now text n dir n' :
  FS.write_at now text n (Path.join dir CONFIG_FILE_NAME) = Some n' -> akin n n'.
Proof.
  intros H. split; [eapply write_sidecar_outline, H|].
  split; [eapply write_sidecar_is_dir, H|eapply write_sidecar_subdirs, H].
Qed.

Lemma akin_inferred n n' note :
  akin n n' -> inferred_folder n' note = inferred_folder n note.
Proof.
  intros (_ & D & S). unfold inferred_folder. rewrite D.
  destruct (FS.is_dir n (assets_root_of note)); [|reflexivity].
  induction ATTACHMENT_ROOT_CANDIDATES as [|root roots IH]; simpl; [reflexivity|].
  now rewrite S, IH.
Qed.

(** Sidecars apart from the one written keep their contents. *)
Lemma write_at_other_sidecar now text n dir n' q :
  FS.write_at now text n (Path.join dir CONFIG_FILE_NAME) = Some n' ->
  ~ In CONFIG_FILE_NAME dir ->
  Path.name q = CONFIG_FILE_NAME -> q <> Path.join dir CONFIG_FILE_NAME ->
  FS.resolve n' q = FS.resolve n q.
Proof.
  intros H Hdir Hname Hne. unfold FS.resolve.
  rewrite (write_at_lookup_apart _ _ _ _ _ H q); [reflexivity|].
  intros rest Heq. unfold Path.join in *.
  destruct rest as [|r rest _] using rev_ind.
  - rewrite app_nil_r in Heq. congruence.
  - rewrite app_assoc in Heq. apply app_inj_tail in Heq as [Heq _].
    apply Hdir. rewrite Heq. apply in_or_app. left.
    rewrite <- Hname. apply name_in. intros ->. discriminate.
Qed.

Lemma under_self dir : under dir (Path.join dir CONFIG_FILE_NAME).
Proof. exists []. reflexivity. Qed.

Lemma under_child dir name q : under (dir ++ [name]) q -> under dir q.
Proof. intros [sub ->]. exists (name :: sub). now rewrite <- app_assoc. Qed.

Lemma under_siblings dir a b q :
  a <> b -> under (dir ++ [a]) q -> ~ under (dir ++ [b]) q.
Proof.
  intros Hab [s1 ->] [s2 H]. rewrite <- !app_assoc in H.
  apply app_inv_head in H. simpl in H. congruence.
Qed.

Lemma under_not_parent dir name :
  ~ under (dir ++ [name]) (Path.join dir CONFIG_FILE_NAME).
Proof.
  intros [sub H]. unfold Path.join in H. rewrite <- !app_assoc in H.
  apply app_inv_head in H. simpl in H. destruct sub; discriminate.
Qed.

(** ** What a run that writes builds *)

Lemma loaded_resolve loads n n' q :
  FS.resolve n' q = FS.resolve n q -> loaded loads n' q = loaded loads n q.
Proof. unfold loaded. now intros ->. Qed.

Lemma scan_folder_form n dir folders notes f :
  scan n dir = Some (folders, notes) -> In f folders ->
  exists name, f = dir ++ [name] /\ name <> CONFIG_FILE_NAME.
Proof.
  unfold scan. rewrite children_of_names.
  destruct (FS.entries_of n dir) as [es|]; [|discriminate]. simpl.
  intros [= <- _] Hin. apply sort_by_key_In, filter_In in Hin as [Hin Hk].
  apply in_map_iff in Hin as (name & <- & _). exists name. split; [reflexivity|].
  apply keeps_folder_facts in Hk as [Hk _]. now rewrite name_snoc in Hk.
Qed.

Lemma visits_under depth : forall n dir v,
  In v (visits depth n dir) -> under dir (sidecar_of v).
Proof.
  induction depth as [|depth IH]; intros n dir v Hin; [contradiction|].
  rewrite visits_scan in Hin.
  destruct (scan n dir) as [[folders notes]|] eqn:E; [|contradiction].
  destruct Hin as [<-|Hin]; [apply under_self|].
  apply in_flat_map in Hin as (f & Hf & Hin).
  destruct (scan_folder_form _ _ _ _ _ E Hf) as (name & -> & _).
  eapply under_child, IH, Hin.
Qed.

Lemma sidecar_named v : Path.name (sidecar_of v) = CONFIG_FILE_NAME.
Proof. destruct v as [[d f] n]. apply name_snoc. Qed.

Lemma Forall2_impl_in {A B} (R R' : A -> B -> Prop) l l' :
  (forall a b, In a l -> R a b -> R' a b) -> Forall2 R l l' -> Forall2 R' l l'.
Proof.
  intros H Hall. induction Hall as [|a b l l' Hab Hall IH]; constructor.
  - apply H; [now left|exact Hab].
  - apply IH. intros x y Hx. apply H. now right.
Qed.

Section Builds.

Variable json_loads : string -> option json.
Variable json_dumps : json -> string.
Variable root_text : string.

Local Abbreviation rebuild := (rebuild_recursively json_loads json_dumps root_text).
Local Abbreviation rebuilt := (rebuilt json_loads json_dumps).

Lemma rebuilt_later fuel w w1 w2 v c :
  FS.resolve (fs w2) (sidecar_of v) = FS.resolve (fs w1) (sidecar_of v) ->
  rebuilt fuel w w1 v c -> rebuilt fuel w w2 v c.
Proof.
  destruct v as [[d fo] no]. intros Hres (wb & wb' & A & B & m & R).
  exists wb, wb'. split; [exact A|]. split; [exact B|]. exists m.
  unfold sidecar_of in Hres. now rewrite Hres.
Qed.

Lemma rebuilt_earlier fuel w0 w w' v c :
  akin (fs w0) (fs w) ->
  FS.resolve (fs w) (sidecar_of v) = FS.resolve (fs w0) (sidecar_of v) ->
  rebuilt fuel w w' v c -> rebuilt fuel w0 w' v c.
Proof.
  destruct v as [[d fo] no]. intros A0 Hres (wb & wb' & A & B & R).
  exists wb, wb'. split; [eapply akin_trans; eauto|]. split; [|exact R].
  unfold sidecar_of in Hres. now rewrite <- (loaded_resolve json_loads _ _ _ Hres).
Qed.

Lemma real_walk_builds fuel depth verbose : forall dir w r w',
  ~ In CONFIG_FILE_NAME dir ->
  Forall distinct (visits depth (fs w) dir) ->
  rebuild fuel depth dir false verbose w = Ret r w' ->
  akin (fs w) (fs w') /\
  sidecars_kept dir w w' /\
  exists built, Forall2 (rebuilt fuel w w') (visits depth (fs w) dir) built.
Proof.
  induction depth as [|depth IH]; intros dir w r w' Hdir Hdist H; [discriminate|].
  apply rebuild_step in H.
  destruct H as (folders & notes & config & w1 & w2 & Hscan & Hbuild & Hadv
                 & Hprint & w3 & Hwrite & Hfold).
  rewrite orb_false_r in Hprint. cbn [negb] in Hwrite.
  destruct Hadv as (F1 & _).
  assert (F2 : fs w2 = fs w).
  { destruct verbose; [apply print_Ret in Hprint as (F2 & _); congruence|congruence]. }
  pose proof (written_then_loaded json_dumps _ _ _ _ _ Hwrite) as (Hres & _).
  apply write_json_Ret in Hwrite as (Hwrite & _ & _). rewrite F2 in Hwrite.
  pose proof (akin_write _ _ _ _ _ Hwrite) as A3.
  assert (K3 : forall q, Path.name q = CONFIG_FILE_NAME ->
                 q <> Path.join dir CONFIG_FILE_NAME ->
                 FS.resolve (fs w3) q = FS.resolve (fs w) q).
  { intros q Hq Hne. eapply write_at_other_sidecar; eauto. }
  assert (Hsc : scan (fs w) dir = Some (folders, notes)).
  { unfold scan. apply iter_children_Ret in Hscan as (_ & children & Hc & Hfolders & Hnotes).
    rewrite Hc, <- Hfolders, <- Hnotes. reflexivity. }
  assert (Hvisits : visits (S depth) (fs w) dir
                    = (dir, folders, notes) :: flat_map (visits depth (fs w)) folders)
    by (rewrite visits_scan, Hsc; reflexivity).
  rewrite Hvisits in *. inversion Hdist as [|? ? Hnd Hdist']; subst. simpl in Hnd.
  assert (Hform : forall f, In f folders ->
            exists name, f = dir ++ [name] /\ name <> CONFIG_FILE_NAME)
    by (intros f; apply (scan_folder_form _ _ _ _ _ Hsc)).
  assert (Hrest : forall fl acc wa rb wb,
            (forall f, In f fl -> exists name, f = dir ++ [name] /\ name <> CONFIG_FILE_NAME) ->
            NoDup fl ->
            Forall distinct (flat_map (visits depth (fs w)) fl) ->
            akin (fs w) (fs wa) ->
            foldM
              (fun totals folder =>
                 let '(total_configs, total_folders, total_notes) := totals in
                 bind (rebuild fuel depth folder false verbose)
                   (fun sub =>
                      let '(sub_configs, sub_folders, sub_notes) := sub in
                      ret (total_configs + sub_configs,
                           total_folders + sub_folders,
                           total_notes + sub_notes)%nat))
              fl acc wa = Ret rb wb ->
            akin (fs wa) (fs wb) /\
            (forall q, Path.name q = CONFIG_FILE_NAME ->
               (forall f, In f fl -> ~ under f q) ->
               FS.resolve (fs wb) q = FS.resolve (fs wa) q) /\
            exists built,
              Forall2 (rebuilt fuel wa wb) (flat_map (visits depth (fs w)) fl) built).
  { clear -IH Hdir. induction fl as [|f fl IHf];
      intros acc wa rb wb Hform Hnd Hdist Hakin Hf; cbn [foldM flat_map] in *.
    - apply ret_Ret in Hf as [<- <-]. split; [apply akin_refl|]. split; [auto|].
      exists []. constructor.
    - destruct acc as [[tc tf] tn].
      apply bind_Ret in Hf as (acc' & wc & Hstep & Hf).
      apply bind_Ret in Hstep as (sub & wd & Hsub & Hret).
      destruct sub as [[sc sf] sn]. apply ret_Ret in Hret as [<- <-].
      inversion Hnd as [|? ? Hnotin Hnd']; subst.
      apply Forall_app in Hdist as [Hdist1 Hdist2].
      destruct (Hform f (or_introl eq_refl)) as (a & -> & Ha).
      assert (Hfdir : ~ In CONFIG_FILE_NAME (dir ++ [a])).
      { intros Hin. apply in_app_or in Hin as [Hin|[Hin|[]]]; [auto|congruence]. }
      assert (Hfname : Path.name (dir ++ [a]) <> CONFIG_FILE_NAME)
        by now rewrite name_snoc.
      assert (Hv : visits depth (fs wa) (dir ++ [a]) = visits depth (fs w) (dir ++ [a]))
        by (apply visits_same_outline; [apply Hakin|exact Hfname]).
      apply IH in Hsub as (A1 & K1 & built1 & B1); [|exact Hfdir|now rewrite Hv].
      rewrite Hv in B1.
      destruct (IHf _ _ _ _ (fun g Hg => Hform g (or_intror Hg)) Hnd' Hdist2
                  (akin_trans _ _ _ Hakin A1) Hf) as (A2 & K2 & built2 & B2).
      split; [eapply akin_trans; eauto|]. split.
      + intros q Hq Hout. rewrite K2; [|exact Hq|intros g Hg; apply Hout; now right].
        apply K1; [exact Hq|]. apply Hout. now left.
      + exists (built1 ++ built2). apply Forall2_app.
        * eapply Forall2_impl_in; [|exact B1]. intros v c Hin.
          apply rebuilt_later. apply K2; [apply sidecar_named|].
          intros g Hg Hu. destruct (Hform g (or_intror Hg)) as (b & -> & _).
          apply visits_under in Hin.
          apply (under_siblings dir a b (sidecar_of v)); [|exact Hin|exact Hu].
          intros ->. contradiction.
        * eapply Forall2_impl_in; [|exact B2]. intros v c Hin.
          apply rebuilt_earlier; [exact A1|].
          apply K1; [apply sidecar_named|]. intros Hu.
          apply in_flat_map in Hin as (g & Hg & Hin).
          destruct (Hform g (or_intror Hg)) as (b & -> & _).
          apply visits_under in Hin.
          apply (under_siblings dir b a (sidecar_of v)); [|exact Hin|exact Hu].
          intros ->. contradiction. }
  destruct (Hrest _ _ _ _ _ Hform Hnd Hdist' A3 Hfold) as (A4 & K4 & built & B4).
  assert (Hparent : forall f, In f folders ->
            ~ under f (Path.join dir CONFIG_FILE_NAME)).
  { intros f Hf. destruct (Hform f Hf) as (a & -> & _). apply under_not_parent. }
  split; [eapply akin_trans; eauto|]. split.
  - intros q Hq Hout.
    rewrite K4; [apply K3; [exact Hq|]; intros ->; apply Hout, under_self|exact Hq|].
    intros f Hf Hu. destruct (Hform f Hf) as (a & -> & _).
    apply Hout. eapply under_child, Hu.
  - exists (config :: built). constructor.
    + exists w, w1. split; [apply akin_refl|]. split; [exact Hbuild|].
      eexists. rewrite K4; [exact Hres|apply name_snoc|exact Hparent].
    + eapply Forall2_impl_in; [|exact B4]. intros v c Hin.
      apply rebuilt_earlier; [exact A3|]. apply K3; [apply sidecar_named|].
      intros Heq. apply in_flat_map in Hin as (f & Hf & Hin).
      apply visits_under in Hin. rewrite Heq in Hin. exact (Hparent f Hf Hin).
Qed.

End Builds.

(** ** Two runs in a row *)

Lemma get_set k k' v d :
  Dict.get k (Dict.set k' v d) = if String.eqb k' k then v else Dict.get k d.
Proof.
  destruct (String.eqb_spec k' k) as [->|H]; [apply get_set_same|].
  apply get_set_other. congruence.
Qed.

Lemma same_but_set (P : string -> Prop) key v a b :
  (forall k, P k -> Dict.get k b = Dict.get k a) ->
  forall k, P k -> Dict.get k (Dict.set key v b) = Dict.get k (Dict.set key v a).
Proof. intros H k Hk. rewrite !get_set. destruct (String.eqb key k); auto. Qed.

Lemma same_but_copy_visual (P : string -> Prop) existing : forall a b,
  (forall k, P k -> Dict.get k b = Dict.get k a) ->
  forall k, P k ->
    Dict.get k (copy_visual_keys existing b) = Dict.get k (copy_visual_keys existing a).
Proof.
  unfold copy_visual_keys.
  induction NODE_VISUAL_KEYS as [|key keys IH]; intros a b H; [exact H|].
  cbn [fold_left]. destruct (nonempty_str (Dict.get key existing)).
  - apply IH. now apply same_but_set.
  - now apply IH.
Qed.

Lemma get_cons k k' v (d : dict json) :
  Dict.get k ((k', v) :: d) = if String.eqb k' k then v else Dict.get k d.
Proof. unfold Dict.get. cbn [Dict.lookup]. now destruct (String.eqb k' k). Qed.

Lemma file_entries_same_but_mtime note previous sg cr af m1 m2 :
  same_but_mtime (file_entry_of note previous sg cr m1 af)
                 (file_entry_of note previous sg cr m2 af).
Proof.
  unfold same_but_mtime, file_entry_of.
  apply (same_but_copy_visual (fun k => k <> "modified_time")).
  apply (same_but_set (fun k => k <> "modified_time")).
  intros k Hk. unfold file_entry_base. rewrite !get_cons.
  destruct (String.eqb_spec "modified_time" k) as [E|_]; [now elim Hk|reflexivity].
Qed.

Lemma repeats_entry_same_but_mtime n1 n2 e1 e2 :
  repeats_entry n1 n2 e1 e2 -> same_but_mtime e1 e2.
Proof.
  intros (note & previous & sg & cr & af & wa & wb & _ & _ & -> & ->).
  apply file_entries_same_but_mtime.
Qed.

Lemma node_configs_same_but_mtimes existing sg cr m1 m2 entries1 entries2 folders n1 n2 :
  Forall2 (repeats_entry n1 n2) entries1 entries2 ->
  same_config_but_mtimes (node_config_of existing sg cr m1 entries1 folders)
                         (node_config_of existing sg cr m2 entries2 folders).
Proof.
  intros Hrep. split.
  - intros k Hm Hf. unfold node_config_of.
    apply (same_but_copy_visual (fun k => k <> "modified_time" /\ k <> "files"));
      [|now split].
    clear k Hm Hf. intros k [Hm Hf]. unfold node_config_base. rewrite !get_cons.
    destruct (String.eqb_spec "modified_time" k) as [E|_]; [now elim Hm|].
    destruct (String.eqb_spec "files" k) as [E|_]; [now elim Hf|reflexivity].
  - exists entries1, entries2.
    split; [rewrite node_config_of_get by not_visual; reflexivity|].
    split; [rewrite node_config_of_get by not_visual; reflexivity|].
    eapply Forall2_impl; [|exact Hrep]. intros a b. apply repeats_entry_same_but_mtime.
Qed.

Lemma NoDup_map_filter {A B} (h : A -> B) (f : A -> bool) l :
  NoDup (map h l) -> NoDup (map h (filter f l)).
Proof.
  induction l as [|x l IH]; simpl; intros H; [constructor|].
  inversion H as [|? ? Hnotin Hnd]; subst.
  destruct (f x); simpl; [|auto]. constructor; [|auto].
  intros Hin. apply Hnotin. apply in_map_iff in Hin as (y & Hy & Hin).
  apply in_map_iff. exists y. split; [exact Hy|]. now apply filter_In in Hin.
Qed.

Lemma names_of_children dir names :
  map Path.name (map (fun c => dir ++ [c]) names) = names.
Proof.
  rewrite map_map. rewrite <- (map_id names) at 2. apply map_ext.
  intros c. apply name_snoc.
Qed.

Lemma kept_children_named_once key dir names (f : path -> bool) :
  NoDup names -> ~ In "" names ->
  let kept := sort_by_key key (filter f (map (fun c => dir ++ [c]) names)) in
  NoDup (map Path.name kept) /\ Forall (fun p => Path.name p <> "") kept.
Proof.
  intros Hnd Hne kept.
  assert (Hperm : Permutation (filter f (map (fun c => dir ++ [c]) names)) kept)
    by apply sort_by_key_perm.
  split.
  - eapply Permutation_NoDup; [apply Permutation_map, Hperm|].
    apply NoDup_map_filter. now rewrite names_of_children.
  - apply Forall_forall. intros p Hp Hname.
    apply (Permutation_in _ (Permutation_sym Hperm)), filter_In in Hp as [Hp _].
    apply in_map_iff in Hp as (c & <- & Hc). rewrite name_snoc in Hname.
    now subst c.
Qed.

Lemma scan_listed_once n dir folders notes :
  listed_once n -> scan n dir = Some (folders, notes) ->
  (NoDup (map Path.name folders) /\ Forall (fun p => Path.name p <> "") folders) /\
  (NoDup (map Path.name notes) /\ Forall (fun p => Path.name p <> "") notes).
Proof.
  intros Hl. unfold scan. rewrite children_of_names.
  destruct (FS.entries_of n dir) as [es|] eqn:E; [|discriminate]. simpl.
  destruct (Hl _ _ E) as [Hnd Hne]. intros [= <- <-].
  split; now apply kept_children_named_once.
Qed.

Lemma visits_scanned depth : forall n dir d folders notes,
  In (d, folders, notes) (visits depth n dir) -> scan n d = Some (folders, notes).
Proof.
  induction depth as [|depth IH]; intros n dir d folders notes Hin; [contradiction|].
  rewrite visits_scan in Hin.
  destruct (scan n dir) as [[fo no]|] eqn:E; [|contradiction].
  destruct Hin as [[= <- <- <-]|Hin]; [exact E|].
  apply in_flat_map in Hin as (f & _ & Hin). eapply IH, Hin.
Qed.

Lemma visits_distinct depth n dir :
  listed_once n -> Forall distinct (visits depth n dir).
Proof.
  intros Hl. apply Forall_forall. intros [[d folders] notes] Hin.
  apply visits_scanned in Hin.
  destruct (scan_listed_once _ _ _ _ Hl Hin) as [[Hnd _] _].
  simpl. eapply NoDup_map_inv, Hnd.
Qed.

Lemma Forall2_join {A B C} (R1 : A -> B -> Prop) (R2 : A -> C -> Prop)
    (S : B -> C -> Prop) l l1 l2 :
  (forall a b c, In a l -> R1 a b -> R2 a c -> S b c) ->
  Forall2 R1 l l1 -> Forall2 R2 l l2 -> Forall2 S l1 l2.
Proof.
  intros H H1. revert l2. induction H1 as [|a b l l1 Hab H1 IH]; intros l2 H2.
  - inversion H2. constructor.
  - inversion H2 as [|? c ? l2' Hac H2']; subst. constructor.
    + eapply H; [now left|eassumption|eassumption].
    + apply IH; [|exact H2']. intros x y z Hx. apply H. now right.
Qed.

Lemma Forall2_and_right {A B} (R : A -> B -> Prop) (P : B -> Prop) l l' :
  Forall2 R l l' -> Forall P l' -> Forall2 (fun a b => R a b /\ P b) l l'.
Proof.
  induction 1 as [|a b l l' Hab H IH]; intros HP; constructor;
    inversion HP; subst; auto.
Qed.

Section Again.

Variable json_dumps : json -> string.
Variable root_text : string.


End Again.

(** ** What a run that writes leaves alone *)

Lemma scan_is_dir n dir folders notes :
  scan n dir = Some (folders, notes) -> FS.is_dir n dir = true.
Proof.
  unfold scan. intros H. apply children_of_is_dir.
  destruct (children_of n dir) as [children|]; [eauto|discriminate].
Qed.

Lemma scan_note_form n dir folders notes note :
  scan n dir = Some (folders, notes) -> In note notes ->
  exists name,
    note = dir ++ [name] /\ name <> CONFIG_FILE_NAME /\ FS.is_dir n note = false.
Proof.
  unfold scan. rewrite children_of_names.
  destruct (FS.entries_of n dir) as [es|]; [|discriminate]. simpl.
  intros [= _ <-] Hin. apply sort_by_key_In, filter_In in Hin as [Hin Hk].
  apply in_map_iff in Hin as (name & <- & _). exists name.
  apply keeps_note_iff in Hk as (Hname & _ & Hdir & _). auto.
Qed.

(** A visited directory lies below the start, and everything between the
    start and it is a directory. *)
Lemma visits_prefixes depth : forall n dir d folders notes,
  In (d, folders, notes) (visits depth n dir) ->
  exists sub, d = dir ++ sub /\
    forall s1 s2, sub = s1 ++ s2 -> FS.is_dir n (dir ++ s1) = true.
Proof.
  induction depth as [|depth IH]; intros n dir d folders notes Hin; [contradiction|].
  rewrite visits_scan in Hin.
  destruct (scan n dir) as [[fo no]|] eqn:E; [|contradiction].
  pose proof (scan_is_dir _ _ _ _ E) as Hdir.
  destruct Hin as [[= <- <- <-]|Hin].
  - exists []. split; [now rewrite app_nil_r|]. intros s1 s2 Hs.
    symmetry in Hs. apply app_eq_nil in Hs as [-> _]. now rewrite app_nil_r.
  - apply in_flat_map in Hin as (f & Hf & Hin).
    destruct (scan_folder_form _ _ _ _ _ E Hf) as (a & -> & _).
    apply IH in Hin as (sub & -> & Hsub). exists (a :: sub).
    split; [now rewrite <- app_assoc|]. intros s1 s2 Hs.
    destruct s1 as [|c s1]; [now rewrite app_nil_r|].
    injection Hs as <- Hs. specialize (Hsub s1 s2 Hs).
    now rewrite <- app_assoc in Hsub.
Qed.

(** No note of a visited directory lies on the way to a sidecar. *)
Lemma notes_off_the_sidecars depth n dir d folders notes note :
  In (d, folders, notes) (visits depth n dir) -> In note notes ->
  off_the_sidecars (visits depth n dir) note.
Proof.
  intros Hv Hnote [[d' fo'] no'] rest Hv' Heq. unfold sidecar_of, Path.join in Heq.
  destruct (scan_note_form _ _ _ _ _ (visits_scanned _ _ _ _ _ _ Hv) Hnote)
    as (name & -> & Hname & Hfile).
  destruct (visits_prefixes _ _ _ _ _ _ Hv) as (sub & -> & _).
  destruct (visits_prefixes _ _ _ _ _ _ Hv') as (sub' & -> & Hdirs).
  rewrite <- !app_assoc in Heq. apply app_inv_head in Heq.
  destruct rest as [|c0 rest0];
    [|destruct (@exists_last _ (c0 :: rest0)) as (rest' & x & E);
      [discriminate|rewrite E in Heq; clear E]].
  - rewrite app_nil_r in Heq. apply app_inj_tail in Heq as [_ Heq]. congruence.
  - rewrite !app_assoc in Heq. apply app_inj_tail in Heq as [Heq _].
    rewrite <- !app_assoc in Heq.
    specialize (Hdirs (sub ++ [name]) rest').
    rewrite <- !app_assoc in Hdirs. specialize (Hdirs Heq).
    rewrite <- !app_assoc in Hfile. congruence.
Qed.

Section Frame.

Variable json_loads : string -> option json.
Variable json_dumps : json -> string.
Variable root_text : string.

Local Abbreviation rebuild := (rebuild_recursively json_loads json_dumps root_text).

Lemma real_walk_frame fuel depth verbose :
  forall dir w r w',
    rebuild fuel depth dir false verbose w = Ret r w' ->
    forall q, off_the_sidecars (visits depth (fs w) dir) q ->
      FS.lookup (fs w') q = FS.lookup (fs w) q.
Proof.
  induction depth as [|depth IH]; intros dir w r w' H; [discriminate|].
  apply rebuild_step in H.
  destruct H as (folders & notes & config & w1 & w2 & Hscan & Hbuild & Hadv
                 & Hprint & w3 & Hwrite & Hfold).
  rewrite orb_false_r in Hprint. cbn [negb] in Hwrite.
  destruct Hadv as (F1 & _).
  assert (F2 : fs w2 = fs w).
  { destruct verbose; [apply print_Ret in Hprint as (F2 & _); congruence|congruence]. }
  apply write_json_Ret in Hwrite as (Hwrite & _ & _). rewrite F2 in Hwrite.
  pose proof (akin_write _ _ _ _ _ Hwrite) as [O3 _].
  assert (Hsc : scan (fs w) dir = Some (folders, notes)).
  { unfold scan. apply iter_children_Ret in Hscan as (_ & children & Hc & Hfolders & Hnotes).
    rewrite Hc, <- Hfolders, <- Hnotes. reflexivity. }
  assert (Hvisits : visits (S depth) (fs w) dir
                    = (dir, folders, notes) :: flat_map (visits depth (fs w)) folders)
    by (rewrite visits_scan, Hsc; reflexivity).
  rewrite Hvisits.
  assert (Hnamed : forall f, In f folders -> Path.name f <> CONFIG_FILE_NAME)
    by (intros f; apply (scan_folders_named _ _ _ _ _ Hsc)).
  assert (Hrest : forall fl acc wa rb wb,
            (forall f, In f fl -> Path.name f <> CONFIG_FILE_NAME) ->
            same_outline (fs w) (fs wa) ->
            foldM
              (fun totals folder =>
                 let '(total_configs, total_folders, total_notes) := totals in
                 bind (rebuild fuel depth folder false verbose)
                   (fun sub =>
                      let '(sub_configs, sub_folders, sub_notes) := sub in
                      ret (total_configs + sub_configs,
                           total_folders + sub_folders,
                           total_notes + sub_notes)%nat))
              fl acc wa = Ret rb wb ->
            forall q, off_the_sidecars (flat_map (visits depth (fs w)) fl) q ->
              FS.lookup (fs wb) q = FS.lookup (fs wa) q).
  { clear -IH. induction fl as [|f fl IHf];
      intros acc wa rb wb Hnamed Hout Hf q Hq; cbn [foldM flat_map] in *.
    - apply ret_Ret in Hf as [_ <-]. reflexivity.
    - destruct acc as [[tc tf] tn].
      apply bind_Ret in Hf as (acc' & wc & Hstep & Hf).
      apply bind_Ret in Hstep as (sub & wd & Hsub & Hret).
      destruct sub as [[sc sf] sn]. apply ret_Ret in Hret as [<- <-].
      pose proof (Hnamed f (or_introl eq_refl)) as Hfname.
      pose proof (real_walk json_loads json_dumps root_text _ _ _ _ _ _ _ Hfname Hsub)
        as [[Hout' _] _].
      assert (Hv : visits depth (fs wa) f = visits depth (fs w) f)
        by (apply visits_same_outline; assumption).
      rewrite (IHf _ _ _ _ (fun g Hg => Hnamed g (or_intror Hg))
                 (same_outline_trans _ _ _ Hout Hout') Hf q).
      + apply (IH _ _ _ _ Hsub). rewrite Hv. intros v rest Hin.
        apply Hq, in_or_app. now left.
      + intros v rest Hin. apply Hq, in_or_app. now right. }
  intros q Hq.
  rewrite (Hrest _ _ _ _ _ Hnamed O3 Hfold q)
    by (intros v rest Hin; apply Hq; now right).
  apply (write_at_lookup_apart _ _ _ _ _ Hwrite). intros rest.
  apply (Hq (dir, folders, notes) rest). now left.
Qed.


End Frame.

(** ** The further statements at the sample notebooks *)

Lemma generate_signature_takes_first_positive_draw_witness :
  generate_signature 2 Sample.start = Ret "1" (after_draws 2 Sample.start).
Proof.
  refine (generate_signature_takes_first_positive_draw 2 Sample.start 1 _ _).
  - intros [|j] Hj; [reflexivity|lia].
  - reflexivity.
Defined.

Lemma exclusion_ignores_letter_case_witness :
  PyStr.lower "Notes_ASSETS" = PyStr.lower "notes_assets" /\
  should_exclude_dir "Notes_ASSETS" = should_exclude_dir "notes_assets".
Proof.
  split; [reflexivity|].
  exact (exclusion_ignores_letter_case "Notes_ASSETS" "notes_assets" eq_refl).
Defined.

Lemma plain_name_is_a_note_iff_it_ends_in_md_witness :
  PyStr.startswith "B.md" "." = false /\
  String.eqb (PyStr.lower (Path.suffix (Path.join ["sub"] "B.md"))) NOTE_SUFFIX
  = PyStr.endswith (PyStr.lower "B.md") NOTE_SUFFIX.
Proof.
  split; [reflexivity|].
  exact (proj1 (plain_name_is_a_note_iff_it_ends_in_md ["sub"] "B.md") eq_refl).
Defined.

Lemma scanner_keeps_exactly_the_eligible_children_witness :
  iter_children [] Sample.start
  = Ret ([["sub"]], [["Bar.MD"]; ["foo.md"]]) Sample.start /\
  exists entries,
    FS.entries_of (fs Sample.start) [] = Some entries /\
    (exists name,
       In name (map fst entries) /\ ["sub"] = Path.join [] name /\
       should_exclude_dir name = false) /\
    (3 <= List.length entries)%nat.
Proof.
  assert (Hiter : iter_children [] Sample.start
                  = Ret ([["sub"]], [["Bar.MD"]; ["foo.md"]]) Sample.start)
    by (vm_compute; reflexivity).
  split; [exact Hiter|].
  destruct (scanner_keeps_exactly_the_eligible_children _ _ _ _ _ Hiter)
    as (entries & He & Hf & _ & _ & Hlen).
  exists entries. split; [exact He|]. split; [|exact Hlen].
  destruct (proj1 (Hf ["sub"]) (or_introl eq_refl)) as (name & Hin & Hp & _ & _ & _ & Hex).
  exists name. auto.
Defined.

Lemma folder_entry_is_name_and_colours_witness :
  build_folder_entry "sub"
    [("background_color", JStr "#fff"); ("name_color", JStr ""); ("id", JInt 1)]
  = [("name", JStr "sub"); ("background_color", JStr "#fff")] /\
  In "background_color" NODE_VISUAL_KEYS.
Proof.
  destruct (folder_entry_is_name_and_colours "sub"
              [("background_color", JStr "#fff"); ("name_color", JStr ""); ("id", JInt 1)])
    as (Hentry & Hfields & _).
  split; [exact Hentry|].
  exact (proj1 (Hfields "background_color" (JStr "#fff") (or_introl eq_refl))).
Defined.

Lemma file_entry_has_fixed_fields_witness :
  exists entry w' id signature created modified tags folder,
    build_file_entry 2 ["foo.md"]
      (existing_entry "files" Sample.previous "foo.md") Sample.start = Ret entry w' /\
    entry =
      [ ("name", JStr "foo.md"); ("id", JStr id);
        ("signature", JStr signature); ("created_time", JStr created);
        ("modified_time", JStr modified); ("tags", JList (map JStr tags));
        ("attachment_folder", JStr folder) ] /\
    id <> "" /\ signature <> "".
Proof.
  assert (Hrun : exists entry w',
            build_file_entry 2 ["foo.md"]
              (existing_entry "files" Sample.previous "foo.md") Sample.start
            = Ret entry w')
    by (eexists; eexists; vm_compute; reflexivity).
  destruct Hrun as (entry & w' & Hrun).
  destruct (file_entry_has_fixed_fields _ _ _ _ _ _ Hrun)
    as (id & sg & cr & md & tags & af & Hentry & Hid & Hsg & _).
  exists entry, w', id, sg, cr, md, tags, af.
  split; [exact Hrun|]. split; [|split; [exact Hid|exact Hsg]].
  rewrite Hentry. apply app_nil_r.
Defined.

Lemma node_config_has_fixed_fields_witness :
  exists config w' version id signature created modified file_entries folder_entries,
    build_node_config 2 [] [["sub"]] [["Bar.MD"]; ["foo.md"]] Sample.previous
      Sample.start = Ret config w' /\
    config =
      [ ("version", version); ("id", JStr id); ("signature", JStr signature);
        ("created_time", JStr created); ("modified_time", JStr modified);
        ("files", JList (map JDict file_entries));
        ("folders", JList (map JDict folder_entries)) ] /\
    List.length file_entries = 2%nat /\ List.length folder_entries = 1%nat.
Proof.
  assert (Hrun : exists config w',
            build_node_config 2 [] [["sub"]] [["Bar.MD"]; ["foo.md"]] Sample.previous
              Sample.start = Ret config w')
    by (eexists; eexists; vm_compute; reflexivity).
  destruct Hrun as (config & w' & Hrun).
  destruct (node_config_has_fixed_fields _ _ _ _ _ _ _ _ Hrun)
    as (v & id & sg & cr & md & fe & fo & Hconfig & _ & _ & _ & _ & _ & Hfe & Hfo).
  exists config, w', v, id, sg, cr, md, fe, fo.
  split; [exact Hrun|]. split; [|split; [exact Hfe|exact Hfo]].
  rewrite Hconfig. apply app_nil_r.
Defined.

Lemma accepted_id_parses_to_itself_witness :
  not_boolean (JStr " 12 ") /\
  parse_id_like (JStr " 12 ") = Some "12" /\
  parse_id_like (JStr "12") = Some "12" /\
  parse_signature_like (JStr "12") = Some "12".
Proof.
  destruct (accepted_id_parses_to_itself (JStr " 12 ") "12" I eq_refl) as (Hid & _ & Hsig).
  split; [exact I|]. split; [reflexivity|]. split; [exact Hid|].
  apply Hsig. discriminate.
Defined.

Lemma index_entries_carry_their_name_witness :
  Dict.lookup "foo.md" (map_entries_by_name (Dict.get "files" Sample.previous))
  = Some [("name", JStr "foo.md"); ("id", JInt 42);
          ("tags", JList [JStr "x"; JStr ""; JInt 3])] /\
  Dict.get "name" [("name", JStr "foo.md"); ("id", JInt 42);
                   ("tags", JList [JStr "x"; JStr ""; JInt 3])] = JStr "foo.md".
Proof.
  assert (H : Dict.lookup "foo.md" (map_entries_by_name (Dict.get "files" Sample.previous))
              = Some [("name", JStr "foo.md"); ("id", JInt 42);
                      ("tags", JList [JStr "x"; JStr ""; JInt 3])]) by reflexivity.
  split; [exact H|].
  exact (proj1 (proj2 (proj1 index_entries_carry_their_name _ _ _ H))).
Defined.


Lemma configs_count_is_folders_plus_one_witness :
  exists w',
    rebuild_recursively Sample.json_loads Sample.json_dumps "/nb" 3 3 []
      true false Sample.start = Ret (2, 1, 5)%nat w' /\
    (2 = S 1)%nat.
Proof.
  eexists.
  assert (Hrun : rebuild_recursively Sample.json_loads Sample.json_dumps "/nb" 3 3 []
                   true false Sample.start = Ret (2, 1, 5)%nat _)
    by (vm_compute; reflexivity).
  split; [exact Hrun|].
  exact (configs_count_is_folders_plus_one _ _ _ _ _ _ _ _ _ _ _ _ _ Hrun).
Defined.

Lemma plain_notebook_link_free : link_free (fs plain_notebook).
Proof. apply has_no_link_free. reflexivity. Qed.

Lemma real_run_writes_one_sidecar_per_visit_witness :
  exists r w',
    Path.name [] <> CONFIG_FILE_NAME /\
    link_free (fs plain_notebook) /\
    rebuild_recursively Sample.json_loads Sample.json_dumps "/nb" 2 2 []
      false true plain_notebook = Ret r w' /\
    r = (2, 1, 3)%nat /\
    FS.is_file (fs w') ["vx.json"] = true /\
    FS.is_file (fs w') ["sub"; "vx.json"] = true.
Proof.
  assert (Hname : Path.name [] <> CONFIG_FILE_NAME) by discriminate.
  assert (Hrun : exists r w',
            rebuild_recursively Sample.json_loads Sample.json_dumps "/nb" 2 2 []
              false true plain_notebook = Ret r w')
    by (eexists; eexists; vm_compute; reflexivity).
  destruct Hrun as (r & w' & Hrun). exists r, w'.
  destruct (real_run_writes_one_sidecar_per_visit _ _ _ _ _ _ _ _ _ _ Hname
              plain_notebook_link_free Hrun) as (Hr & _ & Hfiles & _).
  split; [exact Hname|]. split; [exact plain_notebook_link_free|].
  split; [exact Hrun|]. split; [exact Hr|].
  set (walked := visits 2 (fs plain_notebook) []) in Hfiles.
  vm_compute in walked. subst walked.
  inversion Hfiles as [|? ? H1 Hrest]; subst.
  inversion Hrest as [|? ? H2 _]; subst.
  split; [exact H1|exact H2].
Defined.

Lemma boolean_id_tree_paths (q : path) :
  FS.lookup (fs boolean_id_world) q =
  match q with
  | [] => Some (fs boolean_id_world)
  | [c] => if String.eqb "vx.json" c
           then Some (File (Some 0) (Some boolean_id_text)) else None
  | _ => None
  end.
Proof.
  change (fs boolean_id_world)
    with (Dir (Some 0) [("vx.json", File (Some 0) (Some boolean_id_text))]).
  destruct q as [|c [|c2 q]]; [reflexivity| |]; rewrite lookup_Dir; cbn [Dict.lookup];
    destruct (String.eqb "vx.json" c); reflexivity.
Qed.

Lemma boolean_id_world_ready : ready 1 1 false boolean_id_world [].
Proof.
  assert (Hzero : representable (0 / 1000000)) by (split; discriminate).
  split; [split; [|split]|split; [|split; [|split]]].
  - intros j. exists O. split; [lia|reflexivity].
  - intros k. exact Hzero.
  - intros q t. unfold FS.mtime_of, FS.resolve. rewrite boolean_id_tree_paths.
    destruct q as [|c [|c2 q]]; try discriminate.
    + intros [= <-]. exact Hzero.
    + destruct (String.eqb "vx.json" c); [|discriminate]. intros [= <-]. exact Hzero.
  - intros sub. unfold FS.is_dir, FS.resolve. simpl app. rewrite boolean_id_tree_paths.
    destruct sub as [|c [|c2 q]]; try discriminate.
    + intros _. simpl. lia.
    + destruct (String.eqb "vx.json" c); discriminate.
  - intros [].
  - reflexivity.
  - intros _. split.
    + intros q rest Hq. symmetry in Hq. apply app_eq_nil in Hq as [-> _].
      split; reflexivity.
    + intros q. unfold FS.resolve, Path.join. rewrite boolean_id_tree_paths.
      destruct q as [|c [|c2 q]]; simpl; exact I.
Qed.



Lemma stamps_have_a_fixed_form_witness :
  iso_utc_from_timestamp 1700000009000000 Sample.start
  = Ret "2023-11-14T22:13:29Z" Sample.start /\
  has_form STAMP_FORM "2023-11-14T22:13:29Z" = true /\
  String.length "2023-11-14T22:13:29Z" = 20%nat.
Proof.
  assert (H : iso_utc_from_timestamp 1700000009000000 Sample.start
              = Ret "2023-11-14T22:13:29Z" Sample.start) by (vm_compute; reflexivity).
  split; [exact H|]. exact (stamps_have_a_fixed_form _ _ _ _ H).
Defined.

Lemma second_build_keeps_ids_and_signatures_witness :
  exists config1 w1 config2 w2,
    build_node_config 2 [] [["sub"]] [["Bar.MD"]; ["foo.md"]] Sample.previous
      Sample.start = Ret config1 w1 /\
    build_node_config 2 [] [["sub"]] [["Bar.MD"]; ["foo.md"]] config1
      Sample.start = Ret config2 w2 /\
    Dict.get "id" config2 = Dict.get "id" config1 /\
    Dict.get "signature" config2 = Dict.get "signature" config1 /\
    Dict.get "created_time" config2 = Dict.get "created_time" config1.
Proof.
  assert (H1 : build_node_config 2 [] [["sub"]] [["Bar.MD"]; ["foo.md"]] Sample.previous
                 Sample.start = Ret _ _) by (vm_compute; reflexivity).
  match type of H1 with
  | _ = Ret ?c1 _ =>
      assert (H2 : build_node_config 2 [] [["sub"]] [["Bar.MD"]; ["foo.md"]] c1
                     Sample.start = Ret _ _) by (vm_compute; reflexivity)
  end.
  do 4 eexists. split; [exact H1|]. split; [exact H2|].
  assert (Hnotes : NoDup (map Path.name [["Bar.MD"]; ["foo.md"]])).
  { constructor; [intros [H|[]]; discriminate|].
    constructor; [intros []|constructor]. }
  assert (Hfolders : NoDup (map Path.name [["sub"]]))
    by (constructor; [intros []|constructor]).
  destruct (second_build_keeps_ids_and_signatures _ _ _ _ _ _ _ _ _ _ _ H1 H2 I I)
    as [Hkeep _]; try assumption.
  - intros note [<-|[<-|[]]]; repeat split.
  - repeat constructor; discriminate.
  - repeat constructor; discriminate.
  - split; [apply Hkeep; simpl; auto|].
    split; apply Hkeep; simpl; auto.
Defined.

Lemma unrepresentable_mtime_aborts_the_build_witness :
  FS.mtime_of (fs far_future_world) ["a.md"] = Some 1000000000000000000 /\
  ~ representable (1000000000000000000 / 1000000) /\
  exists w', build_file_entry 1 ["a.md"] [] far_future_world = Raise ValueError w'.
Proof.
  assert (Hrep : ~ representable (1000000000000000000 / 1000000)).
  { intros [_ H]. vm_compute in H. apply H. reflexivity. }
  split; [reflexivity|]. split; [exact Hrep|].
  destruct (unrepresentable_mtime_aborts_the_build 1 ["a.md"] [] far_future_world
              1000000000000000000 eq_refl Hrep) as (w' & Hrun & _).
  - intros j. exists O. split; [lia|reflexivity].
  - exists w'. exact Hrun.
Defined.

Lemma note_assets_folder_is_never_scanned_witness :
  String.eqb (PyStr.lower (Path.suffix ["Bar.MD"])) NOTE_SUFFIX = true /\
  assets_root_of ["Bar.MD"] = ["Bar_assets"] /\
  should_exclude_dir "Bar_assets" = true.
Proof.
  refine (note_assets_folder_is_never_scanned [] "Bar" ".MD" eq_refl _ eq_refl).
  discriminate.
Defined.

Lemma twin_names_tree_paths (q : path) :
  FS.lookup (fs twin_names_world) q =
  match q with
  | [] => Some (fs twin_names_world)
  | [c] => if String.eqb "b.md" c then Some (File (Some 0) (Some "text"))
           else if String.eqb "B.md" c then Some (File (Some 0) (Some "text"))
           else if String.eqb "a.md" c then Some (File (Some 0) (Some "text"))
           else None
  | _ => None
  end.
Proof.
  change (fs twin_names_world)
    with (Dir (Some 0) [("b.md", File (Some 0) (Some "text"));
                        ("B.md", File (Some 0) (Some "text"));
                        ("a.md", File (Some 0) (Some "text"))]).
  destruct q as [|c [|c2 q]]; [reflexivity| |]; rewrite lookup_Dir; cbn [Dict.lookup];
    destruct (String.eqb "b.md" c); try reflexivity;
    destruct (String.eqb "B.md" c); try reflexivity;
    destruct (String.eqb "a.md" c); reflexivity.
Qed.

Lemma twin_names_world_ready : ready 1 1 false twin_names_world [].
Proof.
  assert (Hzero : representable (0 / 1000000)) by (split; discriminate).
  split; [split; [|split]|split; [|split; [|split]]].
  - intros j. exists O. split; [lia|reflexivity].
  - intros k. exact Hzero.
  - intros q t. unfold FS.mtime_of, FS.resolve. rewrite twin_names_tree_paths.
    destruct q as [|c [|c2 q]]; try discriminate.
    + intros [= <-]. exact Hzero.
    + destruct (String.eqb "b.md" c); [intros [= <-]; exact Hzero|].
      destruct (String.eqb "B.md" c); [intros [= <-]; exact Hzero|].
      destruct (String.eqb "a.md" c); [intros [= <-]; exact Hzero|discriminate].
  - intros sub. unfold FS.is_dir, FS.resolve. simpl app. rewrite twin_names_tree_paths.
    destruct sub as [|c [|c2 q]]; try discriminate.
    + intros _. simpl. lia.
    + destruct (String.eqb "b.md" c); [discriminate|].
      destruct (String.eqb "B.md" c); [discriminate|].
      destruct (String.eqb "a.md" c); discriminate.
  - intros [].
  - reflexivity.
  - intros _. split.
    + intros q rest Hq. symmetry in Hq. apply app_eq_nil in Hq as [-> _].
      split; reflexivity.
    + intros q. unfold FS.resolve, Path.join. rewrite twin_names_tree_paths.
      destruct q as [|c [|c2 q]]; simpl; exact I.
Qed.

Lemma twin_names_listed_once : listed_once (fs twin_names_world).
Proof.
  intros q entries. unfold FS.entries_of, FS.resolve. rewrite twin_names_tree_paths.
  destruct q as [|c [|c2 q]]; try discriminate.
  - intros [= <-]. split.
    + repeat constructor; simpl; intuition discriminate.
    + simpl. intuition discriminate.
  - destruct (String.eqb "b.md" c); [discriminate|].
    destruct (String.eqb "B.md" c); [discriminate|].
    destruct (String.eqb "a.md" c); discriminate.
Qed.

Lemma ties_keep_directory_order_witness :
  exists folders notes w',
    iter_children [] twin_names_world = Ret (folders, notes) w' /\
    notes = [["a.md"]; ["b.md"]; ["B.md"]] /\
    filter (same_fold ["B.MD"]) notes = [["b.md"]; ["B.md"]].
Proof.
  assert (Hrun : iter_children [] twin_names_world
                 = Ret ([], [["a.md"]; ["b.md"]; ["B.md"]]) twin_names_world)
    by (vm_compute; reflexivity).
  do 3 eexists. split; [exact Hrun|]. split; [reflexivity|].
  destruct (ties_keep_directory_order _ _ _ _ _ Hrun) as (children & Hc & Hp).
  rewrite (proj2 (Hp ["B.MD"])).
  assert (Hch : children_of (fs twin_names_world) [] = Some _) by (vm_compute; reflexivity).
  rewrite Hch in Hc. injection Hc as <-. reflexivity.
Defined.


